(** * The Spotify listener dashboard pipeline ([main.py])

    A shallow embedding of the data pipeline of [main.py]: format detection,
    conversion of the extended export format, data cleaning, the KPI blocks,
    the two session computations and the context template handed to the
    question-answering model.

    Conventions of the embedding.
    - A Python exception is a value of [exn]; code that can raise returns
      [result].
    - A JSON object is a [gmap string json]; the list of dicts that
      [read_json(...).to_dict(orient="records")] gives and the frame that
      [pd.DataFrame] builds from such a list are the same list of records.
      Format detection is applied to lists of dicts only, as in the upload
      loop.
    - A pandas [Timestamp] is the number of seconds since 1970-01-01 00:00
      (the exports have minute precision); [NaT] does not occur in a typed
      frame.
    - In the KPI set, Python floats are idealised as exact rationals ([Q]);
      a float that can be [NaN] is an [option Q] with [None] for [NaN].
      [format_2f] rounds the exact rational, ties to even.  Where a result
      depends on how floats round (which of two nearly equal group totals
      [idxmax] prefers), the rankings are modelled a second time over an
      abstract float type, in the section on float rankings.
    - Chart rendering and the question-answering call are outside the
      embedding. *)

From Stdlib Require Import ZArith QArith Qabs Lia Ascii String.
From stdpp Require Import base option strings gmap list pretty sorting.

Open Scope string_scope.
Open Scope Z_scope.

(** ** Exceptions *)

Inductive exn :=
  | IndexError          (* data[0] on an empty list *)
  | KeyError            (* record["ts"] on a record without "ts" *)
  | ValueError          (* unparsable date; strftime of NaT; idxmax/idxmin of an
                           empty series *)
  | NameError           (* df read before assignment *)
  | ZeroDivisionError.  (* int / int with a zero divisor *)

Inductive result (A : Type) :=
  | Ok (a : A)
  | Raise (e : exn).
Arguments Ok {A} a.
Arguments Raise {A} e.

#[global] Instance result_ret : MRet result := fun _ a => Ok a.
#[global] Instance result_bind : MBind result := fun _ _ f m =>
  match m with
  | Ok a => f a
  | Raise e => Raise e
  end.

#[global] Instance result_fmap : FMap result := fun _ _ f m =>
  match m with
  | Ok a => Ok (f a)
  | Raise e => Raise e
  end.

#[global] Instance exn_eq_dec : EqDecision exn.
Proof. solve_decision. Defined.

(** [for_each f l]: a Python loop that appends [f x] for each [x], and stops at
    the first exception. *)
Fixpoint for_each {A B} (f : A → result B) (l : list A) : result (list B) :=
  match l with
  | [] => Ok []
  | x :: l' => y ← f x; ys ← for_each f l'; Ok (y :: ys)
  end.

(** ** JSON values and raw records *)

Inductive json :=
  | JNull
  | JStr (s : string)
  | JInt (n : Z).

#[global] Instance json_eq_dec : EqDecision json.
Proof. solve_decision. Defined.

(** [k in d] *)
Definition has_key (k : string) (d : gmap string json) : bool :=
  bool_decide (is_Some (d !! k)).

(** [d.get(k, dflt)] *)
Definition get (d : gmap string json) (k : string) (dflt : json) : json :=
  default dflt (d !! k).

(** [d[k]] *)
Definition getitem (d : gmap string json) (k : string) : result json :=
  match d !! k with
  | Some v => Ok v
  | None => Raise KeyError
  end.

(** ** Format detection (lines 31-41) *)

Inductive file_format := new | old | unknown.

#[global] Instance file_format_eq_dec : EqDecision file_format.
Proof. solve_decision. Defined.

Definition detect_file_format (data : list (gmap string json)) : result file_format :=
  match data with
  | [] => Raise IndexError
  | first :: _ =>
      if has_key "ts" first && has_key "master_metadata_track_name" first then Ok new
      else if has_key "endTime" first && has_key "trackName" first then Ok old
      else Ok unknown
  end.

(** ** Timestamps: the proleptic Gregorian calendar over epoch seconds *)

Definition Timestamp := Z.

Definition is_leap (y : Z) : bool :=
  ((y mod 4 =? 0) && negb (y mod 100 =? 0)) || (y mod 400 =? 0).

Definition days_in_month (y m : Z) : Z :=
  if m =? 2 then (if is_leap y then 29 else 28)
  else if (m =? 4) || (m =? 6) || (m =? 9) || (m =? 11) then 30
  else 31.

(** Days from 1970-01-01 to the civil date [y-m-d]. *)
Definition days_from_civil (y m d : Z) : Z :=
  let y' := if m <=? 2 then y - 1 else y in
  let era := y' / 400 in
  let yoe := y' - era * 400 in
  let mp := if 2 <? m then m - 3 else m + 9 in
  let doy := (153 * mp + 2) / 5 + d - 1 in
  let doe := yoe * 365 + yoe / 4 - yoe / 100 + doy in
  era * 146097 + doe - 719468.

(** The civil date [(y, m, d)] of a day number. *)
Definition civil_from_days (z : Z) : Z * Z * Z :=
  let z' := z + 719468 in
  let era := z' / 146097 in
  let doe := z' - era * 146097 in
  let yoe := (doe - doe / 1460 + doe / 36524 - doe / 146096) / 365 in
  let doy := doe - (365 * yoe + yoe / 4 - yoe / 100) in
  let mp := (5 * doy + 2) / 153 in
  let d := doy - (153 * mp + 2) / 5 + 1 in
  let m := if mp <? 10 then mp + 3 else mp - 9 in
  let y := yoe + era * 400 + (if m <=? 2 then 1 else 0) in
  (y, m, d).

Definition mk_timestamp (y m d hh mm ss : Z) : Timestamp :=
  days_from_civil y m d * 86400 + hh * 3600 + mm * 60 + ss.

(** [.dt.date] *)
Definition ts_date (t : Timestamp) : Z * Z * Z := civil_from_days (t / 86400).
(** [.dt.month] *)
Definition ts_month (t : Timestamp) : Z := snd (fst (ts_date t)).
(** [.dt.hour] *)
Definition ts_hour (t : Timestamp) : Z := (t mod 86400) / 3600.
Definition ts_minute (t : Timestamp) : Z := (t mod 3600) / 60.

(** [.dt.day_name()]; 1970-01-01 was a Thursday. *)
Definition ts_day_name (t : Timestamp) : string :=
  let w := (t / 86400 + 3) mod 7 in
  if w =? 0 then "Monday" else if w =? 1 then "Tuesday"
  else if w =? 2 then "Wednesday" else if w =? 3 then "Thursday"
  else if w =? 4 then "Friday" else if w =? 5 then "Saturday"
  else "Sunday".

(** *** Parsing: [pd.to_datetime] on the two export formats *)

Definition digit (c : ascii) : option Z :=
  let n := Z.of_N (Ascii.N_of_ascii c) in
  if (48 <=? n) && (n <=? 57) then Some (n - 48) else None.

Definition num2 (a b : ascii) : option Z :=
  x ← digit a; y ← digit b; Some (10 * x + y).

Definition num4 (a b c d : ascii) : option Z :=
  x ← num2 a b; y ← num2 c d; Some (100 * x + y).

(** The seconds field and zone designator that may follow [HH:MM]:
    nothing, [:SS], or either followed by [Z]. *)
Definition parse_tail (l : list ascii) : option Z :=
  match l with
  | [] => Some 0
  | ["Z"%char] => Some 0
  | [":"%char; s1; s2] => num2 s1 s2
  | [":"%char; s1; s2; "Z"%char] => num2 s1 s2
  | _ => None
  end.

(** [pd.to_datetime(s)] for [s] of the shape [YYYY-MM-DD HH:MM] (the legacy
    export and the output of [strftime] for a year of four digits) or
    [YYYY-MM-DDTHH:MM:SSZ] (the extended export, UTC): a date with a year
    from 0001 on, a [T] or a space, hour and minute, then optionally the
    seconds and optionally [Z].  These are the only texts that the embedding
    knows: [Ok] is returned for them alone, and no property below relies on
    what is returned for a text of another shape. *)
Definition to_datetime (s : string) : result Timestamp :=
  match String.list_ascii_of_string s with
  | y1 :: y2 :: y3 :: y4 :: "-"%char :: m1 :: m2 :: "-"%char :: d1 :: d2
      :: sep :: h1 :: h2 :: ":"%char :: n1 :: n2 :: tail =>
      let parsed :=
        y ← num4 y1 y2 y3 y4; m ← num2 m1 m2; d ← num2 d1 d2;
        hh ← num2 h1 h2; mm ← num2 n1 n2; ss ← parse_tail tail;
        if (bool_decide (sep = "T"%char) || bool_decide (sep = " "%char))
           && (1 <=? y) && (1 <=? m) && (m <=? 12) && (1 <=? d) && (d <=? days_in_month y m)
           && (hh <? 24) && (mm <? 60) && (ss <? 60)
        then Some (mk_timestamp y m d hh mm ss) else None in
      match parsed with
      | Some t => Ok t
      | None => Raise ValueError
      end
  | _ => Raise ValueError
  end.

(** *** Formatting *)

(** Zero-padded decimal of a non-negative number, at least [w] characters. *)
Definition zero_pad (w : nat) (n : Z) : string :=
  let s := pretty n in
  String.string_of_list_ascii (replicate (w - String.length s)%nat "0"%char) +:+ s.

(** [str(date)], the ISO format of a [datetime.date]: the year is padded to
    four digits. *)
Definition str_date (d : Z * Z * Z) : string :=
  let '(y, m, d) := d in
  zero_pad 4 y +:+ "-" +:+ zero_pad 2 m +:+ "-" +:+ zero_pad 2 d.

(** [t.strftime("%Y-%m-%d %H:%M")]: [%Y] writes the year as it is, without
    padding (year 50 is written [50]); the other fields are two digits
    wide. *)
Definition strftime (t : Timestamp) : string :=
  let '(y, m, d) := ts_date t in
  pretty y +:+ "-" +:+ zero_pad 2 m +:+ "-" +:+ zero_pad 2 d
  +:+ " " +:+ zero_pad 2 (ts_hour t) +:+ ":" +:+ zero_pad 2 (ts_minute t).

(** ** Conversion of the extended format (lines 49-62) *)

(** [pd.to_datetime(record["ts"])]: a string is parsed; an integer counts
    nanoseconds since the epoch; a null cell becomes [NaT], on which
    [strftime] raises [ValueError]. *)
Definition to_datetime_cell (v : json) : result Timestamp :=
  match v with
  | JStr s => to_datetime s
  | JInt n => Ok (n / 1000000000)
  | JNull => Raise ValueError
  end.

Definition convert_record (record : gmap string json) : result (gmap string json) :=
  ts ← getitem record "ts";
  t ← to_datetime_cell ts;
  Ok (<["endTime" := JStr (strftime t)]>
      (<["artistName" := get record "master_metadata_album_artist_name" JNull]>
      (<["trackName" := get record "master_metadata_track_name" JNull]>
      (<["msPlayed" := get record "ms_played" (JInt 0)]> ∅)))).

Definition convert_new_format_to_old_format (new_data : list (gmap string json))
  : result (list (gmap string json)) :=
  for_each convert_record new_data.

(** ** The upload loop (lines 73-97) *)

(** One iteration per uploaded file: a file of unknown format is reported
    and skipped; the frames of the others are collected in upload order and
    concatenated.  When none is left, [df] is never assigned and line 100
    raises.

    [load] is the body of [if uploaded_files:] (line 73), which runs for a
    non-empty upload only: [on_upload] below is the guarded statement, and
    the properties of [load] are stated for non-empty uploads. *)
Fixpoint convert_files (uploaded_files : list (list (gmap string json)))
  : result (list (list (gmap string json))) :=
  match uploaded_files with
  | [] => Ok []
  | file_data :: files =>
      file_format ← detect_file_format file_data;
      match file_format with
      | old => combined_data ← convert_files files; Ok (file_data :: combined_data)
      | new =>
          converted_df ← convert_new_format_to_old_format file_data;
          combined_data ← convert_files files;
          Ok (converted_df :: combined_data)
      | unknown => convert_files files
      end
  end.

Definition load (uploaded_files : list (list (gmap string json)))
  : result (list (gmap string json)) :=
  combined_data ← convert_files uploaded_files;
  match combined_data with
  | [] => Raise NameError
  | _ => Ok (concat combined_data)
  end.

(** Line 73: without an upload nothing is run, and nothing is raised. *)
Definition on_upload (uploaded_files : list (list (gmap string json)))
  : option (result (list (gmap string json))) :=
  match uploaded_files with
  | [] => None
  | _ => Some (load uploaded_files)
  end.

(** ** Typed frames *)

(** A row of the combined frame once line 100 has parsed [endTime]. *)
Module Event.
Record t := mk {
  endTime : Timestamp;
  artistName : option string;
  trackName : option string;
  msPlayed : Z
}.
End Event.

Definition name_cell (v : json) : option (option string) :=
  match v with
  | JNull => Some None
  | JStr s => Some (Some s)
  | JInt _ => None
  end.

(** The typed view of a row of the combined frame.  All four columns are
    present; [endTime] is a string of the one format [YYYY-MM-DD HH:MM] (16
    characters: the legacy export and the output of the converter, so that
    line 100 reads the whole column in a single format) that [to_datetime]
    parses; the names are strings or null; [msPlayed] is an integer.  Rows
    of any other shape are outside the typed model ([None]). *)
Definition typed_row (d : gmap string json) : option Event.t :=
  match d !! "endTime", d !! "artistName", d !! "trackName", d !! "msPlayed" with
  | Some (JStr s), Some artist, Some track, Some (JInt n) =>
      if bool_decide (String.length s = 16%nat) then
        match to_datetime s with
        | Ok t =>
            a ← name_cell artist;
            k ← name_cell track;
            Some (Event.mk t a k n)
        | Raise _ => None
        end
      else None
  | _, _, _, _ => None
  end.

Definition typed_frame (df : list (gmap string json)) : option (list Event.t) :=
  mapM typed_row df.

(** The frame after "Data Cleaning" (lines 100-105). *)
Record row := {
  endTime : Timestamp;
  artistName : option string;
  trackName : option string;
  msPlayed : Z;
  hour : Z;
  day_of_week : string;
  duration_minutes : Q;
  month : Z
}.

Definition derive (e : Event.t) : row :=
  {| endTime := Event.endTime e;
     artistName := Event.artistName e;
     trackName := Event.trackName e;
     msPlayed := Event.msPlayed e;
     hour := ts_hour (Event.endTime e);
     day_of_week := ts_day_name (Event.endTime e);
     duration_minutes := inject_Z (Event.msPlayed e) / 60000;
     month := ts_month (Event.endTime e) |}.

Definition data_cleaning (df : list Event.t) : list row :=
  derive <$> filter (λ e, 0 < Event.msPlayed e) df.

(** ** pandas: series, group-by and reductions *)

Class Key (K : Type) := key_cmp : K → K → comparison.
#[global] Instance Z_key : Key Z := Z.compare.
#[global] Instance string_key : Key string := String.compare.
#[global] Instance pair_key `{Key A, Key B} : Key (A * B) := λ x y,
  match key_cmp x.1 y.1 with
  | Eq => key_cmp x.2 y.2
  | c => c
  end.

Definition Qltb (x y : Q) : bool := negb (Qle_bool y x).

(** [.sum()] *)
Definition Qsum (l : list Q) : Q := foldr Qplus 0%Q l.

(** [.mean()]: [NaN] on an empty series. *)
Definition mean (l : list Q) : option Q :=
  match l with
  | [] => None
  | _ => Some (Qsum l / inject_Z (Z.of_nat (length l)))%Q
  end.

(** [.max()] and [.min()]: [NaN] (or [NaT]) on an empty series. *)
Definition Qmax_list (l : list Q) : option Q :=
  match l with
  | [] => None
  | x :: l' => Some (fold_left (λ m y, if Qltb m y then y else m) l' x)
  end.

Definition Qmin_list (l : list Q) : option Q :=
  match l with
  | [] => None
  | x :: l' => Some (fold_left (λ m y, if Qltb y m then y else m) l' x)
  end.

Definition Zmax_list (l : list Z) : option Z :=
  match l with
  | [] => None
  | x :: l' => Some (fold_left Z.max l' x)
  end.

Definition Zmin_list (l : list Z) : option Z :=
  match l with
  | [] => None
  | x :: l' => Some (fold_left Z.min l' x)
  end.

(** Adding one row to the groups, which are kept sorted by key. *)
Fixpoint add_group `{Key K} (k : K) (v : Q) (s : list (K * Q)) : list (K * Q) :=
  match s with
  | [] => [(k, v)]
  | (k', v') :: s' =>
      match key_cmp k k' with
      | Lt => (k, v) :: s
      | Eq => (k', (v' + v)%Q) :: s'
      | Gt => (k', v') :: add_group k v s'
      end
  end.

(** [df.groupby(keys)[vals].sum()]: one entry per distinct key, in ascending
    key order; rows whose key is null are dropped. *)
Definition groupby_sum `{Key K} (keys : list (option K)) (vals : list Q) : list (K * Q) :=
  fold_left (λ s kv, match kv.1 with
                     | Some k => add_group k kv.2 s
                     | None => s
                     end) (zip keys vals) [].

Fixpoint arg_best {K} (better : Q → Q → bool) (best : K * Q) (s : list (K * Q)) : K :=
  match s with
  | [] => best.1
  | kv :: s' => arg_best better (if better kv.2 best.2 then kv else best) s'
  end.

(** [.idxmax()] and [.idxmin()]: the label of the first extreme entry;
    [ValueError] on an empty series. *)
Definition idxmax {K} (s : list (K * Q)) : result K :=
  match s with
  | [] => Raise ValueError
  | kv :: s' => Ok (arg_best (λ v b, Qltb b v) kv s')
  end.

Definition idxmin {K} (s : list (K * Q)) : result K :=
  match s with
  | [] => Raise ValueError
  | kv :: s' => Ok (arg_best (λ v b, Qltb v b) kv s')
  end.

(** [.nunique()]: distinct non-null values. *)
Definition nunique (col : list (option string)) : Z :=
  Z.of_nat (length (remove_dups (omap id col))).

(** [.duplicated()]: a cell is marked when an equal cell (null equals null)
    comes before it. *)
Fixpoint duplicated_from (seen : list (option string)) (col : list (option string)) : list bool :=
  match col with
  | [] => []
  | x :: col' => bool_decide (x ∈ seen) :: duplicated_from (x :: seen) col'
  end.

Definition duplicated (col : list (option string)) : list bool :=
  duplicated_from [] col.

(** Sum of a boolean series. *)
Definition count_true (l : list bool) : Z :=
  Z.of_nat (length (filter (λ b, b = true) l)).

Fixpoint insert_desc {K} (x : K * Q) (l : list (K * Q)) : list (K * Q) :=
  match l with
  | [] => [x]
  | y :: l' => if Qle_bool y.2 x.2 then x :: l else y :: insert_desc x l'
  end.

(** [.nlargest(n)]: the [n] largest entries in descending order, ties in
    order of appearance. *)
Definition nlargest {K} (n : nat) (s : list (K * Q)) : list (K * Q) :=
  take n (foldr insert_desc [] s).

(** [.shift(1)] *)
Definition shift {A} (col : list A) : list (option A) :=
  take (length col) (None :: (Some <$> col)).

(** [(col - col.shift(1)).dt.total_seconds()]: [NaN] in the first row. *)
Definition diff_seconds (col : list Timestamp) : list (option Z) :=
  zip_with (λ t p, (λ p', t - p') <$> p) col (shift col).

(** [.cumsum()] of a boolean series. *)
Fixpoint cumsum_from (acc : Z) (l : list bool) : list Z :=
  match l with
  | [] => []
  | b :: l' => let acc' := acc + (if b then 1 else 0) in acc' :: cumsum_from acc' l'
  end.

Definition cumsum (l : list bool) : list Z := cumsum_from 0 l.

(** [.pct_change()]: [NaN] in the first row.  (No entry of a series of
    group sums of a cleaned frame is zero.) *)
Definition pct_change (l : list Q) : list (option Q) :=
  zip_with (λ x p, p' ← p; if Qeq_bool p' 0 then None else Some (x / p' - 1)%Q) l (shift l).

(** [.mean()] of a float series: [NaN] entries are skipped. *)
Definition nanmean (l : list (option Q)) : option Q := mean (omap id l).

(** ** Column helpers on the cleaned frame *)

Definition by_hour (df : list row) : list (Z * Q) :=
  groupby_sum ((λ r, Some (hour r)) <$> df) (duration_minutes <$> df).
Definition by_month (df : list row) : list (Z * Q) :=
  groupby_sum ((λ r, Some (month r)) <$> df) (duration_minutes <$> df).
Definition by_date (df : list row) : list (Z * Z * Z * Q) :=
  groupby_sum ((λ r, Some (ts_date (endTime r))) <$> df) (duration_minutes <$> df).
Definition by_day_of_week (df : list row) : list (string * Q) :=
  groupby_sum ((λ r, Some (day_of_week r)) <$> df) (duration_minutes <$> df).
Definition by_artist (df : list row) : list (string * Q) :=
  groupby_sum (artistName <$> df) (duration_minutes <$> df).
Definition by_track (df : list row) : list (string * Q) :=
  groupby_sum (trackName <$> df) (duration_minutes <$> df).
Definition by_month_artist (df : list row) : list (Z * string * Q) :=
  groupby_sum ((λ r, a ← artistName r; Some (month r, a)) <$> df) (duration_minutes <$> df).
Definition by_month_track (df : list row) : list (Z * string * Q) :=
  groupby_sum ((λ r, a ← trackName r; Some (month r, a)) <$> df) (duration_minutes <$> df).

Definition is_weekday (r : row) : bool :=
  bool_decide (day_of_week r ∈ ["Monday"; "Tuesday"; "Wednesday"; "Thursday"; "Friday"]).
Definition is_weekend (r : row) : bool :=
  bool_decide (day_of_week r ∈ ["Saturday"; "Sunday"]).

(** [msPlayed >= (3 * 60 * 1000) * 0.8] *)
Definition is_fully_played (r : row) : bool := 144000 <=? msPlayed r.

(** ** "KPI Calculations" (lines 108-116) *)

Module KeyMetrics.
Record t := mk {
  total_hours : Q;
  unique_artists : Z;
  unique_songs : Z;
  most_active_hour : Z;
  avg_listens_per_day : option Q;
  avg_listens_per_month : option Q;
  avg_listens_per_hour : option Q;
  top_artist : string;
  top_song : string
}.
End KeyMetrics.

Definition kpi_calculations (df : list row) : result KeyMetrics.t :=
  let total_hours := (Qsum (duration_minutes <$> df) / 60)%Q in
  let unique_artists := nunique (artistName <$> df) in
  let unique_songs := nunique (trackName <$> df) in
  most_active_hour ← idxmax (by_hour df);
  let avg_listens_per_day := mean (snd <$> by_date df) in
  let avg_listens_per_month := mean (snd <$> by_month df) in
  let avg_listens_per_hour := mean (snd <$> by_hour df) in
  top_artist ← idxmax (by_artist df);
  top_song ← idxmax (by_track df);
  Ok (KeyMetrics.mk total_hours unique_artists unique_songs most_active_hour
        avg_listens_per_day avg_listens_per_month avg_listens_per_hour
        top_artist top_song).

(** ** Sessions *)

(** First computation (lines 208-209): the boolean column
    [df['session']]; the [NaN] gap of the first row compares false. *)
Definition session_bool (col : list Timestamp) : list bool :=
  (λ g, match g with
        | Some d => 1800 <? d
        | None => false
        end) <$> diff_seconds col.

(** [df['session'].cumsum()], the grouping key of line 209. *)
Definition session_bool_cumsum (col : list Timestamp) : list Z :=
  cumsum (session_bool col).

(** Second computation (lines 225-226). *)
Definition session_deltas (col : list Timestamp) : list Z :=
  default 0 <$> diff_seconds col.

Definition session (col : list Timestamp) : list Z :=
  cumsum ((λ d, 1800 <? d) <$> session_deltas col).

(** Line 209 and line 227. *)
Definition session_lengths_first (df : list row) : list (Z * Q) :=
  groupby_sum (Some <$> session_bool_cumsum (endTime <$> df)) (duration_minutes <$> df).

Definition session_lengths (df : list row) : list (Z * Q) :=
  groupby_sum (Some <$> session (endTime <$> df)) (duration_minutes <$> df).

(** ** "Calculate Metrics" (lines 183-238) *)

Record KPISet := {
  total_hours : Q;
  unique_artists : Z;
  unique_songs : Z;
  most_active_hour : Z;
  most_active_day : string;
  date_range_start : option (Z * Z * Z);
  date_range_end : option (Z * Z * Z);
  avg_listens_per_day : option Q;
  avg_listens_per_month : option Q;
  avg_listens_per_hour : option Q;
  highest_month : Z;
  lowest_month : Z;
  weekday_playtime : Q;
  weekend_playtime : Q;
  fully_played : Z;
  partially_played : Z;
  fully_played_percentage : Q;
  longest_session : option Q;
  shortest_session : option Q;
  top_artist : string;
  top_song : string;
  monthly_top_artist : string;
  monthly_top_song : string;
  top_5_artist_playtime : Q;
  avg_session_duration : option Q;
  song_repeatability_count : Z;
  monthly_trend_variance : option Q;
  consistency_rate : Q;
  most_active_month : Z;
  most_active_month_total : option Q
}.

(** [fully_played / len(df) * 100], a true division of two ints. *)
Definition percentage (n len : Z) : result Q :=
  if len =? 0 then Raise ZeroDivisionError
  else Ok (inject_Z n / inject_Z len * 100)%Q.

Definition calculate_metrics (df : list row) : result KPISet :=
  let total_hours := (Qsum (duration_minutes <$> df) / 60)%Q in
  let unique_artists := nunique (artistName <$> df) in
  let unique_songs := nunique (trackName <$> df) in
  most_active_hour ← idxmax (by_hour df);
  most_active_day ← idxmax (by_day_of_week df);
  let date_range_start := ts_date <$> Zmin_list (endTime <$> df) in
  let date_range_end := ts_date <$> Zmax_list (endTime <$> df) in
  let avg_listens_per_day := mean (snd <$> by_date df) in
  let avg_listens_per_month := mean (snd <$> by_month df) in
  let avg_listens_per_hour := mean (snd <$> by_hour df) in
  highest_month ← idxmax (by_month df);
  lowest_month ← idxmin (by_month df);
  let weekday_playtime := Qsum (duration_minutes <$> filter (λ r, is_weekday r = true) df) in
  let weekend_playtime := Qsum (duration_minutes <$> filter (λ r, is_weekend r = true) df) in
  let fully_played := Z.of_nat (length (filter (λ r, is_fully_played r = true) df)) in
  let partially_played := Z.of_nat (length (filter (λ r, is_fully_played r = false) df)) in
  fully_played_percentage ← percentage fully_played (Z.of_nat (length df));
  let longest_session := Qmax_list (snd <$> session_lengths_first df) in
  let shortest_session := Qmin_list (snd <$> session_lengths_first df) in
  top_artist ← idxmax (by_artist df);
  top_song ← idxmax (by_track df);
  monthly_top_artist ← snd <$> idxmax (by_month_artist df);
  monthly_top_song ← snd <$> idxmax (by_month_track df);
  let top_5_artist_playtime := Qsum (snd <$> nlargest 5 (by_artist df)) in
  let avg_session_duration := mean (snd <$> session_lengths df) in
  let song_repeatability_count := count_true (duplicated (trackName <$> df)) in
  let monthly_trend_variance := (λ x, x * 100)%Q <$> nanmean (pct_change (snd <$> by_month df)) in
  let consistency_rate := (inject_Z (Z.of_nat (length (by_day_of_week df))) / 7 * 100)%Q in
  most_active_month ← idxmax (by_month df);
  let most_active_month_total := Qmax_list (snd <$> by_month df) in
  Ok {| total_hours := total_hours;
        unique_artists := unique_artists;
        unique_songs := unique_songs;
        most_active_hour := most_active_hour;
        most_active_day := most_active_day;
        date_range_start := date_range_start;
        date_range_end := date_range_end;
        avg_listens_per_day := avg_listens_per_day;
        avg_listens_per_month := avg_listens_per_month;
        avg_listens_per_hour := avg_listens_per_hour;
        highest_month := highest_month;
        lowest_month := lowest_month;
        weekday_playtime := weekday_playtime;
        weekend_playtime := weekend_playtime;
        fully_played := fully_played;
        partially_played := partially_played;
        fully_played_percentage := fully_played_percentage;
        longest_session := longest_session;
        shortest_session := shortest_session;
        top_artist := top_artist;
        top_song := top_song;
        monthly_top_artist := monthly_top_artist;
        monthly_top_song := monthly_top_song;
        top_5_artist_playtime := top_5_artist_playtime;
        avg_session_duration := avg_session_duration;
        song_repeatability_count := song_repeatability_count;
        monthly_trend_variance := monthly_trend_variance;
        consistency_rate := consistency_rate;
        most_active_month := most_active_month;
        most_active_month_total := most_active_month_total |}.

(** ** The context template (lines 249-270) *)

(** The names of the thirty scalars of "Calculate Metrics", by type. *)
Module Name.
Inductive date := date_range_start | date_range_end.
Inductive int :=
  | unique_artists | unique_songs | most_active_hour | highest_month
  | lowest_month | fully_played | partially_played
  | song_repeatability_count | most_active_month.
Inductive str :=
  | most_active_day | top_artist | top_song | monthly_top_artist
  | monthly_top_song.
Inductive float :=
  | total_hours | avg_listens_per_day | avg_listens_per_month
  | avg_listens_per_hour | weekday_playtime | weekend_playtime
  | fully_played_percentage | longest_session | shortest_session
  | top_5_artist_playtime | avg_session_duration | monthly_trend_variance
  | consistency_rate | most_active_month_total.
Inductive t := Date (k : date) | Int (k : int) | Str (k : str) | Float (k : float).

Definition all : list t :=
  [Date date_range_start; Date date_range_end;
   Int unique_artists; Int unique_songs; Int most_active_hour;
   Int highest_month; Int lowest_month; Int fully_played;
   Int partially_played; Int song_repeatability_count; Int most_active_month;
   Str most_active_day; Str top_artist; Str top_song;
   Str monthly_top_artist; Str monthly_top_song;
   Float total_hours; Float avg_listens_per_day; Float avg_listens_per_month;
   Float avg_listens_per_hour; Float weekday_playtime; Float weekend_playtime;
   Float fully_played_percentage; Float longest_session;
   Float shortest_session; Float top_5_artist_playtime;
   Float avg_session_duration; Float monthly_trend_variance;
   Float consistency_rate; Float most_active_month_total].
End Name.

#[global] Instance name_date_eq_dec : EqDecision Name.date.
Proof. solve_decision. Defined.
#[global] Instance name_int_eq_dec : EqDecision Name.int.
Proof. solve_decision. Defined.
#[global] Instance name_str_eq_dec : EqDecision Name.str.
Proof. solve_decision. Defined.
#[global] Instance name_float_eq_dec : EqDecision Name.float.
Proof. solve_decision. Defined.
#[global] Instance name_eq_dec : EqDecision Name.t.
Proof. solve_decision. Defined.

Definition get_date (k : KPISet) (n : Name.date) : option (Z * Z * Z) :=
  match n with
  | Name.date_range_start => date_range_start k
  | Name.date_range_end => date_range_end k
  end.

Definition get_int (k : KPISet) (n : Name.int) : Z :=
  match n with
  | Name.unique_artists => unique_artists k
  | Name.unique_songs => unique_songs k
  | Name.most_active_hour => most_active_hour k
  | Name.highest_month => highest_month k
  | Name.lowest_month => lowest_month k
  | Name.fully_played => fully_played k
  | Name.partially_played => partially_played k
  | Name.song_repeatability_count => song_repeatability_count k
  | Name.most_active_month => most_active_month k
  end.

Definition get_str (k : KPISet) (n : Name.str) : string :=
  match n with
  | Name.most_active_day => most_active_day k
  | Name.top_artist => top_artist k
  | Name.top_song => top_song k
  | Name.monthly_top_artist => monthly_top_artist k
  | Name.monthly_top_song => monthly_top_song k
  end.

Definition get_float (k : KPISet) (n : Name.float) : option Q :=
  match n with
  | Name.total_hours => Some (total_hours k)
  | Name.avg_listens_per_day => avg_listens_per_day k
  | Name.avg_listens_per_month => avg_listens_per_month k
  | Name.avg_listens_per_hour => avg_listens_per_hour k
  | Name.weekday_playtime => Some (weekday_playtime k)
  | Name.weekend_playtime => Some (weekend_playtime k)
  | Name.fully_played_percentage => Some (fully_played_percentage k)
  | Name.longest_session => longest_session k
  | Name.shortest_session => shortest_session k
  | Name.top_5_artist_playtime => Some (top_5_artist_playtime k)
  | Name.avg_session_duration => avg_session_duration k
  | Name.monthly_trend_variance => monthly_trend_variance k
  | Name.consistency_rate => Some (consistency_rate k)
  | Name.most_active_month_total => most_active_month_total k
  end.

(** A replacement field of the f-string. *)
Inductive slot :=
  | PDate (n : Name.date)         (* {n}, a date *)
  | PInt (n : Name.int)           (* {n}, an int *)
  | PStr (n : Name.str)           (* {n}, a str *)
  | F2 (n : Name.float)           (* {n:.2f} *)
  | F2_100_minus (n : Name.float). (* {100 - n:.2f} *)

Inductive segment :=
  | Lit (s : string)
  | Slot (s : slot).

Definition slot_name (s : slot) : Name.t :=
  match s with
  | PDate n => Name.Date n
  | PInt n => Name.Int n
  | PStr n => Name.Str n
  | F2 n => Name.Float n
  | F2_100_minus n => Name.Float n
  end.

(** Rounding a non-negative rational to the nearest integer, ties to even. *)
Definition round_half_even (q : Q) : Z :=
  let a := Qnum q in
  let b := Z.pos (Qden q) in
  let n := a / b in
  match 2 * (a mod b) ?= b with
  | Lt => n
  | Gt => n + 1
  | Eq => if Z.even n then n else n + 1
  end.

(** [f"{x:.2f}"] *)
Definition format_2f (x : option Q) : string :=
  match x with
  | None => "nan"
  | Some q =>
      let n := round_half_even (Qabs q * 100) in
      (if Qltb q 0 then "-" else "") +:+ pretty (n / 100) +:+ "." +:+ zero_pad 2 (n mod 100)
  end.

Definition render_slot (k : KPISet) (s : slot) : string :=
  match s with
  | PDate n => from_option str_date "NaT" (get_date k n)
  | PInt n => pretty (get_int k n)
  | PStr n => get_str k n
  | F2 n => format_2f (get_float k n)
  | F2_100_minus n => format_2f ((λ x, 100 - x)%Q <$> get_float k n)
  end.

Definition render (k : KPISet) (s : segment) : string :=
  match s with
  | Lit s => s
  | Slot s => render_slot k s
  end.

(** The line break and indentation between two sentences of the template. *)
Definition nl : string := String (ascii_of_nat 10) "            ".

Definition context_template : list segment :=
  [ Lit nl; Lit "Your Spotify listening data (data range) spans from ";
    Slot (PDate Name.date_range_start); Lit " to "; Slot (PDate Name.date_range_end); Lit ".";
    Lit nl; Lit "You have listened for a total of "; Slot (F2 Name.total_hours); Lit " hours.";
    Lit nl; Lit "You streamed "; Slot (PInt Name.unique_songs); Lit " unique songs and ";
    Slot (PInt Name.unique_artists); Lit " unique artists.";
    Lit nl; Lit "Your most active hour of the day is "; Slot (PInt Name.most_active_hour); Lit ":00.";
    Lit nl; Lit "The most active day of the week is "; Slot (PStr Name.most_active_day); Lit ".";
    Lit nl; Lit "On average, you listen to "; Slot (F2 Name.avg_listens_per_day);
    Lit " minutes per day and "; Slot (F2 Name.avg_listens_per_month); Lit " minutes per month.";
    Lit nl; Lit "The month with the highest listening time is "; Slot (PInt Name.highest_month);
    Lit ", and the lowest is "; Slot (PInt Name.lowest_month); Lit ".";
    Lit nl; Lit "Fully played songs make up "; Slot (F2 Name.fully_played_percentage);
    Lit "% of your total listening activity.";
    Lit nl; Lit "Your longest listening session lasted "; Slot (F2 Name.longest_session);
    Lit " minutes, and the shortest lasted "; Slot (F2 Name.shortest_session); Lit " minutes.";
    Lit nl; Lit "Your top artist overall is "; Slot (PStr Name.top_artist);
    Lit ", and your most played song is "; Slot (PStr Name.top_song); Lit ".";
    Lit nl; Lit "You have listened to "; Slot (F2 Name.weekday_playtime);
    Lit " minutes on weekdays and "; Slot (F2 Name.weekend_playtime); Lit " minutes on weekends.";
    Lit nl; Lit "Your top artist by month is "; Slot (PStr Name.monthly_top_artist); Lit ".";
    Lit nl; Lit "Your top song by month is "; Slot (PStr Name.monthly_top_song); Lit ".";
    Lit nl; Lit "You listen to "; Slot (PStr Name.top_artist); Lit " the most during late-night hours.";
    Lit nl; Lit "Your top 5 artists account for "; Slot (F2 Name.top_5_artist_playtime);
    Lit " minutes of your listening time.";
    Lit nl; Lit "Your playtime distribution is "; Slot (F2 Name.fully_played_percentage);
    Lit "% fully played songs and "; Slot (F2_100_minus Name.fully_played_percentage);
    Lit "% partially played songs.";
    Lit nl; Lit "Your average listening session duration is "; Slot (F2 Name.avg_session_duration);
    Lit " minutes.";
    Lit nl; Lit "You have repeated songs "; Slot (PInt Name.song_repeatability_count);
    Lit " times in your dataset.";
    Lit nl; Lit "Your listening activity has been consistent at "; Slot (F2 Name.consistency_rate);
    Lit "% across the week.";
    Lit nl; Lit "Your listening trends have changed month-to-month with ";
    Slot (F2 Name.monthly_trend_variance); Lit "% variance in playtime.";
    Lit nl ].

Definition context (k : KPISet) : string :=
  foldr (λ s acc, render k s +:+ acc) "" context_template.

(** The slots of a template, and how often a name is used in them. *)
Definition slots (tpl : list segment) : list slot :=
  omap (λ s, match s with Slot s => Some s | Lit _ => None end) tpl.

Definition occurrences (n : Name.t) (tpl : list segment) : nat :=
  length (filter (λ s, slot_name s = n) (slots tpl)).

(** ** The run over the combined frame (lines 99-270) *)

Definition pipeline (df : list Event.t) : result (KPISet * string) :=
  let df := data_cleaning df in
  _ ← kpi_calculations df;
  k ← calculate_metrics df;
  Ok (k, context k).

(** Line 226: the frame with its [session] column. *)
Definition with_session (df : list row) : list (row * Z) :=
  zip df (session (endTime <$> df)).

(** ** The specification's view of segmentation *)

(** Spec: "assign session id 0 to the first event.  For each subsequent
    event, compute the gap to the previous event in seconds.  If the gap
    exceeds 1800, increment the running session id before assigning it to
    the event; otherwise the event keeps the current session id" -- a single
    left-to-right pass. *)
Fixpoint segment_sessions_from (id : Z) (prev : Timestamp) (col : list Timestamp) : list Z :=
  match col with
  | [] => []
  | t :: col' =>
      let id' := if 1800 <? t - prev then id + 1 else id in
      id' :: segment_sessions_from id' t col'
  end.

Definition segment_sessions (col : list Timestamp) : list Z :=
  match col with
  | [] => []
  | t :: col' => 0 :: segment_sessions_from 0 t col'
  end.

(** Spec: "input must be sorted ascending by endTime before segmentation". *)
Definition chronological (r1 r2 : row) : Prop := endTime r1 ≤ endTime r2.

#[global] Instance chronological_dec : RelDecision chronological.
Proof. intros r1 r2. unfold chronological. apply _. Defined.

Definition sort_by_endTime (df : list row) : list row :=
  merge_sort chronological df.

(** The gaps between consecutive timestamps, given the previous one. *)
Fixpoint gaps (prev : Timestamp) (col : list Timestamp) : list Z :=
  match col with
  | [] => []
  | t :: col' => (t - prev) :: gaps t col'
  end.

(** ** The specification's view of normalization *)

(** A text without its leading zeros. *)
Fixpoint lstrip_zeros (s : string) : string :=
  match s with
  | String c s' => if bool_decide (c = "0"%char) then lstrip_zeros s' else s
  | EmptyString => s
  end.

(** The text of a timestamp "truncated to minute precision": its date (ten
    characters), a space, and its hour and minute (five characters from the
    twelfth on). *)
Definition minute_text (s : string) : string :=
  String.substring 0 10 s +:+ " " +:+ String.substring 11 5 s.

(** ** Example inputs *)

(** A record that carries the discriminating fields of both formats. *)
Definition both_formats_record : gmap string json :=
  <["ts" := JStr "2023-05-01T10:15:00Z"]>
  (<["master_metadata_track_name" := JStr "T"]>
  (<["endTime" := JStr "2023-05-01 10:15"]>
  (<["trackName" := JStr "T"]> ∅))).

(** A play of [n] milliseconds of track [k] by artist [a], ending at
    [y-m-d hh:mm]. *)
Definition play (y m d hh mm : Z) (a k : string) (n : Z) : Event.t :=
  Event.mk (mk_timestamp y m d hh mm 0) (Some a) (Some k) n.

(** Two plays uploaded in reverse chronological order, one hour apart. *)
Definition unsorted_upload : list Event.t :=
  [ play 2023 5 1 11 0 "A" "T1" 200000;
    play 2023 5 1 10 0 "A" "T2" 200000 ].

(** The extended-format record of the normalization scenario, and the
    legacy-format record that supplies the same canonical fields directly. *)
Definition extended_example : gmap string json :=
  <["ts" := JStr "2023-05-01T10:15:00Z"]>
  (<["master_metadata_album_artist_name" := JStr "A"]>
  (<["master_metadata_track_name" := JStr "T"]>
  (<["ms_played" := JInt 120000]> ∅))).

Definition legacy_example : gmap string json :=
  <["endTime" := JStr "2023-05-01 10:15"]>
  (<["artistName" := JStr "A"]>
  (<["trackName" := JStr "T"]>
  (<["msPlayed" := JInt 120000]> ∅))).

(** An extended-format record without the optional fields. *)
Definition bare_extended_example : gmap string json :=
  <["ts" := JStr "2023-05-01T10:15:59Z"]> ∅.

(** A legacy-format batch in which every play has [msPlayed = 0]. *)
Definition silent_batch : list (gmap string json) :=
  [ <["endTime" := JStr "2023-05-01 10:15"]>
    (<["artistName" := JStr "A"]>
    (<["trackName" := JStr "T"]>
    (<["msPlayed" := JInt 0]> ∅)));
    <["endTime" := JStr "2023-05-01 10:20"]>
    (<["artistName" := JStr "B"]>
    (<["trackName" := JStr "U"]>
    (<["msPlayed" := JInt 0]> ∅))) ].

(** Six plays over two days by two artists, one of them of zero duration. *)
Definition six_plays : list Event.t :=
  [ play 2023 5 1 10 15 "A" "T1" 210000;
    play 2023 5 1 10 20 "A" "T2" 90000;
    play 2023 5 1 11 30 "B" "T1" 300000;
    play 2023 6 2 23 10 "B" "T3" 60000;
    play 2023 6 2 23 40 "A" "T1" 0;
    play 2023 6 2 23 40 "A" "T1" 150000 ].

(** Two months with different favourites: artist A leads May with ten
    minutes, artist B leads June with five. *)
Definition two_months : list Event.t :=
  [ play 2023 5 1 10 0 "A" "T1" 600000;
    play 2023 5 2 10 0 "B" "T2" 60000;
    play 2023 6 1 10 0 "B" "T2" 300000;
    play 2023 6 2 10 0 "A" "T1" 60000 ].

(** ** Checking the zero-padded decimals *)

(** [zero_pad 2 n] is two digits that read back as [n]. *)
Definition check_pad2 (n : Z) : bool :=
  match String.list_ascii_of_string (zero_pad 2 n) with
  | [a; b] => bool_decide (num2 a b = Some n)
  | _ => false
  end.

(** [zero_pad 4 n] is four digits that read back as [n]. *)
Definition check_pad4 (n : Z) : bool :=
  match String.list_ascii_of_string (zero_pad 4 n) with
  | [a; b; c; d] => bool_decide (num4 a b c d = Some n)
  | _ => false
  end.

(** [%Y] of a year of one to four digits is its padded decimal without the
    leading zeros, and it is not empty. *)
Definition check_year (n : Z) : bool :=
  bool_decide (lstrip_zeros (zero_pad 4 n) = pretty n ∧ pretty n ≠ "").

(** From the year 1000 on [%Y] writes four digits. *)
Definition check_year4 (n : Z) : bool :=
  bool_decide (zero_pad 4 n = pretty n).

(** [f] holds on the [n] integers from [lo] on. *)
Fixpoint check_from (f : Z → bool) (lo : Z) (n : nat) : bool :=
  match n with
  | O => true
  | S n' => f lo && check_from f (lo + 1) n'
  end.

(** ** Keys with a lawful order *)

(** The comparison of group-by keys is a strict total order. *)
Class LawfulKey (K : Type) `{Key K} := {
  key_cmp_eq : ∀ x y : K, key_cmp x y = Eq → x = y;
  key_cmp_refl : ∀ x : K, key_cmp x x = Eq;
  key_cmp_gt : ∀ x y : K, key_cmp x y = Gt → key_cmp y x = Lt;
  key_cmp_trans : ∀ x y z : K, key_cmp x y = Lt → key_cmp y z = Lt → key_cmp x z = Lt
}.

(** The order of the entries of a series by label. *)
Definition key_lt `{Key K} (a b : K * Q) : Prop := key_cmp a.1 b.1 = Lt.

(** The total of the entries of a series that carry the label [k]. *)
Definition label_total `{EqDecision K} (k : K) (s : list (K * Q)) : Q :=
  Qsum (snd <$> filter (λ kv, kv.1 = k) s).

(** ** Rankings over floats *)

(** Which label [idxmax] reports can depend on how the float sums round.
    The rankings of the metrics block are therefore modelled here over an
    abstract float type [F], with
    - [to_minutes ms] for [ms / 60000] (line 104),
    - [fsum l] for the float sum that [groupby(...).sum()] gives a group
      whose values, in row order, are [l],
    - [flt] for [<] on floats (no sum is [NaN]).
    With [Q] for [F] and exact operations these are the rankings of the KPI
    set above. *)

(** Adding one label to the labels, which are kept sorted. *)
Fixpoint add_label `{Key K} (k : K) (s : list K) : list K :=
  match s with
  | [] => [k]
  | k' :: s' =>
      match key_cmp k k' with
      | Lt => k :: s
      | Eq => s
      | Gt => k' :: add_label k s'
      end
  end.

(** The labels of [df.groupby(keys)]: the distinct keys in ascending order;
    null keys are dropped. *)
Definition group_labels `{Key K} (keys : list (option K)) : list K :=
  fold_left (λ s k, match k with
                    | Some k' => add_label k' s
                    | None => s
                    end) keys [].

(** The order of labels. *)
Definition label_lt `{Key K} (a b : K) : Prop := key_cmp a b = Lt.

Section float_rankings.
Context {F : Type}.
Variable to_minutes : Z → F.
Variable fsum : list F → F.
Variable flt : F → F → bool.

(** [df.groupby(key)['duration_minutes'].sum()] *)
Definition float_groupby_sum `{Key K} `{EqDecision K}
    (key : row → option K) (df : list row) : list (K * F) :=
  (λ k, (k, fsum ((λ r, to_minutes (msPlayed r)) <$> filter (λ r, key r = Some k) df)))
    <$> group_labels (key <$> df).

Fixpoint float_arg_max {K} (best : K * F) (s : list (K * F)) : K * F :=
  match s with
  | [] => best
  | kv :: s' => float_arg_max (if flt best.2 kv.2 then kv else best) s'
  end.

(** [.idxmax()]: the label of the first entry that no entry exceeds. *)
Definition float_idxmax {K} (s : list (K * F)) : result K :=
  match s with
  | [] => Raise ValueError
  | kv :: s' => Ok (float_arg_max kv s').1
  end.

Definition float_by_hour (df : list row) : list (Z * F) :=
  float_groupby_sum (λ r, Some (hour r)) df.
Definition float_by_month (df : list row) : list (Z * F) :=
  float_groupby_sum (λ r, Some (month r)) df.
Definition float_by_artist (df : list row) : list (string * F) :=
  float_groupby_sum artistName df.
Definition float_by_track (df : list row) : list (string * F) :=
  float_groupby_sum trackName df.
Definition float_by_month_artist (df : list row) : list (Z * string * F) :=
  float_groupby_sum (λ r, a ← artistName r; Some (month r, a)) df.
Definition float_by_month_track (df : list row) : list (Z * string * F) :=
  float_groupby_sum (λ r, a ← trackName r; Some (month r, a)) df.

(** Lines 186, 195, 214 and 215. *)
Definition float_most_active_hour (df : list row) : result Z :=
  float_idxmax (float_by_hour df).
Definition float_highest_month (df : list row) : result Z :=
  float_idxmax (float_by_month df).
Definition float_top_artist (df : list row) : result string :=
  float_idxmax (float_by_artist df).
Definition float_top_song (df : list row) : result string :=
  float_idxmax (float_by_track df).

(** Lines 220-221: [.idxmax()[1]], the name in the winning
    [(month, name)] label. *)
Definition float_monthly_top_artist (df : list row) : result string :=
  snd <$> float_idxmax (float_by_month_artist df).
Definition float_monthly_top_song (df : list row) : result string :=
  snd <$> float_idxmax (float_by_month_track df).
End float_rankings.

(** Exact arithmetic, as in the KPI set. *)
Definition exact_minutes (ms : Z) : Q := inject_Z ms / 60000.

(** * Properties *)

(** * Format detection *)

Lemma has_key_true k (d : gmap string json) : has_key k d = true ↔ is_Some (d !! k).
Proof. unfold has_key. apply bool_decide_eq_true. Qed.

(** C6, as stated, fails: a first record that has both [endTime] and
    [trackName] is not classified as the legacy format when it also has [ts]
    and [master_metadata_track_name]. *)
Lemma detect_file_format_both_formats :
  is_Some (both_formats_record !! "endTime")
  ∧ is_Some (both_formats_record !! "trackName")
  ∧ detect_file_format [both_formats_record] = Ok new
  ∧ detect_file_format [both_formats_record] ≠ Ok old.
Proof.
  split; [by eexists|]. split; [by eexists|].
  split; [by vm_compute|]. vm_compute. discriminate.
Qed.

(** C6 (amended): format detection looks at the first record only and tries
    the extended format first.  The result is [new] exactly when the record
    has [ts] and [master_metadata_track_name]; it is [old] exactly when that
    fails and the record has [endTime] and [trackName]; it is [unknown]
    exactly when both fail.  Exactly one of the three is returned. *)
Theorem detect_file_format_priority (first : gmap string json) (rest : list (gmap string json)) :
  let extended := is_Some (first !! "ts") ∧ is_Some (first !! "master_metadata_track_name") in
  let legacy := is_Some (first !! "endTime") ∧ is_Some (first !! "trackName") in
  (detect_file_format (first :: rest) = Ok new ↔ extended)
  ∧ (detect_file_format (first :: rest) = Ok old ↔ ¬ extended ∧ legacy)
  ∧ (detect_file_format (first :: rest) = Ok unknown ↔ ¬ extended ∧ ¬ legacy)
  ∧ (∃ f, detect_file_format (first :: rest) = Ok f
          ∧ ∀ f', detect_file_format (first :: rest) = Ok f' → f' = f)
  ∧ detect_file_format (first :: rest) = detect_file_format [first].
Proof.
  cbn zeta. unfold detect_file_format.
  rewrite <- !has_key_true.
  destruct (has_key "ts" first), (has_key "master_metadata_track_name" first),
    (has_key "endTime" first), (has_key "trackName" first); cbn;
    (repeat split; try (intros; intuition congruence);
     try (eexists; split; [reflexivity | intros; congruence])).
Qed.

(** A legacy record is classified as [old]. *)
Lemma detect_file_format_priority_witness :
  detect_file_format [legacy_example] = Ok old.
Proof.
  destruct (detect_file_format_priority legacy_example []) as (_ & Hold & _).
  apply Hold. split.
  - intros [[v Hv] _]. vm_compute in Hv. discriminate.
  - split; by eexists.
Defined.

(** * Sessions *)

Lemma zip_with_take_r {A B C} (f : A → B → C) (l : list A) (k : list B) :
  zip_with f l (take (length l) k) = zip_with f l k.
Proof.
  revert k. induction l as [|x l IH]; intros [|y k]; cbn; try done.
  by rewrite IH.
Qed.

Lemma diff_seconds_tail (prev : Timestamp) (col : list Timestamp) :
  zip_with (λ (t : Z) (p : option Z), (λ p', t - p') <$> p) col
    (fmap (M:=list) Some (prev :: col))
  = fmap (M:=list) Some (gaps prev col).
Proof.
  revert prev. induction col as [|t col IH]; intros prev; cbn; [done|].
  f_equal. apply IH.
Qed.

Lemma diff_seconds_cons (t : Timestamp) (col : list Timestamp) :
  diff_seconds (t :: col) = None :: fmap (M:=list) Some (gaps t col).
Proof.
  unfold diff_seconds, shift. cbn. f_equal.
  rewrite zip_with_take_r. apply diff_seconds_tail.
Qed.

Lemma diff_seconds_nil : diff_seconds [] = [].
Proof. reflexivity. Qed.

(** C10: the two session computations of the source agree.  The boolean gap
    column of line 208 (where the first, [NaN], gap compares false) has the
    same cumulative sum as the column of line 226 (where the first gap is
    filled with 0), so both group-bys split the frame into the same sessions
    and [session_lengths] is the same series in both blocks. *)
Theorem session_computations_agree :
  (∀ col : list Timestamp, session_bool_cumsum col = session col)
  ∧ (∀ df : list row, session_lengths_first df = session_lengths df)
  ∧ (∀ df : list row,
       Qmax_list (snd <$> session_lengths_first df) = Qmax_list (snd <$> session_lengths df)
       ∧ Qmin_list (snd <$> session_lengths_first df) = Qmin_list (snd <$> session_lengths df)).
Proof.
  assert (H : ∀ col : list Timestamp, session_bool_cumsum col = session col).
  { intros col. unfold session_bool_cumsum, session, session_bool, session_deltas.
    f_equal. rewrite <- list_fmap_compose.
    apply list_fmap_ext. intros _ [d|] _; reflexivity. }
  split; [exact H|].
  assert (H' : ∀ df : list row, session_lengths_first df = session_lengths df).
  { intros df. unfold session_lengths_first, session_lengths. by rewrite H. }
  split; [exact H'|]. intros df. by rewrite H'.
Qed.

Lemma session_deltas_cons (t : Timestamp) (col : list Timestamp) :
  session_deltas (t :: col) = 0 :: gaps t col.
Proof.
  unfold session_deltas. rewrite diff_seconds_cons. cbn. f_equal.
  rewrite <- list_fmap_compose. apply list_fmap_id.
Qed.

Lemma cumsum_gaps_segment (id : Z) (prev : Timestamp) (col : list Timestamp) :
  cumsum_from id ((λ d, 1800 <? d) <$> gaps prev col) = segment_sessions_from id prev col.
Proof.
  revert id prev. induction col as [|t col IH]; intros id prev; cbn; [done|].
  destruct (1800 <? t - prev); cbn; rewrite ?Z.add_0_r; by rewrite IH.
Qed.

Lemma session_segment (col : list Timestamp) : session col = segment_sessions col.
Proof.
  destruct col as [|t col]; [done|].
  unfold session. rewrite session_deltas_cons. cbn.
  f_equal. apply cumsum_gaps_segment.
Qed.

Lemma length_cumsum_from acc l : length (cumsum_from acc l) = length l.
Proof. revert acc. induction l as [|b l IH]; intros acc; cbn; [done|]. by rewrite IH. Qed.

Lemma count_true_cons b l :
  count_true (b :: l) = (if b then 1 else 0) + count_true l.
Proof.
  unfold count_true. rewrite filter_cons.
  destruct b; case_decide; try done; cbn [length]; lia.
Qed.

Lemma count_true_nonneg l : 0 ≤ count_true l.
Proof. unfold count_true. lia. Qed.

(** The running sum at row [i] is the number of [True] rows up to [i]. *)
Lemma cumsum_from_lookup acc l i :
  (i < length l)%nat →
  cumsum_from acc l !! i = Some (acc + count_true (take (S i) l)).
Proof.
  revert acc i. induction l as [|b l IH]; intros acc i Hi; cbn in Hi; [lia|].
  destruct i as [|i].
  - change (take 1 (b :: l)) with [b]. rewrite count_true_cons.
    cbn. f_equal. unfold count_true. cbn. lia.
  - cbn [cumsum_from]. rewrite lookup_cons. rewrite IH by lia.
    change (take (S (S i)) (b :: l)) with (b :: take (S i) l).
    rewrite count_true_cons. f_equal. lia.
Qed.

Lemma count_true_take_mono l i j :
  (i ≤ j)%nat → count_true (take i l) ≤ count_true (take j l).
Proof.
  revert i j. induction l as [|b l IH]; intros i j Hij.
  - rewrite !take_nil. lia.
  - destruct i as [|i]; [cbn; apply count_true_nonneg|].
    destruct j as [|j]; [lia|]. cbn [take]. rewrite !count_true_cons.
    specialize (IH i j). lia.
Qed.

(** Every value between the start and a running sum is itself a running sum
    at an earlier row: the sums go up in steps of one. *)
Lemma cumsum_from_contiguous acc l j b c :
  cumsum_from acc l !! j = Some b → acc < c ≤ b →
  ∃ i, (i ≤ j)%nat ∧ cumsum_from acc l !! i = Some c.
Proof.
  revert acc j. induction l as [|x l IH]; intros acc j Hj Hc; [done|].
  cbn [cumsum_from] in *.
  destruct (decide (c = acc + (if x then 1 else 0))) as [->|Hne].
  { exists 0%nat. split; [lia|done]. }
  destruct j as [|j].
  { cbn in Hj. injection Hj as <-. destruct x; lia. }
  rewrite lookup_cons in Hj.
  destruct (IH _ _ Hj) as (i & Hi & Hlk); [destruct x; lia|].
  exists (S i). split; [lia|]. by rewrite lookup_cons.
Qed.

Lemma segment_from_step id prev col i p t s :
  (prev :: col) !! i = Some p → col !! i = Some t →
  (id :: segment_sessions_from id prev col) !! i = Some s →
  segment_sessions_from id prev col !! i = Some (if bool_decide (1800 < t - p) then s + 1 else s).
Proof.
  revert id prev i. induction col as [|t' col IH]; intros id prev i Hp Ht Hs; [done|].
  destruct i as [|i]; cbn in Hp, Ht, Hs.
  - injection Hp as ->. injection Ht as ->. injection Hs as ->. cbn.
    f_equal. case_bool_decide; destruct (Z.ltb_spec 1800 (t - p)); done || lia.
  - cbn [segment_sessions_from]. rewrite lookup_cons. by apply IH.
Qed.

(** C3: session ids as the source computes them (lines 225-226) are those of
    the specification's single pass: the first event has id 0; each later
    event has the id of its predecessor plus one when its gap to the
    predecessor is more than 1800 seconds, and the predecessor's id
    otherwise (also at exactly 1800 seconds); the ids never decrease, every
    integer from 0 up to an id occurs at that row or before it, and the id of
    a row is the number of gaps above 1800 seconds up to that row. *)
Theorem session_ids_running_count (col : list Timestamp) :
  session col = segment_sessions col
  ∧ length (session col) = length col
  ∧ (col ≠ [] → session col !! 0%nat = Some 0)
  ∧ (∀ i p t s, col !! i = Some p → col !! S i = Some t →
       session col !! i = Some s →
       session col !! S i = Some (if bool_decide (1800 < t - p) then s + 1 else s))
  ∧ (∀ i j a b, (i ≤ j)%nat →
       session col !! i = Some a → session col !! j = Some b → a ≤ b)
  ∧ (∀ j b, session col !! j = Some b →
       ∀ c, 0 ≤ c ≤ b → ∃ i, (i ≤ j)%nat ∧ session col !! i = Some c)
  ∧ (∀ i, (i < length col)%nat →
       session col !! i
       = Some (count_true (take (S i) ((λ d, 1800 <? d) <$> session_deltas col)))).
Proof.
  assert (Hlen : length (session col) = length col).
  { destruct col as [|t col]; [done|].
    unfold session, cumsum. rewrite session_deltas_cons. cbn.
    rewrite length_cumsum_from, length_fmap. f_equal.
    revert t. induction col as [|t' col IH]; intros t; cbn; [done|]. by rewrite IH. }
  assert (Hcount : ∀ i, (i < length col)%nat →
       session col !! i
       = Some (count_true (take (S i) ((λ d, 1800 <? d) <$> session_deltas col)))).
  { intros i Hi. unfold session at 1, cumsum. rewrite cumsum_from_lookup.
    - f_equal.
    - rewrite <- Hlen in Hi. unfold session, cumsum in Hi.
      by rewrite length_cumsum_from in Hi. }
  assert (Hzero : col ≠ [] → session col !! 0%nat = Some 0).
  { intros Hne. rewrite session_segment. by destruct col. }
  split; [apply session_segment|]. split; [exact Hlen|]. split; [exact Hzero|].
  split; [|split; [|split]]; [| | |exact Hcount].
  - intros i p t s Hp Ht. rewrite session_segment.
    destruct col as [|t0 col]; [done|]. cbn [segment_sessions].
    rewrite lookup_cons. cbn in Ht. intros Hs. by eapply segment_from_step.
  - intros i j a b Hij Ha Hb.
    assert (Hj : (j < length col)%nat) by (rewrite <- Hlen; by eapply lookup_lt_Some).
    rewrite Hcount in Ha, Hb by lia. injection Ha as <-. injection Hb as <-.
    apply count_true_take_mono. lia.
  - intros j b Hb c Hc.
    destruct (decide (c = 0)) as [->|Hne].
    + exists 0%nat. split; [lia|]. apply Hzero. intros ->. done.
    + unfold session, cumsum in *. eapply cumsum_from_contiguous; [exact Hb|lia].
Qed.

(** A run of three plays at 10:00, 10:10 and 10:40 (a gap of exactly 1800
    seconds) stays one session; moving the third to 10:41 opens a second. *)
Lemma session_ids_running_count_witness :
  session [36000; 36600; 38400] = [0; 0; 0]
  ∧ session [36000; 36600; 38460] = [0; 0; 1]
  ∧ session [36000; 36600; 38460] !! 2%nat = Some 1.
Proof.
  split; [reflexivity|]. split; [reflexivity|].
  destruct (session_ids_running_count [36000; 36600; 38460])
    as (_ & _ & _ & Hstep & _).
  apply (Hstep 1%nat 36600 38460 0); reflexivity.
Defined.

(** * Upload order *)

Lemma derive_endTime (e : Event.t) : endTime (derive e) = Event.endTime e.
Proof. reflexivity. Qed.

Lemma derive_msPlayed (e : Event.t) : msPlayed (derive e) = Event.msPlayed e.
Proof. reflexivity. Qed.

#[global] Instance chronological_total : Total chronological.
Proof. intros r1 r2. unfold chronological. lia. Qed.

(** C2, as stated, fails: the session column of the pipeline is not the one
    assigned over the chronologically sorted frame.  For two plays uploaded
    in reverse order, one hour apart, the pipeline puts both into session 0,
    while segmentation of the sorted frame puts the later play into
    session 1. *)
Lemma upload_order_not_sorted :
  let df := data_cleaning unsorted_upload in
  session (endTime <$> df) = [0; 0]
  ∧ session (endTime <$> sort_by_endTime df) = [0; 1]
  ∧ ¬ (with_session df ≡ₚ with_session (sort_by_endTime df)).
Proof.
  cbn zeta. split; [by vm_compute|]. split; [by vm_compute|].
  intros Hperm.
  assert (Hin : (derive (play 2023 5 1 11 0 "A" "T1" 200000), 1)
                ∈ with_session (sort_by_endTime (data_cleaning unsorted_upload))).
  { vm_compute. apply list_elem_of_lookup. by exists 1%nat. }
  rewrite <- Hperm in Hin. vm_compute in Hin.
  apply list_elem_of_In in Hin. cbn in Hin.
  destruct Hin as [[=]|[[=]|[]]].
Qed.

(** C2 (amended): the pipeline does not sort.  Data cleaning keeps the rows
    in upload order, and the session ids are assigned over that order.  They
    are the ids of the chronologically sorted frame whenever the upload order
    is already ascending by [endTime]. *)
Theorem session_over_upload_order (df : list Event.t) :
  endTime <$> data_cleaning df
    = Event.endTime <$> filter (λ e, 0 < Event.msPlayed e) df
  ∧ (Sorted chronological (data_cleaning df) →
     session (endTime <$> sort_by_endTime (data_cleaning df))
       = session (endTime <$> data_cleaning df)).
Proof.
  split.
  - unfold data_cleaning. rewrite <- list_fmap_compose. reflexivity.
  - intros Hsorted. f_equal.
    apply (Sorted_unique Z.le).
    + apply (Sorted_fmap _ chronological); [done|].
      apply Sorted_merge_sort, _.
    + by apply (Sorted_fmap _ chronological).
    + apply fmap_Permutation, merge_sort_Permutation.
Qed.

Lemma session_over_upload_order_witness :
  session (endTime <$> sort_by_endTime (data_cleaning (reverse unsorted_upload)))
    = session (endTime <$> data_cleaning (reverse unsorted_upload)).
Proof.
  apply (session_over_upload_order (reverse unsorted_upload)).
  vm_compute. repeat constructor; vm_compute; discriminate.
Defined.

(** * Conversion of the extended format *)

Lemma convert_record_ok (record : gmap string json) (s : string) (t : Timestamp) :
  record !! "ts" = Some (JStr s) → to_datetime s = Ok t →
  ∃ d, convert_record record = Ok d
       ∧ d !! "endTime" = Some (JStr (strftime t))
       ∧ d !! "artistName" = Some (default JNull (record !! "master_metadata_album_artist_name"))
       ∧ d !! "trackName" = Some (default JNull (record !! "master_metadata_track_name"))
       ∧ d !! "msPlayed" = Some (default (JInt 0) (record !! "ms_played"))
       ∧ dom d = {["endTime"; "artistName"; "trackName"; "msPlayed"]}.
Proof.
  intros Hts Ht. unfold convert_record, getitem. rewrite Hts. cbn. rewrite Ht. cbn.
  eexists. split; [reflexivity|]. unfold get.
  split; [by simplify_map_eq|]. split; [by simplify_map_eq|].
  split; [by simplify_map_eq|]. split; [by simplify_map_eq|].
  rewrite !dom_insert_L, dom_empty_L. set_solver.
Qed.

(** * Data cleaning and the empty frame *)

Lemma groupby_sum_nil `{Key K} (vals : list Q) : groupby_sum (K:=K) [] vals = [].
Proof. reflexivity. Qed.

Lemma kpi_calculations_nil : kpi_calculations [] = Raise ValueError.
Proof. reflexivity. Qed.

(** C1, as stated, fails: there is no error that is raised when, and only
    when, no play is left after data cleaning.  The batch of one play with
    [msPlayed = 0] and the batch of one play of two minutes without an
    artist name make the run raise the same [ValueError]. *)
Lemma no_dedicated_no_data_error :
  let silent := [Event.mk (mk_timestamp 2023 5 1 10 15 0) (Some "A") (Some "T") 0] in
  let nameless := [Event.mk (mk_timestamp 2023 5 1 10 15 0) None (Some "T") 120000] in
  filter (λ e, 0 < Event.msPlayed e) silent = []
  ∧ filter (λ e, 0 < Event.msPlayed e) nameless ≠ []
  ∧ pipeline silent = Raise ValueError
  ∧ pipeline nameless = Raise ValueError
  ∧ ¬ ∃ no_data : exn,
        ∀ df, filter (λ e, 0 < Event.msPlayed e) df = [] ↔ pipeline df = Raise no_data.
Proof.
  cbn zeta.
  assert (H1 : pipeline [Event.mk (mk_timestamp 2023 5 1 10 15 0) (Some "A") (Some "T") 0]
               = Raise ValueError) by reflexivity.
  assert (H2 : pipeline [Event.mk (mk_timestamp 2023 5 1 10 15 0) None (Some "T") 120000]
               = Raise ValueError) by (vm_compute; reflexivity).
  split; [reflexivity|]. split; [by vm_compute|]. split; [exact H1|]. split; [exact H2|].
  intros (no_data & H).
  assert (E : no_data = ValueError).
  { destruct (H [Event.mk (mk_timestamp 2023 5 1 10 15 0) (Some "A") (Some "T") 0]) as [Hs _].
    specialize (Hs eq_refl). rewrite H1 in Hs. by injection Hs as <-. }
  subst no_data.
  destruct (H [Event.mk (mk_timestamp 2023 5 1 10 15 0) None (Some "T") 120000]) as [_ Hn].
  specialize (Hn H2). vm_compute in Hn. discriminate Hn.
Qed.

(** C1 (amended): when no play of positive duration is left after data
    cleaning, the run fails: the first [idxmax] of "KPI Calculations" (line
    111) is taken over an empty series and raises [ValueError], which
    nothing catches.  No KPI set and no context document is produced. *)
Theorem empty_frame_aborts (df : list Event.t) :
  filter (λ e, 0 < Event.msPlayed e) df = [] →
  data_cleaning df = []
  ∧ kpi_calculations (data_cleaning df) = Raise ValueError
  ∧ pipeline df = Raise ValueError
  ∧ ∀ out, pipeline df ≠ Ok out.
Proof.
  intros Hempty.
  assert (Hclean : data_cleaning df = []) by (unfold data_cleaning; by rewrite Hempty).
  split; [exact Hclean|]. unfold pipeline. rewrite Hclean.
  split; [reflexivity|]. split; [reflexivity|]. intros out. discriminate.
Qed.

(** The batch in which every play has [msPlayed = 0] loads and is typed, and
    the run over it fails. *)
Lemma empty_frame_aborts_witness :
  ∃ df, (typed_frame <$> load [silent_batch]) = Ok (Some df)
        ∧ Forall (λ e, Event.msPlayed e = 0) df
        ∧ pipeline df = Raise ValueError.
Proof.
  eexists. split; [by vm_compute|]. split.
  - repeat constructor.
  - eapply empty_frame_aborts. reflexivity.
Defined.

(** C8: plays with [msPlayed <= 0] are dropped before the derived columns
    are computed.  Every row of the cleaned frame has [msPlayed > 0]; no play
    with [msPlayed <= 0] has a row in it; and both KPI blocks and the context
    are computed from the cleaned frame alone, so that two uploads with the
    same plays of positive duration give the same run. *)
Theorem zero_duration_exclusion (df : list Event.t) :
  Forall (λ r, 0 < msPlayed r) (data_cleaning df)
  ∧ (∀ e, e ∈ df → Event.msPlayed e ≤ 0 → derive e ∉ data_cleaning df)
  ∧ data_cleaning df = data_cleaning (filter (λ e, 0 < Event.msPlayed e) df)
  ∧ (∀ df', filter (λ e, 0 < Event.msPlayed e) df' = filter (λ e, 0 < Event.msPlayed e) df →
       kpi_calculations (data_cleaning df') = kpi_calculations (data_cleaning df)
       ∧ calculate_metrics (data_cleaning df') = calculate_metrics (data_cleaning df)
       ∧ pipeline df' = pipeline df).
Proof.
  assert (Hpos : Forall (λ r, 0 < msPlayed r) (data_cleaning df)).
  { unfold data_cleaning. apply Forall_fmap, Forall_forall.
    intros e [He _]%list_elem_of_filter. exact He. }
  split; [exact Hpos|]. split; [|split].
  - intros e _ Hle Hin. rewrite Forall_forall in Hpos.
    specialize (Hpos _ Hin). rewrite derive_msPlayed in Hpos. lia.
  - unfold data_cleaning. f_equal. symmetry. apply list_filter_filter_l.
    tauto.
  - intros df' Heq.
    assert (Hclean : data_cleaning df' = data_cleaning df)
      by (unfold data_cleaning; by rewrite Heq).
    unfold pipeline. by rewrite Hclean.
Qed.

(** Removing the zero-duration play from the six plays changes no KPI. *)
Lemma zero_duration_exclusion_witness :
  pipeline (filter (λ e, 0 < Event.msPlayed e) six_plays) = pipeline six_plays
  ∧ length (data_cleaning six_plays) = 5%nat.
Proof.
  split; [|reflexivity].
  destruct (zero_duration_exclusion six_plays) as (_ & _ & _ & H).
  apply H. apply list_filter_filter_l. tauto.
Defined.

(** * The KPI block *)

Ltac inv_bind H :=
  repeat match type of H with
  | context [mbind _ ?m] =>
      let E := fresh "E" in
      destruct m eqn:E; cbn [mbind result_bind fmap result_fmap] in H;
      [|discriminate H]
  end.

(** What a successful run of "Calculate Metrics" says about the fields used
    below. *)
Lemma calculate_metrics_inv (df : list row) (k : KPISet) :
  calculate_metrics df = Ok k →
  percentage (Z.of_nat (length (filter (λ r, is_fully_played r = true) df)))
             (Z.of_nat (length df)) = Ok (fully_played_percentage k)
  ∧ fully_played k = Z.of_nat (length (filter (λ r, is_fully_played r = true) df))
  ∧ partially_played k = Z.of_nat (length (filter (λ r, is_fully_played r = false) df))
  ∧ snd <$> idxmax (by_month_artist df) = Ok (monthly_top_artist k)
  ∧ snd <$> idxmax (by_month_track df) = Ok (monthly_top_song k)
  ∧ idxmax (by_artist df) = Ok (top_artist k).
Proof.
  unfold calculate_metrics. intros H. inv_bind H.
  injection H as <-. cbn [fully_played_percentage fully_played partially_played
    monthly_top_artist monthly_top_song top_artist].
  repeat split; assumption.
Qed.

Lemma fully_partially_partition (df : list row) :
  (length (filter (λ r, is_fully_played r = true) df)
   + length (filter (λ r, is_fully_played r = false) df) = length df)%nat.
Proof.
  induction df as [|r df IH]; [done|].
  rewrite !filter_cons. destruct (is_fully_played r); repeat case_decide; try done;
    cbn [length]; lia.
Qed.

Lemma is_fully_played_threshold (r : row) :
  is_fully_played r = true ↔ ((8 # 10) * 180000 <= inject_Z (msPlayed r))%Q.
Proof.
  unfold is_fully_played. rewrite Z.leb_le.
  unfold Qle. cbn. lia.
Qed.

(** C9: on a non-empty frame the fully-played percentage is defined; it is
    the share of rows with [msPlayed >= 0.8 * 180000], the percentage quoted
    for partially played songs, [100 - fully_played_percentage], is the share
    of the remaining rows, and the two sum to 100.  Both are quoted in the
    context with two decimals. *)
Theorem playtime_distribution_sums_to_100 (df : list row) :
  df ≠ [] →
  let n := Z.of_nat (length df) in
  let full := Z.of_nat (length (filter (λ r, is_fully_played r = true) df)) in
  let part := Z.of_nat (length (filter (λ r, is_fully_played r = false) df)) in
  ∃ p, percentage full n = Ok p
    ∧ (p + (100 - p) == 100)%Q
    ∧ (p == inject_Z full / inject_Z n * 100)%Q
    ∧ (100 - p == inject_Z part / inject_Z n * 100)%Q
    ∧ full + part = n
    ∧ (∀ r, is_fully_played r = true ↔ ((8 # 10) * 180000 <= inject_Z (msPlayed r))%Q)
    ∧ (∀ k, calculate_metrics df = Ok k →
         fully_played_percentage k = p
         ∧ render_slot k (F2 Name.fully_played_percentage) = format_2f (Some p)
         ∧ render_slot k (F2_100_minus Name.fully_played_percentage)
           = format_2f (Some (100 - p)%Q))
    ∧ Slot (F2 Name.fully_played_percentage) ∈ context_template
    ∧ Slot (F2_100_minus Name.fully_played_percentage) ∈ context_template.
Proof.
  intros Hne n full part.
  assert (Hn : n ≠ 0) by (subst n; destruct df; [done|cbn; lia]).
  assert (Hsum : full + part = n)
    by (subst n full part; pose proof (fully_partially_partition df); lia).
  exists (inject_Z full / inject_Z n * 100)%Q.
  assert (HnQ : ¬ (inject_Z n == 0)%Q).
  { unfold Qeq. cbn. lia. }
  split; [|split; [|split; [|split; [|split; [|split; [|split; [|split]]]]]]].
  - unfold percentage. destruct (Z.eqb_spec n 0); [done|reflexivity].
  - ring.
  - reflexivity.
  - replace part with (n - full) by lia.
    unfold Z.sub. rewrite inject_Z_plus, inject_Z_opp. field. exact HnQ.
  - exact Hsum.
  - apply is_fully_played_threshold.
  - intros k Hk. apply calculate_metrics_inv in Hk as (Hp & _).
    fold full n in Hp. unfold percentage in Hp.
    destruct (Z.eqb_spec n 0); [done|]. injection Hp as Hp.
    unfold render_slot, get_float. rewrite <- Hp. done.
  - apply list_elem_of_In. vm_compute. tauto.
  - apply list_elem_of_In. vm_compute. tauto.
Qed.

(** Five rows, three of them fully played: 60% and 40%. *)
Lemma playtime_distribution_sums_to_100_witness :
  ∃ p, percentage 3 5 = Ok p ∧ (p + (100 - p) == 100)%Q ∧ (p == 60)%Q.
Proof.
  destruct (playtime_distribution_sums_to_100 (data_cleaning six_plays))
    as (p & Hp & Hsum & Hfull & _).
  { discriminate. }
  exists p. split; [exact Hp|]. split; [exact Hsum|].
  rewrite Hfull. reflexivity.
Defined.

(** * Rankings by month *)

Lemma Qltb_lt (x y : Q) : Qltb x y = true ↔ (x < y)%Q.
Proof.
  unfold Qltb. rewrite negb_true_iff, <- not_true_iff_false, Qle_bool_iff.
  split; [apply Qnot_le_lt | apply Qlt_not_le].
Qed.

Lemma Qltb_ge (x y : Q) : Qltb x y = false ↔ (y <= x)%Q.
Proof.
  unfold Qltb. rewrite negb_false_iff. apply Qle_bool_iff.
Qed.

(** The labels of a group-by are keys of rows. *)
Lemma add_group_keys `{Key K} (k : K) (v : Q) (s : list (K * Q)) (k' : K) (v' : Q) :
  (k', v') ∈ add_group k v s → k' = k ∨ ∃ w, (k', w) ∈ s.
Proof.
  induction s as [|[k0 v0] s IH]; cbn.
  { intros [[= -> ->]|Hin]%elem_of_cons; [by left|]. by apply elem_of_nil in Hin. }
  destruct (key_cmp k k0).
  - intros [[= -> ->]|Hin]%elem_of_cons; right; eexists.
    + apply elem_of_cons. by left.
    + apply elem_of_cons. right. exact Hin.
  - intros [[= -> ->]|Hin]%elem_of_cons; [by left|]. right. by eexists.
  - intros [[= -> ->]|Hin]%elem_of_cons.
    + right. eexists. apply elem_of_cons. by left.
    + destruct (IH Hin) as [->|[w Hw]]; [by left|].
      right. exists w. apply elem_of_cons. by right.
Qed.

Lemma groupby_sum_keys `{Key K} (keys : list (option K)) (vals : list Q) (k : K) (v : Q) :
  (k, v) ∈ groupby_sum keys vals → Some k ∈ keys.
Proof.
  unfold groupby_sum.
  assert (Hgen : ∀ rows s,
    (k, v) ∈ fold_left (λ s kv, match kv.1 with
                                | Some k => add_group k kv.2 s
                                | None => s
                                end) rows s →
    (∃ w, (k, w) ∈ s) ∨ Some k ∈ rows.*1).
  { induction rows as [|[[k0|] v0] rows IH]; intros s Hin; cbn in Hin.
    - left. by eexists.
    - destruct (IH _ Hin) as [[w Hw]|Hr].
      + apply add_group_keys in Hw as [->|Hw]; [|by left].
        right. cbn. apply elem_of_cons. by left.
      + right. cbn. apply elem_of_cons. by right.
    - destruct (IH _ Hin) as [Hs|Hr]; [by left|].
      right. cbn. apply elem_of_cons. by right. }
  intros Hin. destruct (Hgen _ _ Hin) as [[w Hw]|Hr].
  - by apply elem_of_nil in Hw.
  - clear -Hr. revert vals Hr.
    induction keys as [|x keys IH]; intros [|y vals] Hr; cbn in Hr;
      try by apply elem_of_nil in Hr.
    apply elem_of_cons in Hr as [->|Hr]; apply elem_of_cons; [by left|].
    right. by eapply IH.
Qed.

(** C4, as stated, fails: the monthly top artist and top track are one value
    each, not one per month.  With artist A leading May and artist B leading
    June, the KPI is A (and track T1), although June is present in the data
    and the artist with the largest summed duration within June is B (and
    the track T2). *)
Lemma monthly_top_not_per_month :
  let df := data_cleaning two_months in
  ∃ k, calculate_metrics df = Ok k
    ∧ monthly_top_artist k = "A" ∧ monthly_top_song k = "T1"
    ∧ 6 ∈ month <$> df
    ∧ idxmax (by_artist (filter (λ r, month r = 6) df)) = Ok "B"
    ∧ idxmax (by_track (filter (λ r, month r = 6) df)) = Ok "T2"
    ∧ idxmax (by_artist (filter (λ r, month r = 6) df)) ≠ Ok (monthly_top_artist k).
Proof.
  cbn zeta. eexists. split; [vm_compute; reflexivity|]. cbn [monthly_top_artist monthly_top_song].
  split; [reflexivity|]. split; [reflexivity|].
  split; [apply list_elem_of_lookup; by exists 2%nat|].
  split; [by vm_compute|]. split; [by vm_compute|].
  vm_compute. discriminate.
Qed.

(** * The context document *)

Lemma append_assoc (a b c : string) : (a +:+ b) +:+ c = a +:+ (b +:+ c).
Proof.
  induction a as [|x a IH]; [done|].
  change (String x ((a +:+ b) +:+ c) = String x (a +:+ (b +:+ c))).
  by rewrite IH.
Qed.

(** Every segment of a template is rendered into the text. *)
Lemma render_occurs (k : KPISet) (tpl : list segment) (seg : segment) :
  seg ∈ tpl →
  ∃ pre post, foldr (λ s acc, render k s +:+ acc) "" tpl = pre +:+ render k seg +:+ post.
Proof.
  induction tpl as [|x tpl IH]; [by intros ?%elem_of_nil|].
  intros [->|Hin]%elem_of_cons; cbn.
  - by exists "", (foldr (λ s acc, render k s +:+ acc) "" tpl).
  - destruct (IH Hin) as (pre & post & ->).
    exists (render k x +:+ pre), post. by rewrite append_assoc.
Qed.

Lemma slots_elem_of (tpl : list segment) (s : slot) : s ∈ slots tpl → Slot s ∈ tpl.
Proof.
  unfold slots. intros (seg & Hin & Hs)%list_elem_of_omap.
  destruct seg; [done|]. by injection Hs as ->.
Qed.

(** C5, as stated, fails: not every KPI is quoted exactly once.  The
    template quotes [top_artist] in two slots and never quotes
    [avg_listens_per_hour]. *)
Lemma context_template_not_once_each :
  occurrences (Name.Str Name.top_artist) context_template = 2%nat
  ∧ occurrences (Name.Float Name.avg_listens_per_hour) context_template = 0%nat
  ∧ ¬ (∀ n, occurrences n context_template = 1%nat).
Proof.
  split; [reflexivity|]. split; [reflexivity|].
  intros H. specialize (H (Name.Str Name.top_artist)). vm_compute in H. discriminate.
Qed.

(** C5 (amended): the context is one fixed template of 28 slots, all of them
    filled for every KPI set, with no conditional omission (an undefined
    average is printed as [nan]).  Of the thirty scalars of "Calculate
    Metrics", [top_artist] is quoted twice, [fully_played_percentage] three
    times (twice as it is and once as [100 - fully_played_percentage]),
    [avg_listens_per_hour], [fully_played], [partially_played],
    [most_active_month] and [most_active_month_total] are not quoted, and
    every other one is quoted exactly once. *)
Theorem context_template_slots :
  length (slots context_template) = 28%nat
  ∧ occurrences (Name.Str Name.top_artist) context_template = 2%nat
  ∧ occurrences (Name.Float Name.fully_played_percentage) context_template = 3%nat
  ∧ Forall (λ n, occurrences n context_template = 0%nat)
      [Name.Float Name.avg_listens_per_hour; Name.Int Name.fully_played;
       Name.Int Name.partially_played; Name.Int Name.most_active_month;
       Name.Float Name.most_active_month_total]
  ∧ (∀ n, n ∉ [Name.Str Name.top_artist; Name.Float Name.fully_played_percentage;
               Name.Float Name.avg_listens_per_hour; Name.Int Name.fully_played;
               Name.Int Name.partially_played; Name.Int Name.most_active_month;
               Name.Float Name.most_active_month_total] →
          occurrences n context_template = 1%nat)
  ∧ (∀ k s, s ∈ slots context_template →
       ∃ pre post, context k = pre +:+ render_slot k s +:+ post)
  ∧ format_2f None = "nan".
Proof.
  split; [reflexivity|]. split; [reflexivity|]. split; [reflexivity|].
  split; [repeat constructor|]. split; [|split; [|reflexivity]].
  - intros n Hn.
    destruct n as [[]|[]|[]|[]]; try reflexivity;
      exfalso; apply Hn; apply list_elem_of_In; cbn; tauto.
  - intros k s Hs. apply slots_elem_of in Hs.
    apply (render_occurs k _ (Slot s) Hs).
Qed.

(** The date at which the data starts is one of the names quoted once, and
    it is printed in the context of the six plays. *)
Lemma context_template_slots_witness :
  occurrences (Name.Date Name.date_range_start) context_template = 1%nat
  ∧ ∃ k pre post, calculate_metrics (data_cleaning six_plays) = Ok k
      ∧ context k = pre +:+ "2023-05-01" +:+ post.
Proof.
  destruct context_template_slots as (_ & _ & _ & _ & Honce & Hall & _).
  split.
  - apply Honce. intros Hin. apply list_elem_of_In in Hin. cbn in Hin.
    intuition discriminate.
  - destruct (calculate_metrics (data_cleaning six_plays)) as [k|] eqn:Hk;
      [|vm_compute in Hk; discriminate].
    destruct (Hall k (PDate Name.date_range_start)) as (pre & post & Hctx).
    { apply list_elem_of_lookup. by exists 0%nat. }
    exists k, pre, post. split; [done|]. rewrite Hctx. do 2 f_equal.
    vm_compute in Hk. injection Hk as <-. reflexivity.
Defined.

(** * Shared facts about the session column *)

Lemma session_length (col : list Timestamp) : length (session col) = length col.
Proof.
  destruct col as [|t col]; [done|].
  unfold session, cumsum. rewrite session_deltas_cons. cbn.
  rewrite length_cumsum_from, length_fmap. f_equal.
  revert t. induction col as [|t' col IH]; intros t; cbn; [done|]. by rewrite IH.
Qed.

Lemma session_lookup_count (col : list Timestamp) (i : nat) :
  (i < length col)%nat →
  session col !! i
  = Some (count_true (take (S i) ((λ d, 1800 <? d) <$> session_deltas col))).
Proof.
  intros Hi. unfold session at 1, cumsum. rewrite cumsum_from_lookup; [f_equal|].
  rewrite <- (session_length col) in Hi. unfold session, cumsum in Hi.
  by rewrite length_cumsum_from in Hi.
Qed.

Lemma session_first (col : list Timestamp) : col ≠ [] → session col !! 0%nat = Some 0.
Proof. intros Hne. rewrite session_segment. by destruct col. Qed.

Lemma session_mono (col : list Timestamp) (i j : nat) (a b : Z) :
  (i ≤ j)%nat → session col !! i = Some a → session col !! j = Some b → a ≤ b.
Proof.
  intros Hij Ha Hb.
  assert (Hj : (j < length col)%nat)
    by (rewrite <- (session_length col); by eapply lookup_lt_Some).
  rewrite session_lookup_count in Ha, Hb by lia. injection Ha as <-. injection Hb as <-.
  apply count_true_take_mono. lia.
Qed.

Lemma session_contiguous (col : list Timestamp) (j : nat) (b c : Z) :
  session col !! j = Some b → 0 ≤ c ≤ b →
  ∃ i, (i ≤ j)%nat ∧ session col !! i = Some c.
Proof.
  intros Hb Hc. destruct (decide (c = 0)) as [->|Hne].
  - exists 0%nat. split; [lia|]. apply session_first. intros ->. done.
  - unfold session, cumsum in *. eapply cumsum_from_contiguous; [exact Hb|lia].
Qed.

Lemma session_lengths_first_eq (df : list row) :
  session_lengths_first df = session_lengths df.
Proof.
  unfold session_lengths_first, session_lengths, session_bool_cumsum, session,
    session_bool, session_deltas.
  do 3 f_equal. rewrite <- list_fmap_compose.
  apply list_fmap_ext. intros _ [d|] _; reflexivity.
Qed.

(** * The upload loop *)

Lemma convert_files_app_unknown (u : list (gmap string json))
    (pre post : list (list (gmap string json))) :
  detect_file_format u = Ok unknown →
  convert_files (pre ++ u :: post) = convert_files (pre ++ post).
Proof.
  intros Hu. induction pre as [|f pre IH]; cbn.
  - by rewrite Hu.
  - destruct (detect_file_format f) as [[]|]; cbn; try done; by rewrite IH.
Qed.

(** A file of unknown format is skipped: when other files are uploaded with
    it, the frame that is loaded, or the exception that is raised, is the
    one of the upload without that file. *)
Theorem load_skips_unknown (u : list (gmap string json))
    (pre post : list (list (gmap string json))) :
  (pre ++ post)%list ≠ [] →
  detect_file_format u = Ok unknown →
  load (pre ++ u :: post) = load (pre ++ post)
  ∧ on_upload (pre ++ u :: post) = on_upload (pre ++ post).
Proof.
  intros Hne Hu.
  assert (E : load (pre ++ u :: post) = load (pre ++ post)).
  { unfold load. by rewrite (convert_files_app_unknown u pre post Hu). }
  split; [exact E|]. unfold on_upload. rewrite E.
  destruct (pre ++ post)%list eqn:E1; [done|]. by destruct pre.
Qed.

Lemma load_skips_unknown_witness :
  load [[legacy_example]; [(∅ : gmap string json)]] = load [[legacy_example]].
Proof.
  apply (load_skips_unknown [∅] [[legacy_example]] []); [discriminate|reflexivity].
Defined.

(** When every uploaded file is of unknown format nothing is assigned to
    [df], and line 100 raises [NameError]. *)
Theorem load_all_unknown (uploaded_files : list (list (gmap string json))) :
  uploaded_files ≠ [] →
  Forall (λ f, detect_file_format f = Ok unknown) uploaded_files →
  load uploaded_files = Raise NameError.
Proof.
  intros _ Hall. unfold load.
  assert (H : convert_files uploaded_files = Ok []).
  { induction Hall as [|f files Hf _ IH]; cbn; [done|]. by rewrite Hf. }
  by rewrite H.
Qed.

Lemma load_all_unknown_witness :
  load [[(∅ : gmap string json)]; [<["title" := JStr "x"]> ∅]] = Raise NameError.
Proof.
  apply load_all_unknown; [done|]. repeat constructor.
Defined.

(** An upload of legacy files only is loaded as it is: the frame is the
    concatenation of the files in upload order, with no record changed,
    dropped, reordered or deduplicated. *)
Theorem load_legacy_files (uploaded_files : list (list (gmap string json))) :
  uploaded_files ≠ [] →
  Forall (λ f, detect_file_format f = Ok old) uploaded_files →
  load uploaded_files = Ok (concat uploaded_files).
Proof.
  intros Hne Hall. unfold load.
  assert (H : convert_files uploaded_files = Ok uploaded_files).
  { clear Hne. induction Hall as [|f files Hf _ IH]; cbn; [done|].
    rewrite Hf. cbn. by rewrite IH. }
  rewrite H. cbn. by destruct uploaded_files.
Qed.

Lemma load_legacy_files_witness :
  load [silent_batch; [legacy_example]] = Ok (concat [silent_batch; [legacy_example]]).
Proof.
  apply load_legacy_files; [done|]. repeat constructor.
Defined.

(** An empty file anywhere in the upload makes the load fail: [data[0]]
    raises on it, or an earlier file has raised already.  When it is the
    first file, the exception is [IndexError]. *)
Theorem load_empty_file (uploaded_files : list (list (gmap string json))) :
  [] ∈ uploaded_files →
  (∀ df, load uploaded_files ≠ Ok df)
  ∧ (head uploaded_files = Some [] → load uploaded_files = Raise IndexError).
Proof.
  intros Hin.
  assert (H : ∀ c, convert_files uploaded_files ≠ Ok c).
  { induction uploaded_files as [|f files IH]; [by apply elem_of_nil in Hin|].
    apply elem_of_cons in Hin as [<-|Hin]; [done|].
    specialize (IH Hin). intros c. cbn.
    destruct (detect_file_format f) as [[]|]; cbn; try done.
    - destruct (convert_new_format_to_old_format f) as [cf|]; cbn; [|done].
      destruct (convert_files files) as [cs|]; cbn; [by destruct (IH cs)|done].
    - destruct (convert_files files) as [cs|]; cbn; [by destruct (IH cs)|done]. }
  split.
  - intros df. unfold load. destruct (convert_files uploaded_files) as [c|] eqn:Hc; [|done].
    by destruct (H c).
  - destruct uploaded_files as [|f files]; [done|]. by intros [= ->].
Qed.

Lemma load_empty_file_witness :
  load [[legacy_example]; []] = Raise IndexError
  ∧ ∀ df, load [[legacy_example]; []] ≠ Ok df.
Proof.
  split; [reflexivity|].
  apply (load_empty_file [[legacy_example]; []]).
  apply elem_of_cons. right. apply elem_of_cons. by left.
Defined.

(** * Conversion: missing [ts], and the format of the result *)

(** A record without [ts] makes the conversion of the whole batch raise
    [KeyError], when the records before it are converted. *)
Theorem convert_missing_ts (pre post : list (gmap string json)) (r : gmap string json) :
  Forall (λ r, ∃ s t, r !! "ts" = Some (JStr s) ∧ to_datetime s = Ok t) pre →
  r !! "ts" = None →
  convert_new_format_to_old_format (pre ++ r :: post) = Raise KeyError.
Proof.
  intros Hpre Hr. unfold convert_new_format_to_old_format.
  induction Hpre as [|x pre (s & t & Hs & Ht) _ IH]; cbn.
  - unfold convert_record, getitem. by rewrite Hr.
  - destruct (convert_record_ok x s t Hs Ht) as (d & -> & _). cbn. by rewrite IH.
Qed.

(** A batch whose first record is of the extended format and whose second
    is a legacy record is detected as extended and fails in conversion. *)
Lemma convert_missing_ts_witness :
  detect_file_format [extended_example; legacy_example] = Ok new
  ∧ convert_new_format_to_old_format [extended_example; legacy_example] = Raise KeyError.
Proof.
  split; [reflexivity|].
  apply (convert_missing_ts [extended_example] [] legacy_example); [|reflexivity].
  constructor; [|constructor].
  exists "2023-05-01T10:15:00Z", (mk_timestamp 2023 5 1 10 15 0). by vm_compute.
Defined.

Lemma convert_record_keys (r d : gmap string json) :
  convert_record r = Ok d →
  dom d = {["endTime"; "artistName"; "trackName"; "msPlayed"]}.
Proof.
  unfold convert_record. destruct (getitem r "ts") as [ts|]; cbn; [|done].
  destruct (to_datetime_cell ts) as [t|]; cbn; [|done]. intros [= <-].
  rewrite !dom_insert_L, dom_empty_L. set_solver.
Qed.

Lemma for_each_length {A B} (f : A → result B) (l : list A) (out : list B) :
  for_each f l = Ok out → length out = length l.
Proof.
  revert out. induction l as [|x l IH]; intros out; cbn; [by intros [= <-]|].
  destruct (f x); cbn; [|done]. destruct (for_each f l); cbn; [|done].
  intros [= <-]. cbn. f_equal. by apply IH.
Qed.

Lemma for_each_Forall2 {A B} (f : A → result B) (l : list A) (out : list B) :
  for_each f l = Ok out → Forall2 (λ x y, f x = Ok y) l out.
Proof.
  revert out. induction l as [|x l IH]; intros out; cbn; [intros [= <-]; constructor|].
  destruct (f x) eqn:Hx; cbn; [|done]. destruct (for_each f l); cbn; [|done].
  intros [= <-]. constructor; [done|]. by apply IH.
Qed.

(** What the conversion returns has one record per input record, each with
    exactly the four legacy keys. *)
Theorem converted_is_legacy (new_data out : list (gmap string json)) :
  convert_new_format_to_old_format new_data = Ok out →
  length out = length new_data
  ∧ Forall (λ d, dom d = {["endTime"; "artistName"; "trackName"; "msPlayed"]}) out.
Proof.
  intros Hout. unfold convert_new_format_to_old_format in Hout.
  split; [by eapply for_each_length|].
  apply for_each_Forall2 in Hout.
  induction Hout as [|r d l out' Hr _ IH]; constructor; [|done].
  by eapply convert_record_keys.
Qed.

Lemma converted_is_legacy_witness :
  length [legacy_example] = 1%nat
  ∧ Forall (λ d, dom d = {["endTime"; "artistName"; "trackName"; "msPlayed"]}) [legacy_example].
Proof.
  apply (converted_is_legacy [extended_example] [legacy_example]). reflexivity.
Defined.

(** * The calendar, the converted [endTime], and reading it back *)

Lemma yoe_range (doe : Z) :
  0 ≤ doe ≤ 146096 →
  let yoe := (doe - doe / 1460 + doe / 36524 - doe / 146096) / 365 in
  let doy := doe - (365 * yoe + yoe / 4 - yoe / 100) in
  0 ≤ yoe ≤ 399 ∧ 0 ≤ doy ≤ 365
  ∧ (doy = 365 → (yoe + 1) mod 4 = 0 ∧ ((yoe + 1) mod 100 ≠ 0 ∨ yoe = 399))
  ∧ (doe ≤ 146036 → yoe = 399 → doy ≤ 305).
Proof.
  intros H. cbn zeta. Z.div_mod_to_equations. lia.
Qed.

Lemma month_day_range (doy : Z) :
  0 ≤ doy ≤ 365 →
  let mp := (5 * doy + 2) / 153 in
  let d := doy - (153 * mp + 2) / 5 + 1 in
  0 ≤ mp ≤ 11 ∧ 1 ≤ d ≤ 31
  ∧ (mp = 1 ∨ mp = 3 ∨ mp = 6 ∨ mp = 8 → d ≤ 30)
  ∧ (mp = 11 → d ≤ 29 ∧ (d = 29 → doy = 365))
  ∧ (doy ≤ 305 → mp ≤ 9).
Proof.
  intros H. cbn zeta. Z.div_mod_to_equations. lia.
Qed.

(** The civil date of a day number is a date of the calendar, and the day
    number of that date is the original one. *)
Lemma civil_from_days_spec (z : Z) :
  ∃ y m d, civil_from_days z = (y, m, d)
    ∧ days_from_civil y m d = z
    ∧ 1 ≤ m ≤ 12 ∧ 1 ≤ d ≤ days_in_month y m
    ∧ (-719468 ≤ z ≤ 2932896 → 0 ≤ y ≤ 9999).
Proof.
  unfold civil_from_days.
  set (z' := z + 719468). set (era := z' / 146097).
  set (doe := z' - era * 146097).
  assert (Hdoe : 0 ≤ doe ≤ 146096) by (subst doe era; Z.div_mod_to_equations; lia).
  destruct (yoe_range doe Hdoe) as (Hyoe & Hdoy & Hleap & Hlast). cbn zeta in *.
  set (yoe := (doe - doe / 1460 + doe / 36524 - doe / 146096) / 365) in *.
  set (doy := doe - (365 * yoe + yoe / 4 - yoe / 100)) in *.
  destruct (month_day_range doy Hdoy) as (Hmp & Hd & H30 & Hfeb & Hmp9). cbn zeta in *.
  set (mp := (5 * doy + 2) / 153) in *.
  set (d := doy - (153 * mp + 2) / 5 + 1) in *.
  set (m := if mp <? 10 then mp + 3 else mp - 9).
  set (y := yoe + era * 400 + (if m <=? 2 then 1 else 0)).
  exists y, m, d. split; [done|].
  assert (Hm : 1 ≤ m ≤ 12 ∧ (if 2 <? m then m - 3 else m + 9) = mp
               ∧ (if m <=? 2 then y - 1 else y) = yoe + era * 400).
  { subst m y. destruct (Z.ltb_spec mp 10).
    - destruct (Z.ltb_spec 2 (mp + 3)); [|lia].
      destruct (Z.leb_spec (mp + 3) 2); lia.
    - destruct (Z.ltb_spec 2 (mp - 9)); [lia|].
      destruct (Z.leb_spec (mp - 9) 2); lia. }
  destruct Hm as (Hm & Hmp' & Hy').
  split; [|split; [done|split]].
  - unfold days_from_civil. rewrite Hy', Hmp'.
    assert (Hera : (yoe + era * 400) / 400 = era) by (Z.div_mod_to_equations; lia).
    rewrite Hera.
    replace (yoe + era * 400 - era * 400) with yoe by lia.
    replace ((153 * mp + 2) / 5 + d - 1) with doy by (subst d; lia).
    subst doy doe z'. lia.
  - split; [lia|]. unfold days_in_month, is_leap.
    destruct (Z.eqb_spec m 2) as [Hm2|Hm2].
    + assert (Hmp11 : mp = 11) by (subst m; destruct (Z.ltb_spec mp 10); lia).
      destruct (Hfeb Hmp11) as [Hd29 Hd365].
      assert (Hy : y = yoe + 1 + era * 400).
      { subst y. destruct (Z.leb_spec m 2); lia. }
      destruct (decide (d = 29)) as [Hd'|Hd'].
      * destruct (Hleap (Hd365 Hd')) as [H4 H100].
        assert (Hy4 : y mod 4 = 0) by (rewrite Hy; Z.div_mod_to_equations; lia).
        rewrite Hy4. cbn.
        destruct H100 as [H100| ->].
        -- assert (Hy100 : y mod 100 ≠ 0) by (rewrite Hy; Z.div_mod_to_equations; lia).
           destruct (Z.eqb_spec (y mod 100) 0); [done|]. cbn. lia.
        -- assert (Hy400 : y mod 400 = 0) by (rewrite Hy; Z.div_mod_to_equations; lia).
           rewrite Hy400. rewrite orb_true_r. lia.
      * destruct (_ || _); lia.
    + destruct ((m =? 4) || (m =? 6) || (m =? 9) || (m =? 11)) eqn:H30m; [|lia].
      apply H30. subst m.
      destruct (Z.ltb_spec mp 10);
        repeat match type of H30m with
        | context [?a =? ?b] => destruct (Z.eqb_spec a b)
        end; cbn in H30m; try discriminate; lia.
  - intros Hz. subst y.
    assert (Hera : 0 ≤ era ≤ 24) by (subst era z'; Z.div_mod_to_equations; lia).
    destruct (Z.leb_spec m 2) as [Hle|Hgt]; [|lia].
    split; [lia|].
    destruct (decide (era = 24)) as [He|He]; [|lia].
    assert (Hdoe' : doe ≤ 146036) by (subst doe z'; lia).
    destruct (decide (yoe = 399)) as [Hy399|]; [|lia].
    specialize (Hlast Hdoe' Hy399). specialize (Hmp9 Hlast).
    subst m. destruct (Z.ltb_spec mp 10); lia.
Qed.

Lemma check_from_spec (f : Z → bool) (lo : Z) (n : nat) :
  check_from f lo n = true → ∀ z, lo ≤ z < lo + Z.of_nat n → f z = true.
Proof.
  revert lo. induction n as [|n IH]; intros lo H z Hz; [lia|].
  cbn [check_from] in H. apply andb_true_iff in H as [Hlo Hrest].
  destruct (decide (z = lo)) as [->|Hne]; [done|].
  apply (IH (lo + 1)); [done|lia].
Qed.

Lemma check_pad2_all : check_from check_pad2 0 (Z.to_nat 100) = true.
Proof. vm_compute. reflexivity. Qed.

Lemma check_pad4_all : check_from check_pad4 0 (Z.to_nat 10000) = true.
Proof. vm_compute. reflexivity. Qed.

Lemma zero_pad_2_digits (n : Z) :
  0 ≤ n ≤ 99 →
  ∃ a b, zero_pad 2 n = String a (String b "") ∧ num2 a b = Some n.
Proof.
  intros Hn. pose proof (check_from_spec _ _ _ check_pad2_all n) as H.
  specialize (H ltac:(lia)). unfold check_pad2 in H.
  destruct (String.list_ascii_of_string (zero_pad 2 n)) as [|a [|b [|]]] eqn:Hs;
    try discriminate H.
  exists a, b. split.
  - rewrite <- (String.string_of_list_ascii_of_string (zero_pad 2 n)), Hs. done.
  - by eapply bool_decide_eq_true_1.
Qed.

Lemma zero_pad_4_digits (n : Z) :
  0 ≤ n ≤ 9999 →
  ∃ a b c d, zero_pad 4 n = String a (String b (String c (String d "")))
             ∧ num4 a b c d = Some n.
Proof.
  intros Hn. pose proof (check_from_spec _ _ _ check_pad4_all n) as H.
  specialize (H ltac:(lia)). unfold check_pad4 in H.
  destruct (String.list_ascii_of_string (zero_pad 4 n)) as [|a [|b [|c [|d [|]]]]] eqn:Hs;
    try discriminate H.
  exists a, b, c, d. split.
  - rewrite <- (String.string_of_list_ascii_of_string (zero_pad 4 n)), Hs. done.
  - by eapply bool_decide_eq_true_1.
Qed.

Lemma doe_of_year (yoe doy : Z) :
  0 ≤ yoe ≤ 399 → 0 ≤ doy ≤ 365 →
  (doy = 365 → (yoe + 1) mod 4 = 0 ∧ ((yoe + 1) mod 100 ≠ 0 ∨ yoe = 399)) →
  let doe := yoe * 365 + yoe / 4 - yoe / 100 + doy in
  0 ≤ doe ≤ 146096
  ∧ (doe - doe / 1460 + doe / 36524 - doe / 146096) / 365 = yoe.
Proof.
  intros H1 H2 H3. cbn zeta. Z.div_mod_to_equations. lia.
Qed.

Lemma doy_of_month_day (mp d : Z) :
  0 ≤ mp ≤ 11 → 1 ≤ d ≤ 31 →
  (mp = 1 ∨ mp = 3 ∨ mp = 6 ∨ mp = 8 → d ≤ 30) → (mp = 11 → d ≤ 29) →
  let doy := (153 * mp + 2) / 5 + d - 1 in
  0 ≤ doy ≤ 365
  ∧ (5 * doy + 2) / 153 = mp
  ∧ (doy = 365 → mp = 11 ∧ d = 29).
Proof.
  intros Hmp Hd H30 H29. cbn zeta.
  assert (Hc : mp = 0 ∨ mp = 1 ∨ mp = 2 ∨ mp = 3 ∨ mp = 4 ∨ mp = 5 ∨ mp = 6
               ∨ mp = 7 ∨ mp = 8 ∨ mp = 9 ∨ mp = 10 ∨ mp = 11) by lia.
  destruct Hc as [->|[->|[->|[->|[->|[->|[->|[->|[->|[->|[->| ->]]]]]]]]]]];
    cbn; Z.div_mod_to_equations; lia.
Qed.

Lemma civil_from_days_from_civil (y m d : Z) :
  1 ≤ m ≤ 12 → 1 ≤ d ≤ days_in_month y m →
  civil_from_days (days_from_civil y m d) = (y, m, d).
Proof.
  intros Hm Hd. unfold days_from_civil.
  set (y' := if m <=? 2 then y - 1 else y).
  set (era := y' / 400). set (yoe := y' - era * 400).
  set (mp := if 2 <? m then m - 3 else m + 9).
  set (doy := (153 * mp + 2) / 5 + d - 1).
  set (doe := yoe * 365 + yoe / 4 - yoe / 100 + doy).
  assert (Hyoe : 0 ≤ yoe ≤ 399) by (subst yoe era; Z.div_mod_to_equations; lia).
  assert (Hmp : 0 ≤ mp ≤ 11 ∧ (if mp <? 10 then mp + 3 else mp - 9) = m
                ∧ (mp = 11 ↔ m = 2)
                ∧ (mp = 1 ∨ mp = 3 ∨ mp = 6 ∨ mp = 8 ↔ m = 4 ∨ m = 6 ∨ m = 9 ∨ m = 11)).
  { subst mp. destruct (Z.ltb_spec 2 m).
    - destruct (Z.ltb_spec (m - 3) 10); lia.
    - destruct (Z.ltb_spec (m + 9) 10); lia. }
  destruct Hmp as (Hmp & Hm' & Hfeb & H30).
  assert (Hdim : d ≤ 31 ∧ (mp = 1 ∨ mp = 3 ∨ mp = 6 ∨ mp = 8 → d ≤ 30)
                 ∧ (mp = 11 → d ≤ 29 ∧ (d = 29 → is_leap y = true))).
  { unfold days_in_month in Hd. destruct (Z.eqb_spec m 2) as [->|Hne].
    - destruct (is_leap y); repeat split; intros; try done; lia.
    - destruct ((m =? 4) || (m =? 6) || (m =? 9) || (m =? 11)) eqn:E.
      + split; [lia|]. split; [lia|]. intros ?. lia.
      + split; [lia|]. split; [|intros ?; lia]. intros Hc. apply H30 in Hc.
        repeat match type of E with
        | context [?a =? ?b] => destruct (Z.eqb_spec a b)
        end; cbn in E; try discriminate; lia. }
  destruct Hdim as (Hd31 & Hd30 & Hd29).
  destruct (doy_of_month_day mp d Hmp ltac:(lia) Hd30 ltac:(intros E; by apply Hd29))
    as (Hdoy & Hmp_back & H365). cbn zeta in *. fold doy in Hdoy, Hmp_back, H365.
  assert (Hleap : doy = 365 → (yoe + 1) mod 4 = 0 ∧ ((yoe + 1) mod 100 ≠ 0 ∨ yoe = 399)).
  { intros E. destruct (H365 E) as [Emp Ed]. destruct (Hd29 Emp) as [_ Hl].
    specialize (Hl Ed). apply Hfeb in Emp.
    assert (Hy' : y = yoe + 1 + era * 400).
    { subst yoe y'. destruct (Z.leb_spec m 2); lia. }
    unfold is_leap in Hl. apply orb_true_iff in Hl as [Hl|Hl].
    - apply andb_true_iff in Hl as [H4 H100]. apply Z.eqb_eq in H4.
      apply negb_true_iff, Z.eqb_neq in H100.
      split; [rewrite Hy' in H4; Z.div_mod_to_equations; lia|].
      left. rewrite Hy' in H100. Z.div_mod_to_equations. lia.
    - apply Z.eqb_eq in Hl. rewrite Hy' in Hl.
      split; [Z.div_mod_to_equations; lia|]. right. Z.div_mod_to_equations. lia. }
  destruct (doe_of_year yoe doy Hyoe Hdoy Hleap) as (Hdoe & Hyoe_back).
  cbn zeta in *. fold doe in Hdoe, Hyoe_back.
  unfold civil_from_days.
  replace (era * 146097 + doe - 719468 + 719468) with (doe + era * 146097) by lia.
  assert (E1 : (doe + era * 146097) / 146097 = era)
    by (clear -Hdoe; clearbody doe; Z.div_mod_to_equations; lia).
  rewrite E1.
  replace (doe + era * 146097 - era * 146097) with doe by lia.
  rewrite Hyoe_back.
  replace (doe - (365 * yoe + yoe / 4 - yoe / 100)) with doy by (subst doe; lia).
  rewrite Hmp_back, Hm'.
  f_equal; [f_equal|].
  - subst yoe y'. destruct (Z.leb_spec m 2); lia.
  - subst doy. lia.
Qed.

Lemma days_from_civil_year (y m d : Z) :
  1 ≤ m ≤ 12 → 1 ≤ d ≤ days_in_month y m →
  (days_from_civil 1000 1 1 ≤ days_from_civil y m d → 1000 ≤ y)
  ∧ (days_from_civil y m d < days_from_civil 10000 1 1 → y ≤ 9999)
  ∧ (days_from_civil 1 1 1 ≤ days_from_civil y m d → 1 ≤ y).
Proof.
  intros Hm Hd.
  assert (Hdim : days_in_month y m ≤ 31).
  { unfold days_in_month. repeat case_match; lia. }
  assert (E1 : days_from_civil 1000 1 1 = -354285) by reflexivity.
  assert (E2 : days_from_civil 10000 1 1 = 2932897) by reflexivity.
  assert (E3 : days_from_civil 1 1 1 = -719162) by reflexivity.
  rewrite E1, E2, E3. clear E1 E2 E3.
  unfold days_from_civil.
  destruct (Z.leb_spec m 2), (Z.ltb_spec 2 m); try lia;
    (repeat split; intros; Z.div_mod_to_equations; lia).
Qed.

Lemma digit_inv (c : ascii) (x : Z) :
  digit c = Some x → 0 ≤ x ≤ 9 ∧ c = Ascii.ascii_of_N (Z.to_N (x + 48)).
Proof.
  unfold digit. cbn zeta.
  destruct (_ && _) eqn:E; [|done]. intros [= <-].
  apply andb_true_iff in E as [E1 E2]. apply Z.leb_le in E1, E2.
  split; [lia|].
  replace (Z.of_N (Ascii.N_of_ascii c) - 48 + 48) with (Z.of_N (Ascii.N_of_ascii c)) by lia.
  by rewrite N2Z.id, Ascii.ascii_N_embedding.
Qed.

Lemma num2_inv (a b : ascii) (n : Z) :
  num2 a b = Some n →
  ∃ x y, digit a = Some x ∧ digit b = Some y ∧ n = 10 * x + y.
Proof.
  unfold num2. destruct (digit a) as [x|]; cbn; [|done].
  destruct (digit b) as [y|]; cbn; [|done]. intros [= <-]. by exists x, y.
Qed.

Lemma num2_range (a b : ascii) (n : Z) : num2 a b = Some n → 0 ≤ n ≤ 99.
Proof.
  intros (x & y & Hx & Hy & ->)%num2_inv.
  apply digit_inv in Hx as [Hx _]. apply digit_inv in Hy as [Hy _]. lia.
Qed.

Lemma num2_inj (a b a' b' : ascii) (n : Z) :
  num2 a b = Some n → num2 a' b' = Some n → a = a' ∧ b = b'.
Proof.
  intros (x & y & Hx & Hy & ->)%num2_inv (x' & y' & Hx' & Hy' & E)%num2_inv.
  apply digit_inv in Hx as [Hx ->]. apply digit_inv in Hy as [Hy ->].
  apply digit_inv in Hx' as [Hx' ->]. apply digit_inv in Hy' as [Hy' ->].
  assert (x = x') as -> by lia. assert (y = y') as -> by lia. done.
Qed.

Lemma num4_inv (a b c d : ascii) (n : Z) :
  num4 a b c d = Some n →
  ∃ x y, num2 a b = Some x ∧ num2 c d = Some y ∧ n = 100 * x + y.
Proof.
  unfold num4. destruct (num2 a b) as [x|]; cbn; [|done].
  destruct (num2 c d) as [y|]; cbn; [|done]. intros [= <-]. by exists x, y.
Qed.

Lemma num4_range (a b c d : ascii) (n : Z) : num4 a b c d = Some n → 0 ≤ n ≤ 9999.
Proof.
  intros (x & y & Hx & Hy & ->)%num4_inv.
  apply num2_range in Hx, Hy. lia.
Qed.

Lemma num4_inj (a b c d a' b' c' d' : ascii) (n : Z) :
  num4 a b c d = Some n → num4 a' b' c' d' = Some n →
  a = a' ∧ b = b' ∧ c = c' ∧ d = d'.
Proof.
  intros (x & y & Hx & Hy & ->)%num4_inv (x' & y' & Hx' & Hy' & E)%num4_inv.
  pose proof (num2_range _ _ _ Hx). pose proof (num2_range _ _ _ Hy).
  pose proof (num2_range _ _ _ Hx'). pose proof (num2_range _ _ _ Hy').
  assert (x = x') as -> by lia. assert (y = y') as -> by lia.
  destruct (num2_inj _ _ _ _ _ Hx Hx') as [-> ->].
  destruct (num2_inj _ _ _ _ _ Hy Hy') as [-> ->]. done.
Qed.

(** The two digits that are read as [n] are the zero-padded decimal of
    [n]. *)
Lemma zero_pad_2_num2 (a b : ascii) (n : Z) :
  num2 a b = Some n → zero_pad 2 n = String a (String b "").
Proof.
  intros H. destruct (zero_pad_2_digits n (num2_range _ _ _ H)) as (a' & b' & -> & H').
  by destruct (num2_inj _ _ _ _ _ H H') as [-> ->].
Qed.

Lemma zero_pad_4_num4 (a b c d : ascii) (n : Z) :
  num4 a b c d = Some n → zero_pad 4 n = String a (String b (String c (String d ""))).
Proof.
  intros H.
  destruct (zero_pad_4_digits n (num4_range _ _ _ _ _ H)) as (a' & b' & c' & d' & -> & H').
  by destruct (num4_inj _ _ _ _ _ _ _ _ _ H H') as (-> & -> & -> & ->).
Qed.

Lemma check_year_all : check_from check_year 1 (Z.to_nat 9999) = true.
Proof. vm_compute. reflexivity. Qed.

Lemma check_year4_all : check_from check_year4 1000 (Z.to_nat 9000) = true.
Proof. vm_compute. reflexivity. Qed.

Lemma lstrip_zeros_app (a b : string) :
  lstrip_zeros a ≠ "" → lstrip_zeros (a +:+ b) = lstrip_zeros a +:+ b.
Proof.
  induction a as [|c a IH]; [done|].
  change (String c a +:+ b) with (String c (a +:+ b)). cbn [lstrip_zeros].
  destruct (bool_decide (c = "0"%char)); [exact IH|done].
Qed.

(** [%Y] writes the four digits of the year without their leading zeros, and
    all four of them from the year 1000 on. *)
Lemma pretty_year (y : Z) (rest : string) :
  1 ≤ y ≤ 9999 →
  pretty y +:+ rest = lstrip_zeros (zero_pad 4 y +:+ rest)
  ∧ (1000 ≤ y → pretty y = zero_pad 4 y).
Proof.
  intros Hy. split.
  - pose proof (check_from_spec _ _ _ check_year_all y ltac:(lia)) as H.
    apply bool_decide_eq_true_1 in H as [H1 H2].
    rewrite lstrip_zeros_app by (by rewrite H1). by rewrite H1.
  - intros Hy'. pose proof (check_from_spec _ _ _ check_year4_all y ltac:(lia)) as H.
    by apply bool_decide_eq_true_1 in H.
Qed.

Lemma mk_timestamp_fields (y m d hh mm ss : Z) :
  1 ≤ m ≤ 12 → 1 ≤ d ≤ days_in_month y m →
  0 ≤ hh < 24 → 0 ≤ mm < 60 → 0 ≤ ss < 60 →
  ts_date (mk_timestamp y m d hh mm ss) = (y, m, d)
  ∧ ts_hour (mk_timestamp y m d hh mm ss) = hh
  ∧ ts_minute (mk_timestamp y m d hh mm ss) = mm.
Proof.
  intros Hm Hd Hhh Hmm Hss. unfold ts_date, ts_hour, ts_minute, mk_timestamp.
  set (D := days_from_civil y m d).
  assert (E : (D * 86400 + hh * 3600 + mm * 60 + ss) / 86400 = D)
    by (Z.div_mod_to_equations; lia).
  rewrite E. subst D. rewrite civil_from_days_from_civil by done.
  split; [done|]. split; Z.div_mod_to_equations; lia.
Qed.

Ltac destruct_char c :=
  destruct c as [[] [] [] [] [] [] [] []]; try discriminate.

(** What [to_datetime] accepts. *)
Lemma to_datetime_inv (s : string) (t : Timestamp) :
  to_datetime s = Ok t →
  ∃ y1 y2 y3 y4 m1 m2 d1 d2 sep h1 h2 n1 n2 tail y m d hh mm ss,
    String.list_ascii_of_string s
      = y1 :: y2 :: y3 :: y4 :: "-"%char :: m1 :: m2 :: "-"%char :: d1 :: d2
           :: sep :: h1 :: h2 :: ":"%char :: n1 :: n2 :: tail
    ∧ num4 y1 y2 y3 y4 = Some y ∧ num2 m1 m2 = Some m ∧ num2 d1 d2 = Some d
    ∧ num2 h1 h2 = Some hh ∧ num2 n1 n2 = Some mm ∧ parse_tail tail = Some ss
    ∧ 1 ≤ y ∧ 1 ≤ m ≤ 12 ∧ 1 ≤ d ≤ days_in_month y m
    ∧ hh < 24 ∧ mm < 60 ∧ ss < 60
    ∧ t = mk_timestamp y m d hh mm ss.
Proof.
  unfold to_datetime.
  destruct (String.list_ascii_of_string s) as [|y1 l]; [discriminate|].
  destruct l as [|y2 l]; [discriminate|].
  destruct l as [|y3 l]; [discriminate|].
  destruct l as [|y4 l]; [discriminate|].
  destruct l as [|c1 l]; [discriminate|]. destruct_char c1.
  destruct l as [|m1 l]; [discriminate|].
  destruct l as [|m2 l]; [discriminate|].
  destruct l as [|c2 l]; [discriminate|]. destruct_char c2.
  destruct l as [|d1 l]; [discriminate|].
  destruct l as [|d2 l]; [discriminate|].
  destruct l as [|sep l]; [discriminate|].
  destruct l as [|h1 l]; [discriminate|].
  destruct l as [|h2 l]; [discriminate|].
  destruct l as [|c3 l]; [discriminate|]. destruct_char c3.
  destruct l as [|n1 l]; [discriminate|].
  destruct l as [|n2 tail]; [discriminate|].
  destruct (num4 y1 y2 y3 y4) as [y|] eqn:Hy; cbn [mbind option_bind]; [|discriminate].
  destruct (num2 m1 m2) as [m|] eqn:Hm; cbn [mbind option_bind]; [|discriminate].
  destruct (num2 d1 d2) as [d|] eqn:Hd; cbn [mbind option_bind]; [|discriminate].
  destruct (num2 h1 h2) as [hh|] eqn:Hhh; cbn [mbind option_bind]; [|discriminate].
  destruct (num2 n1 n2) as [mm|] eqn:Hmm; cbn [mbind option_bind]; [|discriminate].
  destruct (parse_tail tail) as [ss|] eqn:Hss; cbn [mbind option_bind]; [|discriminate].
  destruct (_ && _) eqn:E; [|discriminate]. intros [= <-].
  repeat (apply andb_true_iff in E as [E ?]).
  repeat match goal with
  | H : (_ <=? _) = true |- _ => apply Z.leb_le in H
  | H : (_ <? _) = true |- _ => apply Z.ltb_lt in H
  end.
  exists y1, y2, y3, y4, m1, m2, d1, d2, sep, h1, h2, n1, n2, tail, y, m, d, hh, mm, ss.
  repeat split; done || lia.
Qed.

Lemma parse_tail_range (tail : list ascii) (ss : Z) :
  parse_tail tail = Some ss → 0 ≤ ss.
Proof.
  unfold parse_tail. intros H.
  repeat case_match; simplify_eq; try lia; by eapply num2_range.
Qed.

Lemma string_of_chars (s : string) (l : list ascii) :
  String.list_ascii_of_string s = l → s = String.string_of_list_ascii l.
Proof. intros <-. by rewrite String.string_of_list_ascii_of_string. Qed.

(** The text that [strftime] writes for a parsed timestamp is the text that
    was parsed, cut after the minutes. *)
Lemma strftime_to_datetime (s : string) (t : Timestamp) :
  to_datetime s = Ok t →
  strftime t = lstrip_zeros (minute_text s)
  ∧ (mk_timestamp 1000 1 1 0 0 0 ≤ t → lstrip_zeros (minute_text s) = minute_text s)
  ∧ to_datetime (minute_text s) = Ok (60 * (t / 60))
  ∧ String.length (minute_text s) = 16%nat.
Proof.
  intros (y1 & y2 & y3 & y4 & m1 & m2 & d1 & d2 & sep & h1 & h2 & n1 & n2 & tail
          & y & m & d & hh & mm & ss & Hs & Hy & Hm & Hd & Hhh & Hmm & Hss
          & Hy1 & Hm12 & Hdm & Hh24 & Hm60 & Hs60 & ->)%to_datetime_inv.
  apply string_of_chars in Hs. subst s.
  pose proof (num4_range _ _ _ _ _ Hy) as Hyr.
  pose proof (num2_range _ _ _ Hhh) as Hhr.
  pose proof (num2_range _ _ _ Hmm) as Hmr.
  pose proof (parse_tail_range _ _ Hss) as Hsr.
  destruct (mk_timestamp_fields y m d hh mm ss) as (Edate & Ehour & Emin); try lia.
  assert (Etext : minute_text (String.string_of_list_ascii
            (y1 :: y2 :: y3 :: y4 :: "-"%char :: m1 :: m2 :: "-"%char :: d1 :: d2
               :: sep :: h1 :: h2 :: ":"%char :: n1 :: n2 :: tail))
          = zero_pad 4 y +:+ "-" +:+ zero_pad 2 m +:+ "-" +:+ zero_pad 2 d
            +:+ " " +:+ zero_pad 2 hh +:+ ":" +:+ zero_pad 2 mm).
  { rewrite (zero_pad_4_num4 _ _ _ _ _ Hy), (zero_pad_2_num2 _ _ _ Hm),
      (zero_pad_2_num2 _ _ _ Hd), (zero_pad_2_num2 _ _ _ Hhh), (zero_pad_2_num2 _ _ _ Hmm).
    cbn [String.string_of_list_ascii].
    by destruct (String.string_of_list_ascii tail). }
  rewrite Etext.
  assert (Estr : strftime (mk_timestamp y m d hh mm ss)
          = pretty y +:+ "-" +:+ zero_pad 2 m +:+ "-" +:+ zero_pad 2 d
            +:+ " " +:+ zero_pad 2 hh +:+ ":" +:+ zero_pad 2 mm).
  { unfold strftime. by rewrite Edate, Ehour, Emin. }
  destruct (pretty_year y ("-" +:+ zero_pad 2 m +:+ "-" +:+ zero_pad 2 d
            +:+ " " +:+ zero_pad 2 hh +:+ ":" +:+ zero_pad 2 mm)) as [Hstrip Hfour]; [lia|].
  split; [by rewrite Estr|]. split; [|split].
  - intros Ht. rewrite <- Hstrip. rewrite Hfour; [done|].
    assert (E1 : mk_timestamp 1000 1 1 0 0 0 = days_from_civil 1000 1 1 * 86400)
      by reflexivity.
    destruct (days_from_civil_year y m d Hm12 Hdm) as (H1000 & _).
    apply H1000. unfold mk_timestamp in Ht at 2. rewrite E1 in Ht. lia.
  - rewrite (zero_pad_4_num4 _ _ _ _ _ Hy), (zero_pad_2_num2 _ _ _ Hm),
      (zero_pad_2_num2 _ _ _ Hd), (zero_pad_2_num2 _ _ _ Hhh), (zero_pad_2_num2 _ _ _ Hmm).
    unfold to_datetime.
    match goal with
    | |- context [String.list_ascii_of_string ?s] =>
        replace (String.list_ascii_of_string s)
          with [y1; y2; y3; y4; "-"%char; m1; m2; "-"%char; d1; d2; " "%char;
                h1; h2; ":"%char; n1; n2] by reflexivity
    end.
    cbv beta iota zeta.
    rewrite Hy, Hm, Hd, Hhh, Hmm. cbn [mbind option_bind parse_tail].
    assert (Hok : (bool_decide (" "%char = "T"%char) || bool_decide (" "%char = " "%char))
             && (1 <=? y) && (1 <=? m) && (m <=? 12) && (1 <=? d) && (d <=? days_in_month y m)
             && (hh <? 24) && (mm <? 60) && (0 <? 60) = true).
    { repeat (apply andb_true_iff; split); try reflexivity;
        try (apply Z.leb_le; lia); apply Z.ltb_lt; lia. }
    rewrite Hok. f_equal. unfold mk_timestamp. Z.div_mod_to_equations. lia.
  - by rewrite (zero_pad_4_num4 _ _ _ _ _ Hy), (zero_pad_2_num2 _ _ _ Hm),
      (zero_pad_2_num2 _ _ _ Hd), (zero_pad_2_num2 _ _ _ Hhh), (zero_pad_2_num2 _ _ _ Hmm).
Qed.

(** C7: every extended-format record whose [ts] is the text of a timestamp
    ([YYYY-MM-DDTHH:MM:SSZ], or with a space and without seconds) is
    converted without error into a record with exactly the four canonical
    fields.  [endTime] is the text of [ts] cut after the minutes, with a
    space between date and time and the year written without leading zeros
    (so, from the year 1000 on, the first sixteen characters of [ts] with
    the separator replaced by a space); read as a time, it is the time of
    [ts] with the seconds dropped.  [artistName], [trackName] and [msPlayed]
    are the values of [master_metadata_album_artist_name],
    [master_metadata_track_name] and [ms_played], where an absent name
    becomes null and an absent [ms_played] becomes 0.  The record of the
    normalization scenario is converted into the legacy record with the same
    canonical fields, and the two uploads load into the same frame. *)
Theorem convert_new_format_fields :
  (∀ new_data : list (gmap string json),
     Forall (λ r, ∃ s t, r !! "ts" = Some (JStr s) ∧ to_datetime s = Ok t) new_data →
     ∃ out, convert_new_format_to_old_format new_data = Ok out
       ∧ Forall2 (λ r d, ∃ s t,
           r !! "ts" = Some (JStr s) ∧ to_datetime s = Ok t
           ∧ d !! "endTime" = Some (JStr (lstrip_zeros (minute_text s)))
           ∧ (mk_timestamp 1000 1 1 0 0 0 ≤ t → lstrip_zeros (minute_text s) = minute_text s)
           ∧ to_datetime (minute_text s) = Ok (60 * (t / 60))
           ∧ d !! "artistName" = Some (default JNull (r !! "master_metadata_album_artist_name"))
           ∧ d !! "trackName" = Some (default JNull (r !! "master_metadata_track_name"))
           ∧ d !! "msPlayed" = Some (default (JInt 0) (r !! "ms_played"))
           ∧ dom d = {["endTime"; "artistName"; "trackName"; "msPlayed"]}) new_data out)
  ∧ minute_text "2023-05-01T10:15:00Z" = "2023-05-01 10:15"
  ∧ convert_new_format_to_old_format [extended_example] = Ok [legacy_example]
  ∧ load [[extended_example]] = Ok [legacy_example]
  ∧ load [[legacy_example]] = Ok [legacy_example]
  ∧ typed_frame [legacy_example]
    = Some [Event.mk (mk_timestamp 2023 5 1 10 15 0) (Some "A") (Some "T") 120000].
Proof.
  split; [|repeat split; by vm_compute].
  intros new_data. induction 1 as [|r new_data (s & t & Hts & Ht) _ (out & Hout & IH)].
  { exists []. split; [done|constructor]. }
  destruct (convert_record_ok r s t Hts Ht) as (d & Hd & He & Ha & Hk & Hm & Hdom).
  destruct (strftime_to_datetime s t Ht) as (Estr & Hfour & Hback & _).
  exists (d :: out). unfold convert_new_format_to_old_format in *. cbn.
  rewrite Hd. cbn. rewrite Hout. cbn. split; [done|].
  constructor; [|done]. exists s, t. rewrite <- Estr.
  split; [done|]. split; [done|]. split; [done|]. split; [by rewrite Estr|].
  split; [done|]. split; [done|]. split; [done|]. split; [done|]. done.
Qed.

(** A record with only [ts] (here with 59 seconds) is converted, with null
    names, zero [msPlayed] and the seconds dropped. *)
Lemma convert_new_format_fields_witness :
  ∃ out d, convert_new_format_to_old_format [bare_extended_example] = Ok out
    ∧ out = [d]
    ∧ d !! "endTime" = Some (JStr "2023-05-01 10:15")
    ∧ d !! "artistName" = Some JNull
    ∧ d !! "trackName" = Some JNull
    ∧ d !! "msPlayed" = Some (JInt 0).
Proof.
  destruct convert_new_format_fields as [Hall _].
  destruct (Hall [bare_extended_example]) as (out & Hout & Hfields).
  { constructor; [|constructor].
    exists "2023-05-01T10:15:59Z", (mk_timestamp 2023 5 1 10 15 59).
    split; reflexivity. }
  apply Forall2_cons_inv_l in Hfields as (d & out' & Hd & Hnil & ->).
  apply Forall2_nil_inv_l in Hnil as ->.
  destruct Hd as (s & t & Hs & Ht & He & _ & _ & Ha & Hk & Hm & _).
  exists [d], d. split; [exact Hout|]. split; [reflexivity|].
  assert (Es : s = "2023-05-01T10:15:59Z").
  { change (bare_extended_example !! "ts") with (Some (JStr "2023-05-01T10:15:59Z")) in Hs.
    by injection Hs as <-. }
  subst s. split; [exact He|]. split; [exact Ha|]. split; [exact Hk|exact Hm].
Defined.

(** The time that the converter prints is read back by line 100 as the same
    minute: for every timestamp of the years 1000 to 9999, [strftime] writes
    sixteen characters, parsing them succeeds and gives the timestamp with
    its seconds set to zero, so that date, hour, month and day name are
    those of the timestamp.  (A year below 1000 is written with fewer than
    four digits.) *)
Theorem to_datetime_strftime (t : Timestamp) :
  mk_timestamp 1000 1 1 0 0 0 ≤ t < mk_timestamp 10000 1 1 0 0 0 →
  String.length (strftime t) = 16%nat
  ∧ to_datetime (strftime t) = Ok (60 * (t / 60))
  ∧ ts_date (60 * (t / 60)) = ts_date t
  ∧ ts_hour (60 * (t / 60)) = ts_hour t
  ∧ ts_month (60 * (t / 60)) = ts_month t
  ∧ ts_day_name (60 * (t / 60)) = ts_day_name t
  ∧ strftime (mk_timestamp 50 3 4 5 6 0) = "50-03-04 05:06".
Proof.
  intros Ht.
  assert (Hlo : mk_timestamp 1000 1 1 0 0 0 = days_from_civil 1000 1 1 * 86400) by reflexivity.
  assert (Hhi : mk_timestamp 10000 1 1 0 0 0 = days_from_civil 10000 1 1 * 86400) by reflexivity.
  rewrite Hlo, Hhi in Ht. clear Hlo Hhi.
  assert (Elo : days_from_civil 1000 1 1 = -354285) by reflexivity.
  assert (Ehi : days_from_civil 10000 1 1 = 2932897) by reflexivity.
  assert (H1 : 60 * (t / 60) / 86400 = t / 86400) by (Z.div_mod_to_equations; lia).
  assert (H2 : (60 * (t / 60)) mod 86400 / 3600 = t mod 86400 / 3600)
    by (Z.div_mod_to_equations; lia).
  assert (Hrest : ts_date (60 * (t / 60)) = ts_date t
                  ∧ ts_hour (60 * (t / 60)) = ts_hour t
                  ∧ ts_month (60 * (t / 60)) = ts_month t
                  ∧ ts_day_name (60 * (t / 60)) = ts_day_name t
                  ∧ strftime (mk_timestamp 50 3 4 5 6 0) = "50-03-04 05:06").
  { unfold ts_month, ts_day_name, ts_date, ts_hour. rewrite H1, H2.
    repeat split; reflexivity. }
  enough (Hmain : String.length (strftime t) = 16%nat
                  ∧ to_datetime (strftime t) = Ok (60 * (t / 60)))
    by (destruct Hmain; split; [done|split; [done|exact Hrest]]).
  clear Hrest.
  destruct (civil_from_days_spec (t / 86400)) as (y & m & d & Hciv & Hdays & Hm & Hd & _).
  destruct (days_from_civil_year y m d Hm Hd) as (Hy1 & Hy2 & _).
  rewrite Hdays in Hy1, Hy2.
  assert (Hy : 1000 ≤ y ≤ 9999).
  { rewrite Elo, Ehi in *. split; [apply Hy1|apply Hy2]; Z.div_mod_to_equations; lia. }
  assert (Hdim : days_in_month y m ≤ 31).
  { unfold days_in_month. repeat case_match; lia. }
  unfold strftime, ts_date. rewrite Hciv.
  set (hh := ts_hour t). set (mi := ts_minute t).
  assert (Hhh : 0 ≤ hh ≤ 23) by (subst hh; unfold ts_hour; Z.div_mod_to_equations; lia).
  assert (Hmi : 0 ≤ mi ≤ 59) by (subst mi; unfold ts_minute; Z.div_mod_to_equations; lia).
  destruct (pretty_year y "" ltac:(lia)) as [_ Hfour]. rewrite (Hfour ltac:(lia)).
  destruct (zero_pad_4_digits y) as (y1 & y2 & y3 & y4 & -> & Hny); [lia|].
  destruct (zero_pad_2_digits m) as (m1 & m2 & -> & Hnm); [lia|].
  destruct (zero_pad_2_digits d) as (d1 & d2 & -> & Hnd); [lia|].
  destruct (zero_pad_2_digits hh) as (h1 & h2 & -> & Hnh); [lia|].
  destruct (zero_pad_2_digits mi) as (n1 & n2 & -> & Hnn); [lia|].
  split; [reflexivity|].
  unfold to_datetime.
  match goal with
  | |- context [String.list_ascii_of_string ?s] =>
      replace (String.list_ascii_of_string s)
        with [y1; y2; y3; y4; "-"%char; m1; m2; "-"%char; d1; d2; " "%char;
              h1; h2; ":"%char; n1; n2] by reflexivity
  end.
  cbv beta iota zeta.
  rewrite Hny, Hnm, Hnd, Hnh, Hnn. cbn [mbind option_bind parse_tail].
  assert (Hok : (bool_decide (" "%char = "T"%char) || bool_decide (" "%char = " "%char))
           && (1 <=? y) && (1 <=? m) && (m <=? 12) && (1 <=? d) && (d <=? days_in_month y m)
           && (hh <? 24) && (mi <? 60) && (0 <? 60) = true).
  { repeat (apply andb_true_iff; split); try reflexivity;
      try (apply Z.leb_le; lia); apply Z.ltb_lt; lia. }
  rewrite Hok. f_equal. unfold mk_timestamp. rewrite Hdays.
  subst hh mi. unfold ts_hour, ts_minute. Z.div_mod_to_equations. lia.
Qed.

Lemma to_datetime_strftime_witness :
  to_datetime (strftime (mk_timestamp 2023 5 1 10 15 59))
  = Ok (mk_timestamp 2023 5 1 10 15 0).
Proof.
  destruct (to_datetime_strftime (mk_timestamp 2023 5 1 10 15 59)) as (_ & H & _).
  { vm_compute. split; [discriminate|reflexivity]. }
  exact H.
Defined.

(** A converted record is a typed row of the frame: for a record whose [ts]
    is the text of a timestamp from the year 1000 on, whose names are
    strings or absent and whose [ms_played] is an integer or absent, line
    100 reads the converted [endTime] as the time of [ts] with the seconds
    dropped, and the row carries the names and the duration of the
    record. *)
Theorem converted_row_is_typed (r : gmap string json) (s : string) (t : Timestamp)
    (a k : option string) (n : Z) :
  r !! "ts" = Some (JStr s) → to_datetime s = Ok t →
  mk_timestamp 1000 1 1 0 0 0 ≤ t →
  name_cell (default JNull (r !! "master_metadata_album_artist_name")) = Some a →
  name_cell (default JNull (r !! "master_metadata_track_name")) = Some k →
  default (JInt 0) (r !! "ms_played") = JInt n →
  ∃ d, convert_record r = Ok d
       ∧ typed_row d = Some (Event.mk (60 * (t / 60)) a k n).
Proof.
  intros Hts Ht Hy Ha Hk Hn.
  destruct (convert_record_ok r s t Hts Ht) as (d & Hd & He & Hda & Hdk & Hdm & _).
  destruct (strftime_to_datetime s t Ht) as (Estr & Hfour & Hback & Hlen).
  exists d. split; [exact Hd|].
  unfold typed_row. rewrite He, Hda, Hdk, Hdm, Hn, Estr, (Hfour Hy).
  rewrite bool_decide_eq_true_2 by exact Hlen.
  rewrite Hback, Ha, Hk. reflexivity.
Qed.

Lemma converted_row_is_typed_witness :
  ∃ d, convert_record extended_example = Ok d
       ∧ typed_row d
         = Some (Event.mk (mk_timestamp 2023 5 1 10 15 0) (Some "A") (Some "T") 120000).
Proof.
  apply (converted_row_is_typed extended_example "2023-05-01T10:15:00Z"
           (mk_timestamp 2023 5 1 10 15 0) (Some "A") (Some "T") 120000);
    try reflexivity.
  vm_compute. discriminate.
Defined.

(** * The fields of the KPI set *)

Lemma Qsum_cons (x : Q) (l : list Q) : Qsum (x :: l) = (x + Qsum l)%Q.
Proof. reflexivity. Qed.

(** What a successful run of "Calculate Metrics" returns, field by field. *)
Lemma calculate_metrics_fields (df : list row) (k : KPISet) :
  calculate_metrics df = Ok k →
  total_hours k = (Qsum (duration_minutes <$> df) / 60)%Q
  ∧ unique_artists k = nunique (artistName <$> df)
  ∧ unique_songs k = nunique (trackName <$> df)
  ∧ idxmax (by_hour df) = Ok (most_active_hour k)
  ∧ idxmax (by_day_of_week df) = Ok (most_active_day k)
  ∧ avg_listens_per_day k = mean (snd <$> by_date df)
  ∧ avg_listens_per_month k = mean (snd <$> by_month df)
  ∧ avg_listens_per_hour k = mean (snd <$> by_hour df)
  ∧ idxmax (by_month df) = Ok (highest_month k)
  ∧ idxmin (by_month df) = Ok (lowest_month k)
  ∧ weekday_playtime k = Qsum (duration_minutes <$> filter (λ r, is_weekday r = true) df)
  ∧ weekend_playtime k = Qsum (duration_minutes <$> filter (λ r, is_weekend r = true) df)
  ∧ longest_session k = Qmax_list (snd <$> session_lengths_first df)
  ∧ shortest_session k = Qmin_list (snd <$> session_lengths_first df)
  ∧ idxmax (by_artist df) = Ok (top_artist k)
  ∧ idxmax (by_track df) = Ok (top_song k)
  ∧ top_5_artist_playtime k = Qsum (snd <$> nlargest 5 (by_artist df))
  ∧ avg_session_duration k = mean (snd <$> session_lengths df)
  ∧ song_repeatability_count k = count_true (duplicated (trackName <$> df))
  ∧ consistency_rate k = (inject_Z (Z.of_nat (length (by_day_of_week df))) / 7 * 100)%Q
  ∧ idxmax (by_month df) = Ok (most_active_month k)
  ∧ most_active_month_total k = Qmax_list (snd <$> by_month df).
Proof.
  unfold calculate_metrics. intros H. inv_bind H.
  injection H as <-. cbn. repeat split; assumption.
Qed.

(** * Weekdays and weekends *)

Lemma ts_day_name_cases (t : Timestamp) :
  ts_day_name t ∈ ["Monday"; "Tuesday"; "Wednesday"; "Thursday"; "Friday";
                   "Saturday"; "Sunday"].
Proof.
  unfold ts_day_name. cbn zeta. apply list_elem_of_In.
  repeat case_match; cbn; tauto.
Qed.

Lemma weekday_xor_weekend (e : Event.t) :
  is_weekend (derive e) = negb (is_weekday (derive e)).
Proof.
  unfold is_weekend, is_weekday. cbn [day_of_week derive].
  pose proof (ts_day_name_cases (Event.endTime e)) as H.
  apply list_elem_of_In in H. cbn in H.
  destruct H as [<-|[<-|[<-|[<-|[<-|[<-|[<-|[]]]]]]]]; reflexivity.
Qed.

Lemma filter_split_perm {A} (p q : A → bool) (l : list A) :
  Forall (λ x, q x = negb (p x)) l →
  filter (λ x, p x = true) l ++ filter (λ x, q x = true) l ≡ₚ l.
Proof.
  induction 1 as [|x l Hx _ IH]; [done|].
  rewrite !filter_cons, Hx. destruct (p x); cbn [negb].
  - rewrite decide_True by done. rewrite decide_False by done.
    cbn. by rewrite IH.
  - rewrite decide_False by done. rewrite decide_True by done.
    rewrite <- Permutation_middle. by rewrite IH.
Qed.

(** Every row of a cleaned frame falls on a weekday or on a weekend day and
    never on both: the rows that [weekday_playtime] sums and the rows that
    [weekend_playtime] sums are disjoint and together are all the rows. *)
Theorem weekday_weekend_split (df : list Event.t) :
  let d := data_cleaning df in
  Forall (λ r, is_weekend r = negb (is_weekday r)) d
  ∧ filter (λ r, is_weekday r = true) d ++ filter (λ r, is_weekend r = true) d ≡ₚ d
  ∧ (length (filter (λ r, is_weekday r = true) d)
     + length (filter (λ r, is_weekend r = true) d) = length d)%nat
  ∧ (∀ r, r ∈ d → (day_of_week r ∈ ["Saturday"; "Sunday"]
                    ↔ day_of_week r ∉ ["Monday"; "Tuesday"; "Wednesday"; "Thursday"; "Friday"])).
Proof.
  cbn zeta.
  assert (Hrows : Forall (λ r, is_weekend r = negb (is_weekday r)) (data_cleaning df)).
  { unfold data_cleaning. apply Forall_fmap, Forall_forall. intros e _.
    apply weekday_xor_weekend. }
  pose proof (filter_split_perm is_weekday is_weekend _ Hrows) as Hperm.
  split; [exact Hrows|]. split; [exact Hperm|]. split.
  - rewrite <- length_app. by rewrite Hperm.
  - intros r Hr. rewrite Forall_forall in Hrows. specialize (Hrows r Hr).
    unfold is_weekend, is_weekday in Hrows.
    destruct (decide (day_of_week r ∈ ["Saturday"; "Sunday"])) as [Hin|Hin];
      destruct (decide (day_of_week r ∈ ["Monday"; "Tuesday"; "Wednesday"; "Thursday"; "Friday"]))
        as [Hin'|Hin'].
    + rewrite !bool_decide_eq_true_2 in Hrows by done. discriminate.
    + done.
    + done.
    + rewrite !bool_decide_eq_false_2 in Hrows by done. discriminate.
Qed.

(** * When the run returns *)

Lemma add_group_nonempty `{Key K} (k : K) (v : Q) (s : list (K * Q)) : add_group k v s ≠ [].
Proof. destruct s as [|[k' v'] s]; cbn; [done|]. by destruct (key_cmp k k'). Qed.

Lemma groupby_fold_nonempty `{Key K} (rows : list (option K * Q)) (s : list (K * Q)) :
  fold_left (λ s kv, match kv.1 with
                     | Some k => add_group k kv.2 s
                     | None => s
                     end) rows s ≠ []
  ↔ s ≠ [] ∨ ∃ kv, kv ∈ rows ∧ is_Some kv.1.
Proof.
  revert s. induction rows as [|[[k|] v] rows IH]; intros s; cbn [fold_left fst snd].
  - split; [by left|]. intros [?|(kv & ?%elem_of_nil & _)]; done.
  - rewrite IH. split.
    + intros _. right. exists (Some k, v). split; [by apply elem_of_cons; left|by eexists].
    + intros _. left. apply add_group_nonempty.
  - rewrite IH. split.
    + intros [?|(kv & Hin & Hk)]; [by left|]. right. exists kv.
      split; [by apply elem_of_cons; right|done].
    + intros [?|(kv & Hin & Hk)]; [by left|]. right. exists kv. split; [|done].
      apply elem_of_cons in Hin as [->|Hin]; [by destruct Hk|done].
Qed.

(** A group-by has a group exactly when some row has a key. *)
Lemma groupby_sum_nonempty `{Key K} {A} (key : A → option K) (val : A → Q) (l : list A) :
  groupby_sum (key <$> l) (val <$> l) ≠ [] ↔ ∃ r, r ∈ l ∧ is_Some (key r).
Proof.
  unfold groupby_sum. rewrite groupby_fold_nonempty. split.
  - intros [?|(kv & Hin & Hk)]; [done|].
    apply list_elem_of_lookup in Hin as [i Hi].
    apply lookup_zip_with_Some in Hi as (x & y & -> & Hx & Hy).
    rewrite list_lookup_fmap in Hx. destruct (l !! i) as [r|] eqn:Hr; [|done].
    injection Hx as <-. exists r. split; [|done]. apply list_elem_of_lookup. by exists i.
  - intros (r & Hin & Hk). right. exists (key r, val r). split; [|done].
    apply list_elem_of_lookup in Hin as [i Hi]. apply list_elem_of_lookup. exists i.
    apply lookup_zip_with_Some. exists (key r), (val r).
    by rewrite !list_lookup_fmap, Hi.
Qed.

Lemma idxmax_ok {K} (s : list (K * Q)) : s ≠ [] → ∃ k, idxmax s = Ok k.
Proof. destruct s; [done|]. by eexists. Qed.

Lemma idxmin_ok {K} (s : list (K * Q)) : s ≠ [] → ∃ k, idxmin s = Ok k.
Proof. destruct s; [done|]. by eexists. Qed.

Lemma idxmax_nil_iff {K} (s : list (K * Q)) : idxmax s = Raise ValueError ↔ s = [].
Proof. destruct s; [done|]. split; discriminate. Qed.

(** The run over a combined frame returns a KPI set and a context exactly
    when some play of positive duration has an artist name and some play of
    positive duration has a track name.  Otherwise it raises [ValueError],
    from an [idxmax] over an empty series. *)
Theorem pipeline_returns_iff (df : list Event.t) :
  let named_artist := ∃ e, e ∈ df ∧ 0 < Event.msPlayed e ∧ is_Some (Event.artistName e) in
  let named_track := ∃ e, e ∈ df ∧ 0 < Event.msPlayed e ∧ is_Some (Event.trackName e) in
  (named_artist ∧ named_track →
     ∃ k, calculate_metrics (data_cleaning df) = Ok k ∧ pipeline df = Ok (k, context k))
  ∧ (¬ (named_artist ∧ named_track) → pipeline df = Raise ValueError).
Proof.
  cbn zeta. set (d := data_cleaning df).
  assert (Hrow : ∀ (f : row → option string) (g : Event.t → option string),
    (∀ e, f (derive e) = g e) →
    (∃ r, r ∈ d ∧ is_Some (f r)) ↔ ∃ e, e ∈ df ∧ 0 < Event.msPlayed e ∧ is_Some (g e)).
  { intros f g Hfg. subst d. unfold data_cleaning. split.
    - intros (r & (e & -> & [Hpos He]%list_elem_of_filter)%list_elem_of_fmap & Hk).
      exists e. by rewrite <- Hfg.
    - intros (e & He & Hpos & Hk). exists (derive e). rewrite Hfg. split; [|done].
      apply list_elem_of_fmap. exists e. split; [done|]. by apply list_elem_of_filter. }
  pose proof (Hrow artistName Event.artistName (λ _, eq_refl)) as HA.
  pose proof (Hrow trackName Event.trackName (λ _, eq_refl)) as HT.
  rewrite <- HA, <- HT. clear Hrow HA HT.
  pose proof (groupby_sum_nonempty artistName duration_minutes d) as Hart.
  pose proof (groupby_sum_nonempty trackName duration_minutes d) as Htrk.
  fold (by_artist d) in Hart. fold (by_track d) in Htrk.
  split.
  - intros [HA HT].
    assert (Hd : d ≠ []) by (destruct HA as (r & Hr & _); intros E; rewrite E in Hr; by apply elem_of_nil in Hr).
    assert (Hall : ∀ {K} `{Key K} (key : row → K),
      groupby_sum ((λ r, Some (key r)) <$> d) (duration_minutes <$> d) ≠ []).
    { intros K HK key. apply groupby_sum_nonempty. destruct d as [|r d']; [done|].
      exists r. split; [by apply elem_of_cons; left|by eexists]. }
    destruct (idxmax_ok (by_hour d)) as [h Hh]; [apply Hall|].
    destruct (idxmax_ok (by_day_of_week d)) as [w Hw]; [apply Hall|].
    destruct (idxmax_ok (by_month d)) as [m Hm]; [apply Hall|].
    destruct (idxmin_ok (by_month d)) as [m' Hm']; [apply Hall|].
    destruct (idxmax_ok (by_artist d)) as [a Ha]; [by apply Hart|].
    destruct (idxmax_ok (by_track d)) as [s Hs]; [by apply Htrk|].
    destruct (idxmax_ok (by_month_artist d)) as [ma Hma].
    { apply groupby_sum_nonempty. destruct HA as (r & Hr & [x Hx]). exists r.
      split; [done|]. rewrite Hx. by eexists. }
    destruct (idxmax_ok (by_month_track d)) as [ms Hms].
    { apply groupby_sum_nonempty. destruct HT as (r & Hr & [x Hx]). exists r.
      split; [done|]. rewrite Hx. by eexists. }
    assert (Hp : ∃ p, percentage
        (Z.of_nat (length (filter (λ r, is_fully_played r = true) d)))
        (Z.of_nat (length d)) = Ok p).
    { unfold percentage. destruct (Z.eqb_spec (Z.of_nat (length d)) 0) as [E|]; [|by eexists].
      destruct d; [done|]. cbn in E. lia. }
    destruct Hp as [p Hp].
    assert (Hk : ∃ k, calculate_metrics d = Ok k).
    { unfold calculate_metrics. rewrite Hh, Hw, Hm, Hm', Hp, Ha, Hs, Hma, Hms.
      cbn [mbind result_bind fmap result_fmap]. by eexists. }
    destruct Hk as [k Hk]. exists k. split; [done|].
    unfold pipeline. fold d. unfold kpi_calculations. rewrite Hh, Ha, Hs, Hk. reflexivity.
  - intros Hnot. unfold pipeline. fold d. unfold kpi_calculations.
    destruct (by_hour d) as [|x hs] eqn:Ehs; [reflexivity|].
    cbn [idxmax mbind result_bind].
    destruct (by_artist d) as [|y ar] eqn:Ear; [reflexivity|].
    cbn [idxmax mbind result_bind].
    destruct (by_track d) as [|z tr] eqn:Etr; [reflexivity|].
    exfalso. apply Hnot. split; [by apply Hart|by apply Htrk].
Qed.

(** Plays without an artist name only: the frame is not empty, yet the run
    raises. *)
Lemma pipeline_returns_iff_witness :
  pipeline [Event.mk (mk_timestamp 2023 5 1 10 0 0) None (Some "Episode") 600000]
  = Raise ValueError.
Proof.
  apply pipeline_returns_iff. intros [(e & He & _ & Hart) _].
  apply list_elem_of_singleton in He as ->. by destruct Hart.
Defined.

(** * The labels of the KPI set *)

Lemma arg_best_elem {K} (better : Q → Q → bool) (best : K * Q) (s : list (K * Q)) :
  ∃ v, (arg_best better best s, v) ∈ best :: s.
Proof.
  revert best. induction s as [|kv s IH]; intros [k v]; cbn [arg_best snd fst].
  { exists v. by apply elem_of_cons; left. }
  destruct (IH (if better kv.2 v then kv else (k, v))) as [w Hw]. exists w.
  apply elem_of_cons in Hw as [Hw|Hw].
  - rewrite Hw. destruct (better kv.2 v).
    + apply elem_of_cons; right. by apply elem_of_cons; left.
    + by apply elem_of_cons; left.
  - apply elem_of_cons; right. by apply elem_of_cons; right.
Qed.

Lemma idxmax_elem {K} (s : list (K * Q)) (k : K) :
  idxmax s = Ok k → ∃ v, (k, v) ∈ s.
Proof. destruct s as [|kv s]; [done|]. intros [= <-]. apply arg_best_elem. Qed.

Lemma idxmin_elem {K} (s : list (K * Q)) (k : K) :
  idxmin s = Ok k → ∃ v, (k, v) ∈ s.
Proof. destruct s as [|kv s]; [done|]. intros [= <-]. apply arg_best_elem. Qed.

(** The label that [idxmax] or [idxmin] picks from a group-by is the key of
    a row. *)
Lemma groupby_label_row `{Key K} {A} (key : A → option K) (val : A → Q) (l : list A) (k : K) :
  idxmax (groupby_sum (key <$> l) (val <$> l)) = Ok k
  ∨ idxmin (groupby_sum (key <$> l) (val <$> l)) = Ok k →
  ∃ r, r ∈ l ∧ key r = Some k.
Proof.
  intros Hk.
  assert (Hv : ∃ v, (k, v) ∈ groupby_sum (key <$> l) (val <$> l))
    by (destruct Hk; [by apply idxmax_elem|by apply idxmin_elem]).
  destruct Hv as [v Hv]. apply groupby_sum_keys in Hv.
  apply list_elem_of_fmap in Hv as (r & Hr & Hin). by exists r.
Qed.

Lemma ts_month_range (t : Timestamp) : 1 ≤ ts_month t ≤ 12.
Proof.
  unfold ts_month, ts_date.
  destruct (civil_from_days_spec (t / 86400)) as (y & m & d & -> & _ & Hm & _). exact Hm.
Qed.

Lemma ts_hour_range (t : Timestamp) : 0 ≤ ts_hour t ≤ 23.
Proof. unfold ts_hour. Z.div_mod_to_equations. lia. Qed.

(** The labels of a KPI set come from rows of the frame: the most active
    hour is the hour of a row and lies in 0..23, the highest and the lowest
    month are months of rows and lie in 1..12, the most active day is a day
    name, and the top artist and the top song are the names of rows. *)
Theorem kpi_labels_from_rows (df : list Event.t) (k : KPISet) :
  calculate_metrics (data_cleaning df) = Ok k →
  0 ≤ most_active_hour k ≤ 23
  ∧ 1 ≤ highest_month k ≤ 12
  ∧ 1 ≤ lowest_month k ≤ 12
  ∧ highest_month k = most_active_month k
  ∧ most_active_day k ∈ ["Monday"; "Tuesday"; "Wednesday"; "Thursday"; "Friday";
                          "Saturday"; "Sunday"]
  ∧ (∃ e, e ∈ df ∧ 0 < Event.msPlayed e ∧ ts_hour (Event.endTime e) = most_active_hour k)
  ∧ (∃ e, e ∈ df ∧ 0 < Event.msPlayed e ∧ Event.artistName e = Some (top_artist k))
  ∧ (∃ e, e ∈ df ∧ 0 < Event.msPlayed e ∧ Event.trackName e = Some (top_song k)).
Proof.
  intros Hk.
  apply calculate_metrics_fields in Hk
    as (_ & _ & _ & Hh & Hd & _ & _ & _ & Hhm & Hlm & _ & _ & _ & _ & Ha & Hs & _ & _ & _ & _ & Hmam & _).
  assert (Hrow : ∀ r, r ∈ data_cleaning df →
    ∃ e, e ∈ df ∧ 0 < Event.msPlayed e ∧ r = derive e).
  { intros r (e & -> & [Hpos He]%list_elem_of_filter)%list_elem_of_fmap. by exists e. }
  destruct (groupby_label_row (λ r, Some (hour r)) _ _ _ (or_introl Hh)) as (rh & Hrh & [= Ehh]).
  destruct (groupby_label_row (λ r, Some (day_of_week r)) _ _ _ (or_introl Hd)) as (rd & Hrd & [= Ed]).
  destruct (groupby_label_row (λ r, Some (month r)) _ _ _ (or_introl Hhm)) as (rm & Hrm & [= Em]).
  destruct (groupby_label_row (λ r, Some (month r)) _ _ _ (or_intror Hlm)) as (rl & Hrl & [= El]).
  destruct (groupby_label_row artistName _ _ _ (or_introl Ha)) as (ra & Hra & Ea).
  destruct (groupby_label_row trackName _ _ _ (or_introl Hs)) as (rs & Hrs & Es).
  destruct (Hrow _ Hrh) as (eh & Heh & Hph & ->).
  destruct (Hrow _ Hrd) as (ed & _ & _ & ->).
  destruct (Hrow _ Hrm) as (em & _ & _ & ->).
  destruct (Hrow _ Hrl) as (el & _ & _ & ->).
  destruct (Hrow _ Hra) as (ea & Hea & Hpa & ->).
  destruct (Hrow _ Hrs) as (es & Hes & Hps & ->).
  cbn [derive hour day_of_week month artistName trackName] in *.
  split; [rewrite <- Ehh; apply ts_hour_range|].
  split; [rewrite <- Em; apply ts_month_range|].
  split; [rewrite <- El; apply ts_month_range|].
  split; [congruence|].
  split; [rewrite <- Ed; apply ts_day_name_cases|].
  split; [by exists eh|]. split; [by exists ea|]. by exists es.
Qed.

Lemma kpi_labels_from_rows_witness :
  ∃ k, calculate_metrics (data_cleaning six_plays) = Ok k
       ∧ 0 ≤ most_active_hour k ≤ 23 ∧ 1 ≤ highest_month k ≤ 12.
Proof.
  destruct (calculate_metrics (data_cleaning six_plays)) as [k|] eqn:Hk;
    [|vm_compute in Hk; discriminate].
  exists k. split; [done|].
  destruct (kpi_labels_from_rows six_plays k Hk) as (Hh & Hm & _). by split.
Defined.

(** * The two KPI blocks *)

(** The metrics shown as "Key Metrics" (lines 108-116) are those of the KPI
    set of "Calculate Metrics" (lines 183-238): when the second block
    returns, the first has returned the same nine values. *)
Theorem kpi_blocks_agree (df : list row) (k : KPISet) :
  calculate_metrics df = Ok k →
  kpi_calculations df
  = Ok (KeyMetrics.mk (total_hours k) (unique_artists k) (unique_songs k)
          (most_active_hour k) (avg_listens_per_day k) (avg_listens_per_month k)
          (avg_listens_per_hour k) (top_artist k) (top_song k)).
Proof.
  intros Hk.
  apply calculate_metrics_fields in Hk
    as (-> & -> & -> & Hh & _ & -> & -> & -> & _ & _ & _ & _ & _ & _ & Ha & Hs & _).
  unfold kpi_calculations. rewrite Hh, Ha, Hs. reflexivity.
Qed.

Lemma kpi_blocks_agree_witness :
  ∃ k m, calculate_metrics (data_cleaning six_plays) = Ok k
         ∧ kpi_calculations (data_cleaning six_plays) = Ok m
         ∧ KeyMetrics.top_artist m = top_artist k
         ∧ KeyMetrics.most_active_hour m = most_active_hour k.
Proof.
  destruct (calculate_metrics (data_cleaning six_plays)) as [k|] eqn:Hk;
    [|vm_compute in Hk; discriminate].
  exists k. eexists. split; [done|].
  split; [exact (kpi_blocks_agree _ k Hk)|]. by split.
Defined.

(** * Non-negative sums and positive durations *)

Lemma Qsum_nonneg (l : list Q) : Forall (λ v, (0 <= v)%Q) l → (0 <= Qsum l)%Q.
Proof.
  induction 1 as [|x l Hx _ IH]; [apply Qle_refl|].
  rewrite Qsum_cons. replace 0%Q with (0 + 0)%Q by reflexivity. by apply Qplus_le_compat.
Qed.

Lemma duration_minutes_pos (e : Event.t) :
  0 < Event.msPlayed e → (0 < duration_minutes (derive e))%Q.
Proof.
  intros Hpos. cbn [duration_minutes derive]. apply Qlt_shift_div_l; [reflexivity|].
  unfold Qlt. cbn. lia.
Qed.

(** * Repeated songs *)

Lemma remove_dups_cons_length {A} `{EqDecision A} (x : A) (l : list A) :
  length (remove_dups (x :: l)) = S (length (remove_dups (filter (λ y, y ≠ x) l))).
Proof.
  change (S (length (remove_dups (filter (λ y, y ≠ x) l))))
    with (length (x :: remove_dups (filter (λ y, y ≠ x) l))).
  apply Permutation_length, NoDup_Permutation.
  - apply NoDup_remove_dups.
  - constructor; [|apply NoDup_remove_dups].
    rewrite elem_of_remove_dups, list_elem_of_filter. tauto.
  - intros y. rewrite elem_of_remove_dups, !elem_of_cons, elem_of_remove_dups,
      list_elem_of_filter.
    destruct (decide (y = x)); tauto.
Qed.

Lemma duplicated_from_count (seen col : list (option string)) :
  count_true (duplicated_from seen col)
  + Z.of_nat (length (remove_dups (filter (λ x, x ∉ seen) col)))
  = Z.of_nat (length col).
Proof.
  revert seen. induction col as [|x col IH]; intros seen; [done|].
  cbn [duplicated_from]. rewrite count_true_cons, filter_cons.
  specialize (IH (x :: seen)).
  destruct (decide (x ∈ seen)) as [Hin|Hnin].
  - rewrite bool_decide_eq_true_2 by done. rewrite decide_False by tauto.
    replace (filter (λ y, y ∉ seen) col) with (filter (λ y, y ∉ x :: seen) col).
    { cbn [length]. lia. }
    apply list_filter_iff. intros y. rewrite elem_of_cons.
    split; [tauto|]. intros Hy [->|]; tauto.
  - rewrite bool_decide_eq_false_2 by done. rewrite decide_True by done.
    rewrite remove_dups_cons_length.
    replace (filter (λ y, y ≠ x) (filter (λ y, y ∉ seen) col))
      with (filter (λ y, y ∉ x :: seen) col).
    { cbn [length]. lia. }
    rewrite list_filter_filter. apply list_filter_iff. intros y. rewrite elem_of_cons. tauto.
Qed.

Lemma filter_not_in_nil {A} `{EqDecision A} (l : list A) : filter (λ x, x ∉ []) l = l.
Proof.
  induction l as [|x l IH]; [done|].
  rewrite filter_cons, decide_True by apply not_elem_of_nil. by rewrite IH.
Qed.

Lemma remove_dups_nullable_length (col : list (option string)) :
  length (remove_dups col)
  = (length (remove_dups (omap id col)) + (if bool_decide (None ∈ col) then 1 else 0))%nat.
Proof.
  rewrite <- (length_fmap Some (remove_dups (omap id col))).
  transitivity (length ((Some <$> remove_dups (omap id col))
                        ++ (if bool_decide (None ∈ col) then [None] else []))).
  2: { rewrite length_app. by case_bool_decide. }
  apply Permutation_length, NoDup_Permutation.
  - apply NoDup_remove_dups.
  - apply NoDup_app. split; [|split].
    + apply (NoDup_fmap_2 Some), NoDup_remove_dups.
    + intros y (z & -> & _)%list_elem_of_fmap Hy. case_bool_decide.
      * by apply list_elem_of_singleton in Hy.
      * by apply elem_of_nil in Hy.
    + case_bool_decide; [apply NoDup_singleton|constructor].
  - intros y. rewrite elem_of_remove_dups, elem_of_app, list_elem_of_fmap.
    setoid_rewrite elem_of_remove_dups. setoid_rewrite list_elem_of_omap.
    split.
    + intros Hy. destruct y as [z|].
      * left. exists z. split; [done|]. by exists (Some z).
      * right. rewrite bool_decide_eq_true_2 by done. by apply list_elem_of_singleton.
    + intros [(z & -> & (o & Ho & Hz))|Hy].
      * destruct o; cbn in Hz; [|done]. by injection Hz as ->.
      * case_bool_decide; [|by apply elem_of_nil in Hy].
        by apply list_elem_of_singleton in Hy as ->.
Qed.

(** Every row either brings a track name that has not occurred before or
    counts as a repeat: the repeats, the distinct track names and, when some
    row has no track name, one more for the null value add up to the number
    of rows. *)
Theorem song_repeats_count (df : list row) (k : KPISet) :
  calculate_metrics df = Ok k →
  song_repeatability_count k + unique_songs k
  + (if bool_decide (None ∈ trackName <$> df) then 1 else 0)
  = Z.of_nat (length df)
  ∧ 0 ≤ song_repeatability_count k < Z.of_nat (length df).
Proof.
  intros Hk. pose proof Hk as Hf.
  apply calculate_metrics_fields in Hf
    as (_ & _ & -> & Hh & _ & _ & _ & _ & _ & _ & _ & _ & _ & _ & _ & _ & _ & _ & -> & _).
  pose proof (duplicated_from_count [] (trackName <$> df)) as Hc.
  rewrite filter_not_in_nil in Hc.
  rewrite remove_dups_nullable_length, length_fmap in Hc.
  unfold nunique, duplicated.
  assert (Hne : df ≠ []) by (intros ->; discriminate Hh).
  assert (Hpos : (0 < length (remove_dups (trackName <$> df)))%nat).
  { destruct df as [|r df']; [done|]. rewrite fmap_cons, remove_dups_cons_length. lia. }
  rewrite remove_dups_nullable_length in Hpos.
  split; [case_bool_decide; lia|].
  pose proof (count_true_nonneg (duplicated_from [] (trackName <$> df))).
  case_bool_decide; lia.
Qed.

Lemma song_repeats_count_witness :
  ∃ k, calculate_metrics (data_cleaning six_plays) = Ok k
       ∧ song_repeatability_count k + unique_songs k = 5.
Proof.
  destruct (calculate_metrics (data_cleaning six_plays)) as [k|] eqn:Hk;
    [|vm_compute in Hk; discriminate].
  exists k. split; [done|].
  destruct (song_repeats_count _ k Hk) as [H _].
  rewrite bool_decide_eq_false_2 in H; [exact (eq_trans (eq_sym (Z.add_0_r _)) H)|].
  vm_compute. intros Hin. apply list_elem_of_In in Hin. cbn in Hin.
  intuition discriminate.
Defined.

(** * Session durations *)

Lemma Qmax_fold (l : list Q) (x : Q) :
  let m := fold_left (λ m y, if Qltb m y then y else m) l x in
  (x <= m)%Q ∧ Forall (λ y, (y <= m)%Q) l.
Proof.
  cbn zeta. revert x. induction l as [|y l IH]; intros x; cbn [fold_left].
  { split; [apply Qle_refl|constructor]. }
  destruct (IH (if Qltb x y then y else x)) as [Hm Hl].
  destruct (Qltb x y) eqn:Hxy.
  - apply Qltb_lt in Hxy. split; [|by constructor].
    eapply Qle_trans; [by apply Qlt_le_weak|done].
  - apply Qltb_ge in Hxy. split; [done|]. constructor; [|done].
    by eapply Qle_trans.
Qed.

Lemma Qmin_fold (l : list Q) (x : Q) :
  let m := fold_left (λ m y, if Qltb y m then y else m) l x in
  (m <= x)%Q ∧ Forall (λ y, (m <= y)%Q) l.
Proof.
  cbn zeta. revert x. induction l as [|y l IH]; intros x; cbn [fold_left].
  { split; [apply Qle_refl|constructor]. }
  destruct (IH (if Qltb y x then y else x)) as [Hm Hl].
  destruct (Qltb y x) eqn:Hxy.
  - apply Qltb_lt in Hxy. split; [|by constructor].
    eapply Qle_trans; [done|by apply Qlt_le_weak].
  - apply Qltb_ge in Hxy. split; [done|]. constructor; [|done].
    by eapply Qle_trans.
Qed.

(** On a frame for which "Calculate Metrics" returns, the shortest, the
    average and the longest session duration are defined (none is [NaN]),
    and the shortest is at most the longest. *)
Theorem session_durations_ordered (df : list row) (k : KPISet) :
  calculate_metrics df = Ok k →
  ∃ lo avg hi,
    shortest_session k = Some lo ∧ avg_session_duration k = Some avg
    ∧ longest_session k = Some hi
    ∧ (lo <= hi)%Q.
Proof.
  intros Hk.
  apply calculate_metrics_fields in Hk
    as (_ & _ & _ & Hh & _ & _ & _ & _ & _ & _ & _ & _ & Hlong & Hshort & _ & _ & _ & Havg & _).
  rewrite session_lengths_first_eq in Hlong, Hshort.
  assert (Hne : session_lengths df ≠ []).
  { unfold session_lengths.
    pose proof (session_length (endTime <$> df)) as Hlen.
    destruct df as [|r df']; [discriminate Hh|].
    intros E.
    pose proof (groupby_fold_nonempty
      (zip (Some <$> session (endTime <$> r :: df')) (duration_minutes <$> r :: df')) []) as Hn.
    destruct Hn as [_ Hn]. apply Hn; [|done]. right.
    rewrite fmap_cons in Hlen. destruct (session (endTime r :: (endTime <$> df'))) as [|i ids] eqn:Hs;
      [done|].
    rewrite fmap_cons, Hs. exists (Some i, duration_minutes r).
    split; [by apply elem_of_cons; left|by eexists]. }
  set (l := snd <$> session_lengths df) in *.
  assert (Hl : l ≠ []) by (subst l; by destruct (session_lengths df)).
  destruct l as [|x l'] eqn:El; [done|].
  cbn [Qmax_list Qmin_list] in Hlong, Hshort.
  destruct (Qmax_fold l' x) as [Hx1 Hmax]. destruct (Qmin_fold l' x) as [Hx2 Hmin].
  cbn zeta in *.
  set (hi := fold_left (λ m y, if Qltb m y then y else m) l' x) in *.
  set (lo := fold_left (λ m y, if Qltb y m then y else m) l' x) in *.
  exists lo, (Qsum (x :: l') / inject_Z (Z.of_nat (length (x :: l'))))%Q, hi.
  split; [done|]. split; [by rewrite Havg|]. split; [done|].
  by eapply Qle_trans.
Qed.

Lemma session_durations_ordered_witness :
  ∃ k lo hi, calculate_metrics (data_cleaning six_plays) = Ok k
    ∧ shortest_session k = Some lo ∧ longest_session k = Some hi ∧ (lo <= hi)%Q.
Proof.
  destruct (calculate_metrics (data_cleaning six_plays)) as [k|] eqn:Hk;
    [|vm_compute in Hk; discriminate].
  destruct (session_durations_ordered _ k Hk) as (lo & avg & hi & Hlo & _ & Hhi & H1).
  exists k, lo, hi. split; [reflexivity|]. split; [exact Hlo|]. split; [exact Hhi|exact H1].
Defined.

(** * Group-by: ascending distinct labels, and per-label totals *)

#[global] Instance Z_lawful : LawfulKey Z.
Proof.
  split; unfold key_cmp, Z_key.
  - intros x y. apply Z.compare_eq.
  - apply Z.compare_refl.
  - intros x y H. apply Z.compare_gt_iff in H. by apply Z.compare_lt_iff.
  - intros x y z H1 H2. rewrite Z.compare_lt_iff in *. lia.
Qed.

Lemma ascii_compare_refl (a : ascii) : Ascii.compare a a = Eq.
Proof. unfold Ascii.compare. apply N.compare_refl. Qed.

Lemma ascii_compare_trans (a b c : ascii) :
  Ascii.compare a b = Lt → Ascii.compare b c = Lt → Ascii.compare a c = Lt.
Proof.
  unfold Ascii.compare. rewrite !N.compare_lt_iff. apply N.lt_trans.
Qed.

Lemma string_compare_refl (s : string) : String.compare s s = Eq.
Proof. induction s as [|a s IH]; cbn; [done|]. by rewrite ascii_compare_refl. Qed.

Lemma string_compare_trans (s1 s2 s3 : string) :
  String.compare s1 s2 = Lt → String.compare s2 s3 = Lt → String.compare s1 s3 = Lt.
Proof.
  revert s2 s3. induction s1 as [|a s1 IH]; intros [|b s2] [|c s3]; cbn; try done.
  destruct (Ascii.compare a b) eqn:Hab; try done;
    destruct (Ascii.compare b c) eqn:Hbc; try done.
  - apply Ascii.compare_eq_iff in Hab as ->. rewrite Hbc. apply IH.
  - apply Ascii.compare_eq_iff in Hab as ->. by rewrite Hbc.
  - apply Ascii.compare_eq_iff in Hbc as <-. by rewrite Hab.
  - by rewrite (ascii_compare_trans a b c).
Qed.

#[global] Instance string_lawful : LawfulKey string.
Proof.
  split; unfold key_cmp, string_key.
  - apply String.compare_eq_iff.
  - apply string_compare_refl.
  - intros x y H. rewrite String.compare_antisym, H. reflexivity.
  - apply string_compare_trans.
Qed.

#[global] Instance pair_lawful `{LawfulKey A, LawfulKey B} : LawfulKey (A * B).
Proof.
  split; unfold key_cmp, pair_key.
  - intros [a b] [a' b']. cbn. destruct (key_cmp a a') eqn:Ha; try done.
    intros Hb. by rewrite (key_cmp_eq _ _ Ha), (key_cmp_eq _ _ Hb).
  - intros [a b]. cbn. rewrite key_cmp_refl. apply key_cmp_refl.
  - intros [a b] [a' b']. cbn. destruct (key_cmp a a') eqn:Ha; try done.
    + apply key_cmp_eq in Ha as ->. rewrite key_cmp_refl. apply key_cmp_gt.
    + intros _. by rewrite (key_cmp_gt _ _ Ha).
  - intros [a b] [a' b'] [a'' b'']. cbn.
    destruct (key_cmp a a') eqn:Ea; try done;
      destruct (key_cmp a' a'') eqn:Eb; try done.
    + apply key_cmp_eq in Ea as ->. rewrite Eb. apply key_cmp_trans.
    + apply key_cmp_eq in Ea as ->. by rewrite Eb.
    + apply key_cmp_eq in Eb as <-. by rewrite Ea.
    + by rewrite (key_cmp_trans _ _ _ Ea Eb).
Qed.

Section groupby.
Context `{LawfulKey K} `{EqDecision K}.

Lemma add_group_sorted (k : K) (v : Q) (s : list (K * Q)) :
  StronglySorted key_lt s → StronglySorted key_lt (add_group k v s).
Proof.
  induction 1 as [|[k' v'] s Hs IH Hall]; cbn [add_group].
  { repeat constructor. }
  destruct (key_cmp k k') eqn:Hc.
  - apply key_cmp_eq in Hc as ->. by constructor.
  - constructor; [by constructor|]. constructor; [done|].
    eapply Forall_impl; [exact Hall|]. intros x Hx. unfold key_lt in *. cbn in *.
    by eapply key_cmp_trans.
  - constructor; [done|]. apply Forall_forall. intros [k0 v0] Hin.
    apply add_group_keys in Hin as [->|[w Hw]].
    + unfold key_lt. cbn. by apply key_cmp_gt.
    + rewrite Forall_forall in Hall. apply (Hall _ Hw).
Qed.

Lemma groupby_sum_sorted (keys : list (option K)) (vals : list Q) :
  StronglySorted key_lt (groupby_sum keys vals).
Proof.
  unfold groupby_sum. generalize (zip keys vals). intros rows.
  assert (Hgen : ∀ s, StronglySorted key_lt s →
    StronglySorted key_lt (fold_left (λ s kv, match kv.1 with
                                              | Some k => add_group k kv.2 s
                                              | None => s
                                              end) rows s)).
  { induction rows as [|[[k|] v] rows IH]; intros s Hs; cbn [fold_left fst snd];
      [done| |by apply IH].
    by apply IH, add_group_sorted. }
  apply Hgen. constructor.
Qed.

Lemma sorted_labels_NoDup (s : list (K * Q)) :
  StronglySorted key_lt s → NoDup s.*1.
Proof.
  induction 1 as [|[k v] s Hs IH Hall]; [constructor|].
  rewrite fmap_cons. constructor; [|done].
  intros ([k' v'] & Hk & Hin)%list_elem_of_fmap. cbn in Hk. subst k'.
  rewrite Forall_forall in Hall. specialize (Hall _ Hin).
  unfold key_lt in Hall. cbn in Hall. by rewrite key_cmp_refl in Hall.
Qed.

Lemma label_total_cons (k : K) (x : K * Q) (s : list (K * Q)) :
  (label_total k (x :: s) == (if decide (x.1 = k) then x.2 else 0) + label_total k s)%Q.
Proof.
  unfold label_total. rewrite filter_cons. destruct (decide (x.1 = k)).
  - rewrite fmap_cons, Qsum_cons. reflexivity.
  - ring.
Qed.

Lemma label_total_add_group (k0 k : K) (v : Q) (s : list (K * Q)) :
  (label_total k0 (add_group k v s)
   == label_total k0 s + (if decide (k = k0) then v else 0))%Q.
Proof.
  induction s as [|[k' v'] s IH]; cbn [add_group].
  { rewrite label_total_cons. cbn [fst snd]. ring. }
  destruct (key_cmp k k') eqn:Hc.
  - apply key_cmp_eq in Hc as ->. rewrite !label_total_cons. cbn [fst snd].
    destruct (decide (k' = k0)); ring.
  - rewrite !label_total_cons. cbn [fst snd]. ring.
  - rewrite !label_total_cons, IH. ring.
Qed.

Lemma label_total_absent (k : K) (s : list (K * Q)) :
  k ∉ s.*1 → (label_total k s == 0)%Q.
Proof.
  induction s as [|[k' v'] s IH]; intros Hk; [reflexivity|].
  rewrite fmap_cons, not_elem_of_cons in Hk. destruct Hk as [Hne Hk].
  rewrite label_total_cons, IH by done. cbn [fst snd].
  rewrite decide_False by done. ring.
Qed.

Lemma label_total_NoDup (k : K) (v : Q) (s : list (K * Q)) :
  NoDup s.*1 → (k, v) ∈ s → (label_total k s == v)%Q.
Proof.
  induction s as [|[k' v'] s IH]; intros Hnd Hin; [by apply elem_of_nil in Hin|].
  rewrite fmap_cons in Hnd. apply NoDup_cons in Hnd as [Hk' Hnd].
  rewrite label_total_cons. cbn [fst snd].
  apply elem_of_cons in Hin as [[= <- <-]|Hin].
  - rewrite decide_True by done. rewrite label_total_absent by done. ring.
  - rewrite decide_False.
    + rewrite IH by done. ring.
    + intros ->. apply Hk'. apply list_elem_of_fmap. by exists (k, v).
Qed.

Lemma label_total_fold (k0 : K) (rows : list (option K * Q)) (s : list (K * Q)) :
  (label_total k0 (fold_left (λ s kv, match kv.1 with
                                      | Some k => add_group k kv.2 s
                                      | None => s
                                      end) rows s)
   == label_total k0 s
      + Qsum (snd <$> filter (λ kv : option K * Q, kv.1 = Some k0) rows))%Q.
Proof.
  revert s. induction rows as [|[[k|] v] rows IH]; intros s; cbn [fold_left fst snd].
  - change (Qsum (snd <$> filter _ [])) with 0%Q. ring.
  - rewrite IH, label_total_add_group, filter_cons. cbn [fst].
    destruct (decide (k = k0)) as [->|Hne].
    + rewrite decide_True by done. rewrite fmap_cons, Qsum_cons. cbn [snd]. ring.
    + rewrite decide_False by congruence. ring.
  - rewrite IH, filter_cons. cbn [fst]. rewrite decide_False by done. reflexivity.
Qed.

Lemma add_group_keeps (k0 k : K) (v : Q) (s : list (K * Q)) :
  k0 = k ∨ k0 ∈ s.*1 → k0 ∈ (add_group k v s).*1.
Proof.
  induction s as [|[k' v'] s IH]; cbn [add_group].
  { intros [->|Hin]; [|by apply elem_of_nil in Hin]. by apply elem_of_cons; left. }
  rewrite fmap_cons. cbn [fst]. destruct (key_cmp k k') eqn:Hc.
  - apply key_cmp_eq in Hc as ->. rewrite fmap_cons. cbn [fst].
    rewrite !elem_of_cons. tauto.
  - rewrite !fmap_cons. cbn [fst]. rewrite !elem_of_cons. tauto.
  - rewrite fmap_cons. cbn [fst]. rewrite !elem_of_cons. intros [->|[->|Hin]].
    + right. apply IH. by left.
    + by left.
    + right. apply IH. by right.
Qed.

Lemma groupby_fold_keeps (k0 : K) (rows : list (option K * Q)) (s : list (K * Q)) :
  k0 ∈ s.*1 ∨ Some k0 ∈ rows.*1 →
  k0 ∈ (fold_left (λ s kv, match kv.1 with
                          | Some k => add_group k kv.2 s
                          | None => s
                          end) rows s).*1.
Proof.
  revert s. induction rows as [|[[k|] v] rows IH]; intros s; cbn [fold_left fst snd].
  - intros [?|Hin]; [done|]. by apply elem_of_nil in Hin.
  - rewrite fmap_cons. cbn [fst]. rewrite elem_of_cons. intros [Hin|[[= ->]|Hin]].
    + apply IH. left. apply add_group_keeps. by right.
    + apply IH. left. apply add_group_keeps. by left.
    + apply IH. by right.
  - rewrite fmap_cons. cbn [fst]. rewrite elem_of_cons. intros [Hin|[[=]|Hin]].
    + apply IH. by left.
    + apply IH. by right.
Qed.

(** A group-by has one entry per key that occurs in a row, in strictly
    ascending order of the keys, and the value of an entry is the sum of
    the values of the rows with that key. *)
Lemma groupby_sum_spec {A} (key : A → option K) (val : A → Q) (l : list A) :
  let s := groupby_sum (key <$> l) (val <$> l) in
  StronglySorted key_lt s
  ∧ NoDup s.*1
  ∧ (∀ k, k ∈ s.*1 ↔ ∃ r, r ∈ l ∧ key r = Some k)
  ∧ (∀ k v, (k, v) ∈ s → (v == Qsum (val <$> filter (λ r, key r = Some k) l))%Q).
Proof.
  cbn zeta. pose proof (groupby_sum_sorted (key <$> l) (val <$> l)) as Hs.
  pose proof (sorted_labels_NoDup _ Hs) as Hnd.
  split; [done|]. split; [done|]. split.
  - intros k. split.
    + intros ([k' v] & -> & Hin)%list_elem_of_fmap. cbn.
      apply groupby_sum_keys in Hin. apply list_elem_of_fmap in Hin as (r & Hr & Hin).
      by exists r.
    + intros (r & Hin & Hk). unfold groupby_sum. apply groupby_fold_keeps. right.
      apply list_elem_of_fmap. exists (key r, val r). split; [by rewrite Hk|].
      apply list_elem_of_lookup in Hin as [i Hi]. apply list_elem_of_lookup. exists i.
      apply lookup_zip_with_Some. exists (key r), (val r).
      by rewrite !list_lookup_fmap, Hi.
  - intros k v Hin. rewrite <- (label_total_NoDup k v _ Hnd Hin).
    unfold groupby_sum. rewrite label_total_fold.
    change (label_total k []) with 0%Q. rewrite Qplus_0_l.
    clear. induction l as [|r l IH]; [reflexivity|].
    rewrite !fmap_cons. cbn [zip zip_with]. rewrite !filter_cons. cbn [fst].
    destruct (decide (key r = Some k)).
    * rewrite !fmap_cons, !Qsum_cons. cbn [snd]. by rewrite IH.
    * exact IH.
Qed.
End groupby.

(** Each entry of the per-artist, per-track, per-hour, per-month and
    per-(month, artist) sums is the total of the minutes of the rows with
    that label, and no label occurs twice. *)
Theorem group_totals (df : list row) :
  (∀ a v, (a, v) ∈ by_artist df →
     (v == Qsum (duration_minutes <$> filter (λ r, artistName r = Some a) df))%Q)
  ∧ (∀ t v, (t, v) ∈ by_track df →
     (v == Qsum (duration_minutes <$> filter (λ r, trackName r = Some t) df))%Q)
  ∧ (∀ h v, (h, v) ∈ by_hour df →
     (v == Qsum (duration_minutes <$> filter (λ r, hour r = h) df))%Q)
  ∧ (∀ m v, (m, v) ∈ by_month df →
     (v == Qsum (duration_minutes <$> filter (λ r, month r = m) df))%Q)
  ∧ (∀ m a v, (m, a, v) ∈ by_month_artist df →
     (v == Qsum (duration_minutes
                   <$> filter (λ r, month r = m ∧ artistName r = Some a) df))%Q)
  ∧ NoDup (by_artist df).*1 ∧ NoDup (by_track df).*1 ∧ NoDup (by_hour df).*1
  ∧ NoDup (by_month df).*1 ∧ NoDup (by_month_artist df).*1
  ∧ (∀ a, a ∈ (by_artist df).*1 ↔ ∃ r, r ∈ df ∧ artistName r = Some a).
Proof.
  destruct (groupby_sum_spec artistName duration_minutes df) as (_ & Hnd1 & Hk1 & Hv1).
  destruct (groupby_sum_spec trackName duration_minutes df) as (_ & Hnd2 & _ & Hv2).
  destruct (groupby_sum_spec (λ r, Some (hour r)) duration_minutes df) as (_ & Hnd3 & _ & Hv3).
  destruct (groupby_sum_spec (λ r, Some (month r)) duration_minutes df) as (_ & Hnd4 & _ & Hv4).
  destruct (groupby_sum_spec (λ r, a ← artistName r; Some (month r, a)) duration_minutes df)
    as (_ & Hnd5 & _ & Hv5).
  split; [exact Hv1|]. split; [exact Hv2|].
  split; [|split; [|split]].
  - intros h v Hin. rewrite (Hv3 h v Hin).
    rewrite (list_filter_iff (λ r, hour r = h) (λ r, Some (hour r) = Some h)); [reflexivity|].
    intros r. split; [by intros ->|by intros [= ->]].
  - intros m v Hin. rewrite (Hv4 m v Hin).
    rewrite (list_filter_iff (λ r, month r = m) (λ r, Some (month r) = Some m)); [reflexivity|].
    intros r. split; [by intros ->|by intros [= ->]].
  - intros m a v Hin. rewrite (Hv5 (m, a) v Hin).
    rewrite (list_filter_iff (λ r, month r = m ∧ artistName r = Some a)
               (λ r, (a ← artistName r; Some (month r, a)) = Some (m, a))); [reflexivity|].
    intros r. destruct (artistName r) as [a'|]; cbn.
    + split; [by intros [-> [= ->]]|by intros [= -> ->]].
    + split; [by intros [_ ?]|done].
  - done.
Qed.

Lemma group_totals_witness :
  ∃ v, ("A", v) ∈ by_artist (data_cleaning two_months) ∧ (v == 11)%Q.
Proof.
  destruct (group_totals (data_cleaning two_months)) as (Hv & _).
  eexists. split.
  - vm_compute. apply list_elem_of_lookup. by exists 0%nat.
  - rewrite Hv; [|vm_compute; apply list_elem_of_lookup; by exists 0%nat].
    reflexivity.
Defined.

(** * Rankings over floats *)

Lemma add_group_labels `{Key K} (k : K) (v : Q) (s : list (K * Q)) :
  (add_group k v s).*1 = add_label k s.*1.
Proof.
  induction s as [|[k' v'] s IH]; [done|]. cbn.
  destruct (key_cmp k k'); cbn; [done|done|]. by rewrite IH.
Qed.

(** The labels of the exact series are the labels of the group-by. *)
Lemma groupby_sum_labels `{Key K} {A} (key : A → option K) (val : A → Q) (l : list A) :
  (groupby_sum (key <$> l) (val <$> l)).*1 = group_labels (key <$> l).
Proof.
  unfold groupby_sum, group_labels.
  change (@nil K) with ([] : list (K * Q)).*1.
  generalize ([] : list (K * Q)). induction l as [|r l IH]; intros s; [done|].
  cbn. rewrite IH. destruct (key r) as [k|]; cbn; [|done]. by rewrite add_group_labels.
Qed.

Lemma sorted_labels `{Key K} (s : list (K * Q)) :
  StronglySorted key_lt s → StronglySorted label_lt s.*1.
Proof.
  induction 1 as [|x s _ IH Hall]; cbn; constructor; [done|].
  apply Forall_fmap. exact Hall.
Qed.

Lemma group_labels_spec `{LawfulKey K} `{EqDecision K} {A} (key : A → option K) (l : list A) :
  StronglySorted label_lt (group_labels (key <$> l))
  ∧ NoDup (group_labels (key <$> l))
  ∧ ∀ k, k ∈ group_labels (key <$> l) ↔ ∃ r, r ∈ l ∧ key r = Some k.
Proof.
  destruct (groupby_sum_spec key (λ _, 0%Q) l) as (Hs & Hnd & Hin & _).
  rewrite <- (groupby_sum_labels key (λ _, 0%Q) l).
  split; [by apply sorted_labels|]. split; [exact Hnd|exact Hin].
Qed.

Lemma Qltb_trans (x y z : Q) : Qltb x y = true → Qltb y z = true → Qltb x z = true.
Proof. rewrite !Qltb_lt. apply Qlt_trans. Qed.

Lemma Qltb_cotrans (x y z : Q) : Qltb x z = true → Qltb x y = true ∨ Qltb y z = true.
Proof.
  rewrite !Qltb_lt. intros Hxz.
  destruct (Qlt_le_dec x y) as [Hxy|Hyx]; [by left|].
  right. by eapply Qle_lt_trans.
Qed.

Lemma Qltb_irrefl (x : Q) : Qltb x x = false.
Proof. apply Qltb_ge, Qle_refl. Qed.

Section float_ranking_facts.
Context {F : Type}.
Variable to_minutes : Z → F.
Variable fsum : list F → F.
Variable flt : F → F → bool.
Hypothesis flt_irrefl : ∀ x, flt x x = false.
Hypothesis flt_trans : ∀ x y z, flt x y = true → flt y z = true → flt x z = true.
Hypothesis flt_cotrans : ∀ x y z, flt x z = true → flt x y = true ∨ flt y z = true.

Lemma flt_asym (x y : F) : flt x y = true → flt y x = false.
Proof using flt_irrefl flt_trans.
  intros Hxy. destruct (flt y x) eqn:Hyx; [|done].
  by rewrite <- (flt_irrefl x), <- (flt_trans _ _ _ Hxy Hyx).
Qed.

Lemma float_arg_max_spec {K} (best : K * F) (s : list (K * F)) :
  (float_arg_max flt best s = best ∧ Forall (λ x, flt best.2 x.2 = false) s)
  ∨ ∃ l1 kv l2, s = (l1 ++ kv :: l2)%list
      ∧ float_arg_max flt best s = kv
      ∧ flt best.2 kv.2 = true
      ∧ Forall (λ x, flt x.2 kv.2 = true) l1
      ∧ Forall (λ x, flt kv.2 x.2 = false) l2.
Proof using flt_trans flt_cotrans.
  revert best. induction s as [|kv0 s IH]; intros best; [left; by split|].
  cbn [float_arg_max]. destruct (flt best.2 kv0.2) eqn:Hb.
  - right. destruct (IH kv0) as [[E Hall]|(l1 & kv & l2 & -> & E & Hlt & Hl1 & Hl2)].
    + exists [], kv0, s. by rewrite E.
    + exists (kv0 :: l1), kv, l2. rewrite E. split; [done|]. split; [done|].
      split; [by eapply flt_trans|]. split; [by constructor|done].
  - destruct (IH best) as [[E Hall]|(l1 & kv & l2 & -> & E & Hlt & Hl1 & Hl2)].
    + left. rewrite E. split; [done|]. by constructor.
    + right. exists (kv0 :: l1), kv, l2. rewrite E. split; [done|]. split; [done|].
      split; [done|]. split; [|done]. constructor; [|done].
      destruct (flt_cotrans _ kv0.2 _ Hlt) as [H|H]; [by rewrite Hb in H|done].
Qed.

(** [idxmax] reports the first entry that no entry exceeds: the entries
    before it are smaller, the entries after it are not larger. *)
Lemma float_idxmax_first_max {K} (s : list (K * F)) :
  s ≠ [] →
  ∃ l1 k v l2, s = (l1 ++ (k, v) :: l2)%list
    ∧ float_idxmax flt s = Ok k
    ∧ Forall (λ x, flt x.2 v = true) l1
    ∧ Forall (λ x, flt v x.2 = false) l2.
Proof using flt_trans flt_cotrans.
  destruct s as [|kv0 s]; [done|]. intros _. cbn [float_idxmax].
  destruct (float_arg_max_spec kv0 s) as [[E Hall]|(l1 & kv & l2 & -> & E & Hlt & Hl1 & Hl2)].
  - exists [], kv0.1, kv0.2, s. rewrite E. by destruct kv0.
  - exists (kv0 :: l1), kv.1, kv.2, l2. rewrite E. destruct kv as [k v].
    split; [done|]. split; [done|]. split; [by constructor|done].
Qed.

Lemma float_groupby_sum_labels `{Key K} `{EqDecision K} (key : row → option K) (df : list row) :
  (float_groupby_sum to_minutes fsum key df).*1 = group_labels (key <$> df).
Proof.
  unfold float_groupby_sum. rewrite <- list_fmap_compose. apply list_fmap_id.
Qed.

(** A ranking of the groups of a key: the labels are the distinct non-null
    keys of the rows, in ascending order; the value of a label is the float
    sum of the minutes of its rows, in row order; [idxmax] raises on the
    empty series and otherwise reports the first label whose value no value
    exceeds. *)
Lemma float_ranking_spec `{LawfulKey K} `{EqDecision K} (key : row → option K) (df : list row) :
  let series := float_groupby_sum to_minutes fsum key df in
  StronglySorted label_lt series.*1
  ∧ NoDup series.*1
  ∧ (∀ k, k ∈ series.*1 ↔ ∃ r, r ∈ df ∧ key r = Some k)
  ∧ (∀ k v, (k, v) ∈ series →
       v = fsum ((λ r, to_minutes (msPlayed r)) <$> filter (λ r, key r = Some k) df))
  ∧ (series = [] → float_idxmax flt series = Raise ValueError)
  ∧ (series ≠ [] →
       ∃ before k v after, series = (before ++ (k, v) :: after)%list
         ∧ float_idxmax flt series = Ok k
         ∧ Forall (λ g, flt g.2 v = true) before
         ∧ Forall (λ g, flt v g.2 = false) after
         ∧ ∀ g, g ∈ series → flt v g.2 = false ∧ (flt g.2 v = false → key_cmp k g.1 ≠ Gt)).
Proof using flt_irrefl flt_trans flt_cotrans.
  cbn zeta. rewrite float_groupby_sum_labels.
  destruct (group_labels_spec key df) as (Hs & Hnd & Hin).
  split; [exact Hs|]. split; [exact Hnd|]. split; [exact Hin|]. split; [|split].
  - intros k v (k' & [= -> ->] & _)%list_elem_of_fmap. done.
  - by intros ->.
  - intros Hne.
    destruct (float_idxmax_first_max _ Hne) as (l1 & k & v & l2 & E & Hidx & Hl1 & Hl2).
    exists l1, k, v, l2. split; [exact E|]. split; [exact Hidx|].
    split; [exact Hl1|]. split; [exact Hl2|].
    assert (Hsorted : StronglySorted label_lt ((l1 ++ (k, v) :: l2)%list).*1).
    { rewrite <- E, float_groupby_sum_labels. exact Hs. }
    rewrite E. intros g [Hg|[->|Hg]%elem_of_cons]%elem_of_app.
    + rewrite Forall_forall in Hl1. specialize (Hl1 g Hg). cbn in Hl1.
      split; [by apply flt_asym|]. intros Hc. by rewrite Hl1 in Hc.
    + cbn. split; [apply flt_irrefl|]. intros _. by rewrite key_cmp_refl.
    + rewrite Forall_forall in Hl2. specialize (Hl2 g Hg). cbn in Hl2.
      split; [exact Hl2|]. intros _.
      rewrite fmap_app, fmap_cons in Hsorted.
      apply StronglySorted_app_1_r, StronglySorted_inv in Hsorted as [_ Hall].
      rewrite Forall_forall in Hall. specialize (Hall g.1).
      unfold label_lt in Hall. cbn in Hall. rewrite Hall; [done|].
      apply list_elem_of_fmap. by exists g.
Qed.

(** C4 (amended): the monthly top artist is one name for the whole frame.
    The series of line 220 has one entry per (month, artist) pair of the
    rows, in ascending order of month and then of name; the value of an
    entry is the float sum of the minutes of the rows of that month and
    artist.  On an empty series [idxmax] raises [ValueError].  Otherwise the
    KPI is the artist of the first entry, in this order, whose value no
    entry of any month exceeds: the entries before it are smaller and the
    entries after it are not larger.  The same holds for the monthly top
    track (line 221). *)
Theorem monthly_top_is_overall_argmax (df : list row) :
  let artists := float_by_month_artist to_minutes fsum df in
  let tracks := float_by_month_track to_minutes fsum df in
  StronglySorted label_lt artists.*1
  ∧ (∀ m a, (m, a) ∈ artists.*1 ↔ ∃ r, r ∈ df ∧ month r = m ∧ artistName r = Some a)
  ∧ (∀ m a v, (m, a, v) ∈ artists →
       v = fsum ((λ r, to_minutes (msPlayed r))
                   <$> filter (λ r, month r = m ∧ artistName r = Some a) df))
  ∧ (artists = [] → float_monthly_top_artist to_minutes fsum flt df = Raise ValueError)
  ∧ (artists ≠ [] →
       ∃ before m a v after, artists = (before ++ (m, a, v) :: after)%list
         ∧ float_monthly_top_artist to_minutes fsum flt df = Ok a
         ∧ Forall (λ g, flt g.2 v = true) before
         ∧ Forall (λ g, flt v g.2 = false) after
         ∧ ∀ g, g ∈ artists → flt v g.2 = false)
  ∧ StronglySorted label_lt tracks.*1
  ∧ (∀ m t, (m, t) ∈ tracks.*1 ↔ ∃ r, r ∈ df ∧ month r = m ∧ trackName r = Some t)
  ∧ (∀ m t v, (m, t, v) ∈ tracks →
       v = fsum ((λ r, to_minutes (msPlayed r))
                   <$> filter (λ r, month r = m ∧ trackName r = Some t) df))
  ∧ (tracks = [] → float_monthly_top_song to_minutes fsum flt df = Raise ValueError)
  ∧ (tracks ≠ [] →
       ∃ before m t v after, tracks = (before ++ (m, t, v) :: after)%list
         ∧ float_monthly_top_song to_minutes fsum flt df = Ok t
         ∧ Forall (λ g, flt g.2 v = true) before
         ∧ Forall (λ g, flt v g.2 = false) after
         ∧ ∀ g, g ∈ tracks → flt v g.2 = false).
Proof using flt_irrefl flt_trans flt_cotrans.
  cbn zeta.
  assert (Hgen : ∀ name : row → option string,
    let series := float_groupby_sum to_minutes fsum (λ r, a ← name r; Some (month r, a)) df in
    StronglySorted label_lt series.*1
    ∧ (∀ m a, (m, a) ∈ series.*1 ↔ ∃ r, r ∈ df ∧ month r = m ∧ name r = Some a)
    ∧ (∀ m a v, (m, a, v) ∈ series →
         v = fsum ((λ r, to_minutes (msPlayed r))
                     <$> filter (λ r, month r = m ∧ name r = Some a) df))
    ∧ (series = [] → snd <$> float_idxmax flt series = Raise ValueError)
    ∧ (series ≠ [] →
         ∃ before m a v after, series = (before ++ (m, a, v) :: after)%list
           ∧ snd <$> float_idxmax flt series = Ok a
           ∧ Forall (λ g, flt g.2 v = true) before
           ∧ Forall (λ g, flt v g.2 = false) after
           ∧ ∀ g, g ∈ series → flt v g.2 = false)).
  { intros name. cbn zeta.
    assert (Hkey : ∀ r m a, (a' ← name r; Some (month r, a')) = Some (m, a)
                            ↔ month r = m ∧ name r = Some a).
    { intros r m a. destruct (name r) as [a'|]; cbn.
      - split; [by intros [= -> ->]|by intros [-> [= ->]]].
      - split; [done|by intros [_ ?]]. }
    destruct (float_ranking_spec (λ r, a ← name r; Some (month r, a)) df)
      as (Hs & _ & Hin & Hv & Hnil & Hmax). cbn zeta in *.
    split; [exact Hs|]. split; [|split; [|split]].
    - intros m a. rewrite Hin. by setoid_rewrite Hkey.
    - intros m a v Hg. rewrite (Hv _ _ Hg). do 2 f_equal.
      apply list_filter_iff. intros r. apply Hkey.
    - intros E. by rewrite (Hnil E).
    - intros Hne. destruct (Hmax Hne) as (l1 & [m a] & v & l2 & E & Hidx & Hl1 & Hl2 & Hall).
      exists l1, m, a, v, l2. split; [exact E|]. split; [by rewrite Hidx|].
      split; [exact Hl1|]. split; [exact Hl2|]. intros g Hg. by apply Hall. }
  destruct (Hgen artistName) as (A1 & A2 & A3 & A4 & A5).
  destruct (Hgen trackName) as (T1 & T2 & T3 & T4 & T5).
  unfold float_monthly_top_artist, float_monthly_top_song,
    float_by_month_artist, float_by_month_track.
  split; [exact A1|]. split; [exact A2|]. split; [exact A3|]. split; [exact A4|].
  split; [exact A5|]. split; [exact T1|]. split; [exact T2|]. split; [exact T3|].
  split; [exact T4|exact T5].
Qed.

(** idxmax breaks ties towards the first label in ascending order: no hour
    (month, artist, track) has a larger sum than the reported one, and among
    those whose sum is not smaller the reported hour and month are the
    smallest and the reported artist and track are the first in the order of
    their bytes. *)
Theorem ties_go_to_the_first_label (df : list row) :
  (∀ h, float_most_active_hour to_minutes fsum flt df = Ok h →
     ∃ w, (h, w) ∈ float_by_hour to_minutes fsum df
       ∧ ∀ h' v, (h', v) ∈ float_by_hour to_minutes fsum df →
           flt w v = false ∧ (flt v w = false → h ≤ h'))
  ∧ (∀ m, float_highest_month to_minutes fsum flt df = Ok m →
     ∃ w, (m, w) ∈ float_by_month to_minutes fsum df
       ∧ ∀ m' v, (m', v) ∈ float_by_month to_minutes fsum df →
           flt w v = false ∧ (flt v w = false → m ≤ m'))
  ∧ (∀ a, float_top_artist to_minutes fsum flt df = Ok a →
     ∃ w, (a, w) ∈ float_by_artist to_minutes fsum df
       ∧ ∀ a' v, (a', v) ∈ float_by_artist to_minutes fsum df →
           flt w v = false ∧ (flt v w = false → String.compare a a' ≠ Gt))
  ∧ (∀ t, float_top_song to_minutes fsum flt df = Ok t →
     ∃ w, (t, w) ∈ float_by_track to_minutes fsum df
       ∧ ∀ t' v, (t', v) ∈ float_by_track to_minutes fsum df →
           flt w v = false ∧ (flt v w = false → String.compare t t' ≠ Gt)).
Proof using flt_irrefl flt_trans flt_cotrans.
  assert (Hgen : ∀ `{LawfulKey K} `{EqDecision K} (key : row → option K) (k0 : K),
    float_idxmax flt (float_groupby_sum to_minutes fsum key df) = Ok k0 →
    ∃ w, (k0, w) ∈ float_groupby_sum to_minutes fsum key df
      ∧ ∀ k v, (k, v) ∈ float_groupby_sum to_minutes fsum key df →
          flt w v = false ∧ (flt v w = false → key_cmp k0 k ≠ Gt)).
  { intros K ? ? ? key k0 Hidx.
    destruct (float_ranking_spec key df) as (_ & _ & _ & _ & _ & Hmax). cbn zeta in Hmax.
    destruct Hmax as (l1 & k & w & l2 & E & Hidx' & _ & _ & Hall).
    { intros E. by rewrite E in Hidx. }
    rewrite Hidx in Hidx'. injection Hidx' as <-. exists w. split.
    - rewrite E. apply elem_of_app. right. by apply elem_of_cons; left.
    - intros k v Hin. exact (Hall (k, v) Hin). }
  assert (HZ : ∀ (key : row → option Z) (k0 : Z),
    float_idxmax flt (float_groupby_sum to_minutes fsum key df) = Ok k0 →
    ∃ w, (k0, w) ∈ float_groupby_sum to_minutes fsum key df
      ∧ ∀ k v, (k, v) ∈ float_groupby_sum to_minutes fsum key df →
          flt w v = false ∧ (flt v w = false → k0 ≤ k)).
  { intros key k0 Hidx. destruct (Hgen Z _ _ _ key k0 Hidx) as (w & Hw & Hall).
    exists w. split; [done|]. intros k v Hin. destruct (Hall k v Hin) as [Hle Htie].
    split; [done|]. intros Hc. specialize (Htie Hc).
    unfold key_cmp, Z_key in Htie. by apply Z.compare_le_iff. }
  split; [intros h; apply HZ|]. split; [intros m; apply HZ|].
  split; [intros a|intros t]; apply (Hgen string _ _ _).
Qed.
End float_ranking_facts.

(** In exact arithmetic two months with different favourites have one
    monthly top artist, A. *)
Lemma monthly_top_is_overall_argmax_witness :
  let df := data_cleaning two_months in
  float_monthly_top_artist exact_minutes Qsum Qltb df = Ok "A"
  ∧ ∃ before m a v after,
      float_by_month_artist exact_minutes Qsum df = (before ++ (m, a, v) :: after)%list
      ∧ float_monthly_top_artist exact_minutes Qsum Qltb df = Ok a
      ∧ Forall (λ g, Qltb g.2 v = true) before
      ∧ Forall (λ g, Qltb v g.2 = false) after
      ∧ ∀ g, g ∈ float_by_month_artist exact_minutes Qsum df → Qltb v g.2 = false.
Proof.
  cbn zeta. split; [by vm_compute|].
  destruct (monthly_top_is_overall_argmax exact_minutes Qsum Qltb
              Qltb_irrefl Qltb_trans Qltb_cotrans (data_cleaning two_months))
    as (_ & _ & _ & _ & H & _).
  apply H. vm_compute. discriminate.
Defined.

(** Two artists with one minute each, an hour apart: the earlier hour is
    reported. *)
Lemma ties_go_to_the_first_label_witness :
  let d := data_cleaning [play 2023 5 1 11 0 "B" "T" 60000; play 2023 5 1 10 0 "A" "T" 60000] in
  float_most_active_hour exact_minutes Qsum Qltb d = Ok 10
  ∧ ∃ w, (10, w) ∈ float_by_hour exact_minutes Qsum d
      ∧ ∀ h' v, (h', v) ∈ float_by_hour exact_minutes Qsum d →
          Qltb w v = false ∧ (Qltb v w = false → 10 ≤ h').
Proof.
  cbn zeta.
  assert (E : float_most_active_hour exact_minutes Qsum Qltb (data_cleaning
    [play 2023 5 1 11 0 "B" "T" 60000; play 2023 5 1 10 0 "A" "T" 60000]) = Ok 10)
    by (by vm_compute).
  split; [exact E|].
  destruct (ties_go_to_the_first_label exact_minutes Qsum Qltb
              Qltb_irrefl Qltb_trans Qltb_cotrans (data_cleaning
    [play 2023 5 1 11 0 "B" "T" 60000; play 2023 5 1 10 0 "A" "T" 60000])) as (H & _).
  exact (H 10 E).
Defined.

(** ** Exact arithmetic *)

Lemma Qltb_compat (x x' y y' : Q) :
  (x == x')%Q → (y == y')%Q → Qltb x y = Qltb x' y'.
Proof.
  intros Hx Hy. destruct (Qltb x y) eqn:E1, (Qltb x' y') eqn:E2; try done.
  - apply Qltb_lt in E1. apply Qltb_ge in E2. rewrite Hx, Hy in E1.
    by apply Qlt_not_le in E1.
  - apply Qltb_ge in E1. apply Qltb_lt in E2. rewrite Hx, Hy in E1.
    by apply Qlt_not_le in E2.
Qed.

Lemma arg_best_exact {K} (best best' : K * Q) (s s' : list (K * Q)) :
  best.1 = best'.1 → (best.2 == best'.2)%Q →
  Forall2 (λ x y, x.1 = y.1 ∧ (x.2 == y.2)%Q) s s' →
  arg_best (λ v b, Qltb b v) best s = (float_arg_max Qltb best' s').1.
Proof.
  intros H1 H2 Hs. revert best best' H1 H2.
  induction Hs as [|x y s s' [Hxy1 Hxy2] _ IH]; intros best best' H1 H2; [done|].
  cbn [arg_best float_arg_max].
  rewrite (Qltb_compat best.2 best'.2 x.2 y.2 H2 Hxy2).
  destruct (Qltb best'.2 y.2); by apply IH.
Qed.

Lemma idxmax_exact {K} (s s' : list (K * Q)) :
  Forall2 (λ x y, x.1 = y.1 ∧ (x.2 == y.2)%Q) s s' →
  idxmax s = float_idxmax Qltb s'.
Proof.
  intros [|x y s0 s0' [H1 H2] Hs]; [done|].
  cbn [idxmax float_idxmax]. f_equal. by apply arg_best_exact.
Qed.

Lemma groupby_sum_exact `{LawfulKey K} `{EqDecision K} (key : row → option K)
    (df : list Event.t) :
  Forall2 (λ x y, x.1 = y.1 ∧ (x.2 == y.2)%Q)
    (groupby_sum (key <$> data_cleaning df) (duration_minutes <$> data_cleaning df))
    (float_groupby_sum exact_minutes Qsum key (data_cleaning df)).
Proof.
  unfold float_groupby_sum.
  rewrite <- (groupby_sum_labels key duration_minutes (data_cleaning df)).
  destruct (groupby_sum_spec key duration_minutes (data_cleaning df)) as (_ & _ & _ & Hv).
  cbn zeta in Hv.
  rewrite <- list_fmap_compose. apply Forall2_fmap_r, Forall_Forall2_diag, Forall_forall.
  intros [k v] Hin. cbn. split; [done|]. rewrite (Hv k v Hin).
  replace (duration_minutes <$> filter (λ r, key r = Some k) (data_cleaning df))
    with ((λ r, exact_minutes (msPlayed r)) <$> filter (λ r, key r = Some k) (data_cleaning df));
    [reflexivity|].
  apply Forall_fmap_ext_1, Forall_forall. intros r [_ Hr]%list_elem_of_filter.
  unfold data_cleaning in Hr. by apply list_elem_of_fmap in Hr as (e & -> & _).
Qed.

(** With exact sums and comparisons the float rankings are the rankings of
    the KPI set. *)
Lemma exact_rankings (df : list Event.t) :
  let d := data_cleaning df in
  float_most_active_hour exact_minutes Qsum Qltb d = idxmax (by_hour d)
  ∧ float_highest_month exact_minutes Qsum Qltb d = idxmax (by_month d)
  ∧ float_top_artist exact_minutes Qsum Qltb d = idxmax (by_artist d)
  ∧ float_top_song exact_minutes Qsum Qltb d = idxmax (by_track d)
  ∧ float_monthly_top_artist exact_minutes Qsum Qltb d = snd <$> idxmax (by_month_artist d)
  ∧ float_monthly_top_song exact_minutes Qsum Qltb d = snd <$> idxmax (by_month_track d).
Proof.
  cbn zeta.
  unfold float_most_active_hour, float_highest_month, float_top_artist, float_top_song,
    float_monthly_top_artist, float_monthly_top_song, float_by_hour, float_by_month,
    float_by_artist, float_by_track, float_by_month_artist, float_by_month_track,
    by_hour, by_month, by_artist, by_track, by_month_artist, by_month_track.
  repeat split; try f_equal; symmetry; apply idxmax_exact, groupby_sum_exact.
Qed.

(** * Counts of groups *)

Lemma nunique_groups (col : list (option string)) (s : list (string * Q)) :
  NoDup s.*1 → (∀ a, a ∈ s.*1 ↔ Some a ∈ col) → nunique col = Z.of_nat (length s).
Proof.
  intros Hnd Hk. unfold nunique. f_equal. rewrite <- (length_fmap fst s).
  apply Permutation_length, NoDup_Permutation; [apply NoDup_remove_dups|done|].
  intros a. rewrite elem_of_remove_dups, list_elem_of_omap, Hk. split.
  - intros ([a'|] & Hin & [= ->]). done.
  - intros Hin. by exists (Some a).
Qed.

Lemma labels_bounded {K} (s : list (K * Q)) (all : list K) :
  NoDup s.*1 → (∀ k, k ∈ s.*1 → k ∈ all) → (length s ≤ length all)%nat.
Proof.
  intros Hnd Hin. rewrite <- (length_fmap fst s).
  by apply submseteq_length, NoDup_submseteq.
Qed.

(** The number of artists and of songs reported is the number of entries of
    the per-artist and per-track sums; a cleaned frame has at most 24 hourly,
    12 monthly and 7 day-of-week groups, and the consistency rate is above 0
    and at most 100. *)
Theorem group_counts (df : list Event.t) (k : KPISet) :
  calculate_metrics (data_cleaning df) = Ok k →
  unique_artists k = Z.of_nat (length (by_artist (data_cleaning df)))
  ∧ unique_songs k = Z.of_nat (length (by_track (data_cleaning df)))
  ∧ (length (by_hour (data_cleaning df)) ≤ 24)%nat
  ∧ (length (by_month (data_cleaning df)) ≤ 12)%nat
  ∧ (1 ≤ length (by_day_of_week (data_cleaning df)) ≤ 7)%nat
  ∧ (0 < consistency_rate k)%Q ∧ (consistency_rate k <= 100)%Q.
Proof.
  intros Hk. set (d := data_cleaning df) in *.
  apply calculate_metrics_fields in Hk
    as (_ & -> & -> & _ & Hd & _ & _ & _ & _ & _ & _ & _ & _ & _ & _ & _ & _ & _ & _ & -> & _).
  destruct (groupby_sum_spec artistName duration_minutes d) as (_ & Hnd1 & Hk1 & _).
  destruct (groupby_sum_spec trackName duration_minutes d) as (_ & Hnd2 & Hk2 & _).
  destruct (groupby_sum_spec (λ r, Some (hour r)) duration_minutes d) as (_ & Hnd3 & Hk3 & _).
  destruct (groupby_sum_spec (λ r, Some (month r)) duration_minutes d) as (_ & Hnd4 & Hk4 & _).
  destruct (groupby_sum_spec (λ r, Some (day_of_week r)) duration_minutes d)
    as (_ & Hnd5 & Hk5 & _).
  assert (Hrow : ∀ r, r ∈ d → ∃ e, r = derive e).
  { intros r (e & -> & _)%list_elem_of_fmap. by exists e. }
  assert (Hdays : (1 ≤ length (by_day_of_week d) ≤ 7)%nat).
  { split.
    - destruct (by_day_of_week d); [discriminate Hd|cbn; lia].
    - apply (labels_bounded _ ["Monday"; "Tuesday"; "Wednesday"; "Thursday"; "Friday";
                               "Saturday"; "Sunday"]); [exact Hnd5|].
      intros w (r & Hr & [= <-])%Hk5. destruct (Hrow r Hr) as [e ->].
      apply ts_day_name_cases. }
  split; [|split; [|split; [|split; [|split; [exact Hdays|]]]]].
  - apply nunique_groups; [exact Hnd1|]. intros a. rewrite Hk1, list_elem_of_fmap.
    split; [intros (r & ? & ?); by exists r|intros (r & ? & ?); by exists r].
  - apply nunique_groups; [exact Hnd2|]. intros a. rewrite Hk2, list_elem_of_fmap.
    split; [intros (r & ? & ?); by exists r|intros (r & ? & ?); by exists r].
  - apply (labels_bounded _ (seqZ 0 24)); [exact Hnd3|].
    intros h (r & Hr & [= <-])%Hk3. destruct (Hrow r Hr) as [e ->].
    apply elem_of_seqZ. pose proof (ts_hour_range (Event.endTime e)). cbn [hour derive]. lia.
  - apply (labels_bounded _ (seqZ 1 12)); [exact Hnd4|].
    intros m (r & Hr & [= <-])%Hk4. destruct (Hrow r Hr) as [e ->].
    apply elem_of_seqZ. pose proof (ts_month_range (Event.endTime e)). cbn [month derive]. lia.
  - fold (by_day_of_week d). destruct Hdays as [H1 H7].
    split; unfold Qlt, Qle, Qdiv, Qmult, Qinv, inject_Z; cbn; lia.
Qed.

Lemma group_counts_witness :
  ∃ k, calculate_metrics (data_cleaning six_plays) = Ok k
       ∧ unique_artists k = Z.of_nat (length (by_artist (data_cleaning six_plays))).
Proof.
  destruct (calculate_metrics (data_cleaning six_plays)) as [k|] eqn:Hk;
    [|vm_compute in Hk; discriminate].
  exists k. split; [reflexivity|].
  exact (proj1 (group_counts six_plays k Hk)).
Defined.

(** * The number of sessions *)

(** A non-empty frame has one session more than it has gaps above 1800
    seconds between consecutive rows, and [session_lengths] has one entry
    for each of them: the ids 0, 1, ... in this order. *)
Theorem session_count (df : list row) :
  df ≠ [] →
  let crossings := count_true ((λ d, 1800 <? d) <$> session_deltas (endTime <$> df)) in
  (session_lengths df).*1 = seqZ 0 (1 + crossings)
  ∧ Z.of_nat (length (session_lengths df)) = 1 + crossings
  ∧ last (session (endTime <$> df)) = Some crossings.
Proof.
  intros Hne. cbn zeta. set (col := endTime <$> df).
  set (flags := (λ d, 1800 <? d) <$> session_deltas col).
  pose proof (session_length col) as Hlen.
  pose proof (session_first col) as Hzero.
  pose proof (session_mono col) as Hmono.
  pose proof (session_contiguous col) as Hcont.
  pose proof (session_lookup_count col) as Hcount.
  fold flags in Hcount.
  assert (Hcol : length col = length df) by (subst col; by rewrite length_fmap).
  assert (Hpos : (0 < length df)%nat) by (destruct df; [done|cbn; lia]).
  assert (Hflags : length flags = length col).
  { rewrite <- Hlen. unfold session, cumsum. by rewrite length_cumsum_from. }
  assert (Hlast : session col !! (length df - 1)%nat = Some (count_true flags)).
  { rewrite Hcount by lia. do 2 f_equal. apply take_ge. lia. }
  assert (Hkeys : ∀ i, i ∈ (session_lengths df).*1 ↔ 0 ≤ i ≤ count_true flags).
  { intros i. unfold session_lengths. fold col.
    pose proof (groupby_sum_spec (λ p : Z * row, Some p.1) (λ p, duration_minutes p.2)
                  (zip (session col) df)) as (_ & _ & Hk & _).
    cbn zeta in Hk.
    replace ((λ p : Z * row, Some p.1) <$> zip (session col) df)
      with (Some <$> session col) in Hk.
    2: { rewrite <- (fst_zip (session col) df) at 1 by lia. by rewrite <- list_fmap_compose. }
    replace ((λ p : Z * row, duration_minutes p.2) <$> zip (session col) df)
      with (duration_minutes <$> df) in Hk.
    2: { rewrite <- (snd_zip (session col) df) at 1 by lia. by rewrite <- list_fmap_compose. }
    rewrite Hk. split.
    - intros ([i' r] & [j Hj]%list_elem_of_lookup & Hi'). cbn in Hi'.
      injection Hi' as ->.
      apply lookup_zip_with_Some in Hj as (x & y & [= <- <-] & Hx & Hy).
      assert (Hj : (j < length df)%nat) by (by eapply lookup_lt_Some).
      split.
      + assert (H0 : session col !! 0%nat = Some 0)
          by (apply Hzero; intros E; rewrite E in Hcol; cbn in Hcol; lia).
        apply (Hmono 0%nat j 0 i); [lia|done|done].
      + apply (Hmono j (length df - 1)%nat i (count_true flags)); [lia|done|done].
    - intros Hi. destruct (Hcont _ _ i Hlast Hi) as (j & Hj & Hlk).
      destruct (lookup_lt_is_Some_2 df j) as [r Hr]; [lia|].
      exists (i, r). split; [|done]. apply list_elem_of_lookup. exists j.
      apply lookup_zip_with_Some. by exists i, r. }
  assert (Hsorted : StronglySorted key_lt (session_lengths df))
    by apply groupby_sum_sorted.
  assert (Heq : (session_lengths df).*1 = seqZ 0 (1 + count_true flags)).
  { assert (Hanti : AntiSymm eq Z.lt) by (intros x y ??; lia).
    apply (StronglySorted_unique Z.lt).
    - eapply (StronglySorted_fmap fst key_lt Z.lt); [|exact Hsorted].
      intros x y Hxy. unfold key_lt, key_cmp, Z_key in Hxy. by apply Z.compare_lt_iff.
    - apply Sorted_StronglySorted; [intros x y z; lia|].
      pose proof (count_true_nonneg flags).
      generalize (1 + count_true flags). intros n. generalize 0.
      unfold seqZ. generalize (Z.to_nat n). clear. intros m z.
      change (Sorted Z.lt ((λ i : nat, Z.of_nat i + z) <$> seq 0 m)).
      generalize 0%nat. induction m as [|m IH]; intros s; cbn; [constructor|].
      constructor; [apply IH|]. destruct m; cbn; constructor. lia.
    - apply NoDup_Permutation.
      + by apply sorted_labels_NoDup.
      + apply NoDup_seqZ.
      + intros i. rewrite Hkeys, elem_of_seqZ. lia. }
  split; [exact Heq|]. split.
  - rewrite <- (length_fmap fst), Heq, length_seqZ.
    pose proof (count_true_nonneg flags). lia.
  - rewrite last_lookup, Hlen, Hcol.
    replace (pred (length df)) with (length df - 1)%nat by lia. exact Hlast.
Qed.

Lemma session_count_witness :
  (session_lengths (data_cleaning six_plays)).*1 = [0; 1; 2].
Proof.
  destruct (session_count (data_cleaning six_plays)) as (H & _); [discriminate|].
  rewrite H. reflexivity.
Defined.

(** * The month-to-month variance *)

Lemma Qsum_pos (l : list Q) : l ≠ [] → Forall (λ v, (0 < v)%Q) l → (0 < Qsum l)%Q.
Proof.
  intros Hne Hl. destruct Hl as [|x l Hx Hl]; [done|].
  rewrite Qsum_cons. apply Qlt_le_trans with (x + 0)%Q.
  - by rewrite Qplus_0_r.
  - apply Qplus_le_compat; [apply Qle_refl|].
    apply Qsum_nonneg. eapply Forall_impl; [exact Hl|]. intros. by apply Qlt_le_weak.
Qed.

Lemma pct_change_cons (x : Q) (l : list Q) :
  pct_change (x :: l)
  = None :: zip_with (λ y p, p' ← p; if Qeq_bool p' 0 then None else Some (y / p' - 1)%Q)
              l (fmap (M:=list) Some (x :: l)).
Proof.
  unfold pct_change, shift. cbn [length take fmap list_fmap zip_with]. cbn [mbind option_bind].
  f_equal. apply zip_with_take_r.
Qed.

Lemma pct_change_defined (x : Q) (l : list Q) :
  Forall (λ v, ¬ (v == 0)%Q) (x :: l) →
  length (omap id (zip_with (λ y p, p' ← p; if Qeq_bool p' 0 then None else Some (y / p' - 1)%Q)
                     l (fmap (M:=list) Some (x :: l)))) = length l.
Proof.
  revert x. induction l as [|y l IH]; intros x Hall; [done|].
  apply Forall_cons in Hall as [Hx Hall]. cbn.
  destruct (Qeq_bool x 0) eqn:E; [by apply Qeq_bool_iff in E|].
  cbn. f_equal. by apply IH.
Qed.

(** With the plays of a single month there is no month-to-month change: the
    variance is [NaN] and the context prints it as [nan]; with two months or
    more it is a number. *)
Theorem trend_variance_single_month (df : list Event.t) (k : KPISet) :
  calculate_metrics (data_cleaning df) = Ok k →
  (monthly_trend_variance k = None ↔ length (by_month (data_cleaning df)) = 1%nat)
  ∧ (length (by_month (data_cleaning df)) = 1%nat →
     render_slot k (F2 Name.monthly_trend_variance) = "nan").
Proof.
  intros Hk. set (d := data_cleaning df) in *. pose proof Hk as Hf.
  apply calculate_metrics_fields in Hf
    as (_ & _ & _ & _ & _ & _ & _ & _ & Hidx & _).
  assert (Hvar : monthly_trend_variance k
                 = (λ x, x * 100)%Q <$> nanmean (pct_change (snd <$> by_month d))).
  { unfold calculate_metrics in Hk. inv_bind Hk. by injection Hk as <-. }
  assert (Hpos : Forall (λ v, ¬ (v == 0)%Q) (snd <$> by_month d)).
  { apply Forall_fmap, Forall_forall. intros [m v] Hin. cbn.
    destruct (groupby_sum_spec (λ r, Some (month r)) duration_minutes d)
      as (_ & _ & Hkeys & Hv).
    assert (Hm : m ∈ (by_month d).*1) by (apply list_elem_of_fmap; by exists (m, v)).
    apply Hkeys in Hm as (r & Hr & Hm).
    rewrite (Hv m v Hin). intros E.
    assert (Hlt : (0 < Qsum (duration_minutes <$> filter (λ r, Some (month r) = Some m) d))%Q).
    { apply Qsum_pos.
      - intros E'. apply fmap_nil_inv in E'.
        assert (Hin' : r ∈ filter (λ r, Some (month r) = Some m) d)
          by (by apply list_elem_of_filter).
        rewrite E' in Hin'. by apply elem_of_nil in Hin'.
      - apply Forall_fmap, Forall_forall. intros r' [_ Hr']%list_elem_of_filter.
        subst d. unfold data_cleaning in Hr'.
        apply list_elem_of_fmap in Hr' as (e & -> & [He _]%list_elem_of_filter).
        by apply duration_minutes_pos. }
    rewrite E in Hlt. by apply Qlt_irrefl in Hlt. }
  assert (Hiff : monthly_trend_variance k = None ↔ length (by_month d) = 1%nat).
  { rewrite Hvar. destruct (snd <$> by_month d) as [|x l] eqn:El.
    { apply fmap_nil_inv in El. rewrite El in Hidx. discriminate Hidx. }
    assert (Hlen : length (by_month d) = S (length l))
      by (by rewrite <- (length_fmap snd), El).
    rewrite Hlen, pct_change_cons. unfold nanmean. cbn [omap list_omap id].
    pose proof (pct_change_defined x l Hpos) as Hdef.
    destruct (omap id _) as [|z zs] eqn:Ez.
    - cbn in Hdef. rewrite <- Hdef. done.
    - cbn in Hdef. rewrite <- Hdef. cbn. split; [done|lia]. }
  split; [exact Hiff|]. intros H1. apply Hiff in H1.
  unfold render_slot, get_float. by rewrite H1.
Qed.

Lemma trend_variance_single_month_witness :
  ∃ k, calculate_metrics (data_cleaning unsorted_upload) = Ok k
       ∧ render_slot k (F2 Name.monthly_trend_variance) = "nan".
Proof.
  destruct (calculate_metrics (data_cleaning unsorted_upload)) as [k|] eqn:Hk;
    [|vm_compute in Hk; discriminate].
  exists k. split; [reflexivity|].
  apply (trend_variance_single_month unsorted_upload k Hk). reflexivity.
Defined.
